(** * Secure Filesystem API: the path guard, the delete confirmation
      protocol, the edit engine and the filename search of
      [servers/filesystem/main.py], as a shallow embedding.

    Python text is modelled by [string], read as a sequence of code points
    below 256.  A resolved [pathlib.Path] is the list of its parts below the
    filesystem root.  The filesystem is a tree of regular files and
    directories (no symbolic links, no special files, every node readable
    and writable by the server).  The server's working directory does not
    lie in an allowed directory, so that the confirmation file, which the
    server keeps there, is not among the files the handlers serve.  Clock
    readings and random bytes are inputs of the handlers that use them. *)

From Stdlib Require Import ZArith String Ascii List Bool Lia DecimalString.
From stdpp Require Import base option list gmap strings.
Import ListNotations.
Set Warnings "-register-all".

(** ** Python [str] operations *)

Module Text.

(** [s.startswith(p)] *)
Fixpoint startswith (s p : string) {struct p} : bool :=
  match p with
  | EmptyString => true
  | String a p' =>
      match s with
      | EmptyString => false
      | String b s' => Ascii.eqb a b && startswith s' p'
      end
  end.

(** [s[:n]] *)
Fixpoint take (n : nat) (s : string) : string :=
  match n, s with
  | S n', String c s' => String c (take n' s')
  | _, _ => EmptyString
  end.

(** [s[n:]] *)
Fixpoint drop (n : nat) (s : string) : string :=
  match n, s with
  | S n', String _ s' => drop n' s'
  | _, _ => s
  end.

(** [s.find(sub)]: the lowest index at which [sub] occurs, scanning from
    the start of [s]. *)
Fixpoint find (s sub : string) : option nat :=
  if startswith s sub then Some 0
  else match s with
       | EmptyString => None
       | String _ s' => S <$> find s' sub
       end.

(** [sub in s] *)
Definition contains (sub s : string) : bool :=
  match find s sub with Some _ => true | None => false end.

(** [s.replace(old, new, 1)] *)
Definition replace_first (s old new : string) : string :=
  match find s old with
  | Some i => take i s +:+ new +:+ drop (i + String.length old) s
  | None => s
  end.

Definition map_chars (f : ascii -> ascii) : string -> string :=
  fix go (s : string) : string :=
    match s with
    | EmptyString => EmptyString
    | String c s' => String (f c) (go s')
    end.

(** [c.lower()] for a code point below 256: A-Z and the Latin-1 capitals
    (U+00C0-U+00DE except the multiplication sign U+00D7) move up by 32. *)
Definition lower_char (c : ascii) : ascii :=
  let n := nat_of_ascii c in
  if ((65 <=? n) && (n <=? 90)) || ((192 <=? n) && (n <=? 222) && negb (n =? 215))
  then ascii_of_nat (n + 32) else c.

(** [s.lower()] *)
Definition lower : string -> string := map_chars lower_char.

(** The line boundaries of [str.splitlines] below code point 256. *)
Definition is_linebreak (c : ascii) : bool :=
  let n := nat_of_ascii c in
  ((10 <=? n) && (n <=? 13)) || ((28 <=? n) && (n <=? 30)) || (n =? 133).

(** [s.splitlines(keepends=True)], [acc] being the line read so far. *)
Fixpoint splitlines_from (acc s : string) : list string :=
  match s with
  | EmptyString => match acc with EmptyString => [] | _ => [acc] end
  | String c s' =>
      if Ascii.eqb c "013" then
        match s' with
        | String d s'' =>
            if Ascii.eqb d "010"
            then (acc +:+ String c (String d EmptyString)) :: splitlines_from EmptyString s''
            else (acc +:+ String c EmptyString) :: splitlines_from EmptyString s'
        | EmptyString => [acc +:+ String c EmptyString]
        end
      else if is_linebreak c
      then (acc +:+ String c EmptyString) :: splitlines_from EmptyString s'
      else splitlines_from (acc +:+ String c EmptyString) s'
  end.

Definition splitlines : string -> list string := splitlines_from EmptyString.

(** Reading in text mode with universal newlines: a carriage return, alone
    or before a line feed, is read as a line feed. *)
Fixpoint universal_newlines (s : string) : string :=
  match s with
  | EmptyString => EmptyString
  | String c s' =>
      if Ascii.eqb c "013" then
        match s' with
        | String d s'' =>
            if Ascii.eqb d "010"
            then String "010" (universal_newlines s'')
            else String "010" (universal_newlines s')
        | EmptyString => String "010" EmptyString
        end
      else String c (universal_newlines s')
  end.

(** ["".join(parts)] *)
Definition join (parts : list string) : string := foldr String.append EmptyString parts.

(** [s.split(sep)] for a one-character separator. *)
Fixpoint split_on (sep : ascii) (s : string) : list string :=
  match s with
  | EmptyString => [EmptyString]
  | String c s' =>
      if Ascii.eqb c sep then EmptyString :: split_on sep s'
      else match split_on sep s' with
           | h :: t => String c h :: t
           | [] => [String c EmptyString]
           end
  end.

(** [binascii.hexlify]: two lower-case hexadecimal digits per byte. *)
Definition hex_digit (n : N) : ascii :=
  match String.get (N.to_nat n) "0123456789abcdef" with
  | Some c => c
  | None => "0"%char
  end.

Definition hex_of_byte (b : Byte.byte) : string :=
  let n := Byte.to_N b in
  String (hex_digit (n / 16)) (String (hex_digit (n mod 16)) EmptyString).

Definition hexlify (bs : list Byte.byte) : string := join (map hex_of_byte bs).

End Text.

(** ** Resolved paths *)

(** The parts of an absolute, resolved [pathlib.Path] below the root. *)
Definition path : Type := list string.

(** [str(p)] for a resolved POSIX path. *)
Definition path_str (p : path) : string :=
  match p with
  | [] => "/"
  | _ => Text.join (map (String.append "/") p)
  end.

(** Lexical normalisation of path segments: empty and [.] segments vanish,
    [..] drops the segment before it and stays at the root. *)
Definition push_segment (acc : path) (seg : string) : path :=
  if String.eqb seg "" || String.eqb seg "." then acc
  else if String.eqb seg ".." then removelast acc
  else acc ++ [seg].

Definition parts_of (s : string) : path :=
  fold_left push_segment (Text.split_on "/" s) [].

(** The home directory [os.path.expanduser] puts for [~name]: the process's
    own for the empty name, the one the password database [users] has for
    another name. *)
Fixpoint home_of (users : list (string * path)) (name : string) : option path :=
  match users with
  | [] => None
  | (user, dir) :: users' => if String.eqb name user then Some dir else home_of users' name
  end.

(** [pathlib.Path(os.path.expanduser(s)).resolve()] on a filesystem without
    symbolic links, for a process with home directory [home] and working
    directory [cwd].  A [~name] that names no user is left as it is, a
    relative path. *)
Definition posix_resolve (home cwd : path) (users : list (string * path)) (s : string)
    : path :=
  let relative := fold_left push_segment (Text.split_on "/" s) cwd in
  if Text.startswith s "~" then
    match Text.split_on "/" (Text.drop 1 s) with
    | name :: rest =>
        match (if String.eqb name "" then Some home else home_of users name) with
        | Some userhome => fold_left push_segment rest userhome
        | None => relative
        end
    | [] => relative
    end
  else if Text.startswith s "/" then parts_of s
  else relative.

(** ** Exceptions *)

Inductive detail : Type :=
| Msg (text : string)
| AccessDeniedDetail (requested_path : string) (allowed_directories : list string).

(** The exceptions the handlers raise or receive.  All of them derive from
    Python's [Exception], [HTTPException] included.  [OSError errno] is an
    [OSError] whose error number has no subclass of its own; the five before
    it are subclasses of [OSError], and so is [ShutilError], which is
    [shutil.Error].  The last three are what library calls raise on an
    argument they do not accept. *)
Inductive exn : Type :=
| HTTPException (status_code : Z) (d : detail)
| FileNotFoundError
| PermissionError
| IsADirectoryError
| NotADirectoryError
| FileExistsError
| OSError (errno : Z)
| ShutilError (msg : string)
| TypeError
| ValueError (msg : string)
| NotImplementedError (msg : string).

Definition ENOTEMPTY : Z := 39.
Definition EBUSY : Z := 16.
Definition EINVAL : Z := 22.

Definition is_OSError (e : exn) : bool :=
  match e with
  | HTTPException _ _ | TypeError | ValueError _ | NotImplementedError _ => false
  | _ => true
  end.

(** ** The filesystem tree *)

Inductive node : Type :=
| File (content : string)
| Dir (entries : list (string * node)).

Definition entries_t : Type := list (string * node).

Fixpoint entry (name : string) (es : entries_t) : option node :=
  match es with
  | [] => None
  | (s, n) :: es' => if String.eqb name s then Some n else entry name es'
  end.

Fixpoint set_entry (name : string) (n : node) (es : entries_t) : entries_t :=
  match es with
  | [] => [(name, n)]
  | (s, n') :: es' =>
      if String.eqb name s then (name, n) :: es' else (s, n') :: set_entry name n es'
  end.

Definition remove_entry (name : string) (es : entries_t) : entries_t :=
  List.filter (fun e => negb (String.eqb name (fst e))) es.

(** [os.stat] without the numbers: the node a path leads to. *)
Fixpoint fs_stat (p : path) (n : node) : exn + node :=
  match p with
  | [] => inr n
  | s :: p' =>
      match n with
      | File _ => inl NotADirectoryError
      | Dir es =>
          match entry s es with
          | Some c => fs_stat p' c
          | None => inl FileNotFoundError
          end
      end
  end.

(** [Path.exists()], [Path.is_file()], [Path.is_dir()] *)
Definition path_exists (p : path) (n : node) : bool :=
  match fs_stat p n with inr _ => true | inl _ => false end.

Definition path_is_file (p : path) (n : node) : bool :=
  match fs_stat p n with inr (File _) => true | _ => false end.

Definition path_is_dir (p : path) (n : node) : bool :=
  match fs_stat p n with inr (Dir _) => true | _ => false end.

(** [Path.read_text()]: the text of the file, read with universal
    newlines. *)
Definition read_text (p : path) (n : node) : exn + string :=
  match fs_stat p n with
  | inr (File c) => inr (Text.universal_newlines c)
  | inr (Dir _) => inl IsADirectoryError
  | inl e => inl e
  end.

(** An operation on the entry [p] names in its parent directory: walk to
    the parent, then let [op] rewrite the parent's entries.  The root has no
    parent: [on_root] says what the operation does there. *)
Fixpoint at_parent (op : string -> entries_t -> exn + entries_t)
    (on_root : node -> exn + node) (p : path) (n : node) : exn + node :=
  match p with
  | [] => on_root n
  | s :: p' =>
      match n with
      | File _ => inl NotADirectoryError
      | Dir es =>
          match p' with
          | [] => match op s es with inr es' => inr (Dir es') | inl e => inl e end
          | _ :: _ =>
              match entry s es with
              | Some c =>
                  match at_parent op on_root p' c with
                  | inr c' => inr (Dir (set_entry s c' es))
                  | inl e => inl e
                  end
              | None => inl FileNotFoundError
              end
          end
      end
  end.

(** [Path.write_text(content)]: create or truncate a regular file.  On a
    POSIX host the text is stored as it is given. *)
Definition write_op (content : string) (s : string) (es : entries_t) : exn + entries_t :=
  match entry s es with
  | Some (Dir _) => inl IsADirectoryError
  | _ => inr (set_entry s (File content) es)
  end.

Definition write_root (content : string) (n : node) : exn + node :=
  match n with
  | File _ => inr (File content)
  | Dir _ => inl IsADirectoryError
  end.

Definition write_text (p : path) (content : string) : node -> exn + node :=
  at_parent (write_op content) (write_root content) p.

(** [Path.unlink()] *)
Definition unlink_op (s : string) (es : entries_t) : exn + entries_t :=
  match entry s es with
  | Some (File _) => inr (remove_entry s es)
  | Some (Dir _) => inl IsADirectoryError
  | None => inl FileNotFoundError
  end.

Definition unlink : path -> node -> exn + node :=
  at_parent unlink_op (fun _ => inl IsADirectoryError).

(** [Path.rmdir()]: only an empty directory goes. *)
Definition rmdir_op (s : string) (es : entries_t) : exn + entries_t :=
  match entry s es with
  | Some (Dir []) => inr (remove_entry s es)
  | Some (Dir (_ :: _)) => inl (OSError ENOTEMPTY)
  | Some (File _) => inl NotADirectoryError
  | None => inl FileNotFoundError
  end.

Definition rmdir : path -> node -> exn + node :=
  at_parent rmdir_op (fun _ => inl (OSError EBUSY)).

(** [shutil.rmtree(path)]: the directory and everything below it.  On the
    root, everything below it goes and removing the root itself raises. *)
Definition rmtree_op (s : string) (es : entries_t) : exn + entries_t :=
  match entry s es with
  | Some (Dir _) => inr (remove_entry s es)
  | Some (File _) => inl NotADirectoryError
  | None => inl FileNotFoundError
  end.

Definition rmtree (p : path) (n : node) : (exn + unit) * node :=
  match p with
  | [] =>
      match n with
      | Dir _ => (inl (OSError EBUSY), Dir [])
      | File _ => (inl NotADirectoryError, n)
      end
  | _ :: _ =>
      match at_parent rmtree_op (fun _ => inl (OSError EBUSY)) p n with
      | inr n' => (inr tt, n')
      | inl e => (inl e, n)
      end
  end.

(** [Path.mkdir(parents=True, exist_ok=True)] *)
Fixpoint mkdir_p (p : path) (n : node) : exn + node :=
  match p with
  | [] => match n with Dir _ => inr n | File _ => inl FileExistsError end
  | s :: p' =>
      match n with
      | File _ => inl NotADirectoryError
      | Dir es =>
          let child := match entry s es with Some c => c | None => Dir [] end in
          match mkdir_p p' child with
          | inr c' => inr (Dir (set_entry s c' es))
          | inl e => inl e
          end
      end
  end.

Definition is_dir_node (n : node) : bool :=
  match n with Dir _ => true | File _ => false end.

(** The names [os.scandir] reports, split as [os.walk] splits them. *)
Definition dirnames (es : entries_t) : list string :=
  map fst (List.filter (fun e => is_dir_node (snd e)) es).

Definition filenames (es : entries_t) : list string :=
  map fst (List.filter (fun e => negb (is_dir_node (snd e))) es).

(** [os.walk(top)], top-down: the triple of a directory, then the walks of
    its subdirectories in order.  A [top] that is no directory yields
    nothing. *)
Fixpoint os_walk (top : path) (n : node) : list (path * list string * list string) :=
  match n with
  | File _ => []
  | Dir es =>
      (top, dirnames es, filenames es)
      :: (fix walk_entries (l : entries_t) : list (path * list string * list string) :=
            match l with
            | [] => []
            | (s, c) :: l' => os_walk (top ++ [s]) c ++ walk_entries l'
            end) es
  end.

Inductive tree_entry : Type :=
| TreeFile (name : string)
| TreeDir (name : string) (children : list tree_entry).

(** The entry [build_tree] of [directory_tree] makes for one item of
    [current.iterdir()], children included. *)
Fixpoint tree_of (name : string) (n : node) : tree_entry :=
  match n with
  | File _ => TreeFile name
  | Dir es =>
      TreeDir name
        ((fix children (l : entries_t) : list tree_entry :=
            match l with
            | [] => []
            | (s, c) :: l' => tree_of s c :: children l'
            end) es)
  end.

Definition build_tree (es : entries_t) : list tree_entry :=
  map (fun e => tree_of (fst e) (snd e)) es.

(** ** Request and response schemas *)

Module ReadFileRequest.
Record t : Type := { path : string }.
End ReadFileRequest.

Module WriteFileRequest.
Record t : Type := { path : string; content : string }.
End WriteFileRequest.

Module EditOperation.
Record t : Type := { oldText : string; newText : string }.
End EditOperation.

Module EditFileRequest.
Record t : Type := { path : string; edits : list EditOperation.t; dryRun : bool }.
End EditFileRequest.

Module CreateDirectoryRequest.
Record t : Type := { path : string }.
End CreateDirectoryRequest.

Module ListDirectoryRequest.
Record t : Type := { path : string }.
End ListDirectoryRequest.

Module DirectoryTreeRequest.
Record t : Type := { path : string }.
End DirectoryTreeRequest.

Module SearchFilesRequest.
Record t : Type :=
  { path : string; pattern : string; excludePatterns : option (list string) }.
End SearchFilesRequest.

Module SearchContentRequest.
Record t : Type :=
  { path : string; search_query : string; recursive : bool; file_pattern : option string }.
End SearchContentRequest.

Module DeletePathRequest.
Record t : Type :=
  { path : string; recursive : bool; confirmation_token : option string }.
End DeletePathRequest.

Module MovePathRequest.
Record t : Type := { source_path : string; destination_path : string }.
End MovePathRequest.

Module GetMetadataRequest.
Record t : Type := { path : string }.
End GetMetadataRequest.

Record stat_result : Type :=
  { st_size : Z; st_mtime : Z; st_ctime : Z; st_birthtime : option Z }.

Record ContentMatch : Type :=
  { file_path : string; line_number : nat; line_content : string }.

Record Metadata : Type :=
  { md_path : string; md_type : string; size_bytes : Z;
    modification_time_utc : Z; creation_time_utc : Z;
    last_metadata_change_time_utc : Z }.

Inductive response : Type :=
| SuccessResponse (message : string)
| ReadFileResponse (content : string)
| DiffResponse (diff : string)
| ConfirmationRequiredResponse (message confirmation_token : string) (expires_at : Z)
| ListingResponse (listing : list (string * string))
| TreeResponse (tree : list tree_entry)
| MatchesResponse (matches : list string)
| ContentMatchesResponse (matches : list ContentMatch)
| NoMatchesResponse
| MetadataResponse (metadata : Metadata)
| AllowedDirectoriesResponse (allowed_directories : list string).

(** ** What the server takes from its configuration and from libraries *)

(** [ALLOWED_DIRECTORIES] comes from [config.py], which is not part of the
    sources; the other fields are library functions the handlers call:
    [pathlib.Path(os.path.expanduser(p)).resolve()], [PurePath.match],
    [Path.glob] and [Path.rglob] (the flag is [recursive]),
    [difflib.unified_diff], [str(e)], [shutil.move] and [os.stat].
    [PurePath.match] raises on a pattern it does not accept, and so do
    [Path.glob] and [Path.rglob], which are handed [data.file_pattern] as
    the request has it, [None] included. *)
Class Runtime : Type :=
  { ALLOWED_DIRECTORIES : list string;
    resolve : string -> path;
    path_match : path -> string -> exn + bool;
    path_glob : bool -> path -> option string -> node -> exn + list path;
    unified_diff : list string -> list string -> string -> string -> list string;
    exn_str : exn -> string;
    shutil_move : path -> path -> node -> exn + node;
    os_stat : path -> node -> stat_result }.

(** ** Pending confirmations *)

(** One entry of the confirmation file: the request it was issued for and
    its expiry, in microseconds of UTC time. *)
Record Confirmation : Type :=
  { conf_path : string; conf_recursive : bool; conf_expiry : Z }.

Definition CONFIRMATION_TTL_SECONDS : Z := 60.

(** [timedelta(seconds=n)] in microseconds. *)
Definition timedelta_seconds (n : Z) : Z := n * 1000000.

(** The state the handlers act on: the filesystem tree they serve, and
    [CONFIRMATION_FILE] ([None] while it does not exist), which lives in the
    server's working directory and is kept apart from the served tree. *)
Record world : Type :=
  { fs : node; confirmation_file : option (gmap string Confirmation) }.

(** ** Handlers as state transformers that may raise *)

Definition M (A : Type) : Type := world -> (exn + A) * world.

Definition ret {A : Type} (a : A) : M A := fun w => (inr a, w).

Definition raise {A : Type} (e : exn) : M A := fun w => (inl e, w).

Definition bind {A B : Type} (m : M A) (k : A -> M B) : M B :=
  fun w => match m w with
           | (inr a, w') => k a w'
           | (inl e, w') => (inl e, w')
           end.

(** [try: m  except Exception as e: h e]; a handler that does not name the
    exception's class re-raises it. *)
Definition try_except {A : Type} (m : M A) (h : exn -> M A) : M A :=
  fun w => match m w with
           | (inl e, w') => h e w'
           | r => r
           end.

(** A query of the filesystem. *)
Definition gets {A : Type} (f : node -> A) : M A := fun w => (inr (f (fs w)), w).

(** A filesystem call that returns a value or raises. *)
Definition call {A : Type} (f : node -> exn + A) : M A := fun w => (f (fs w), w).

(** A filesystem call that changes the tree or raises, leaving it as it was. *)
Definition update (f : node -> exn + node) : M unit :=
  fun w => match f (fs w) with
           | inr n' => (inr tt, {| fs := n'; confirmation_file := confirmation_file w |})
           | inl e => (inl e, w)
           end.

(** A filesystem call that may change the tree and raise all the same. *)
Definition update_partial (f : node -> (exn + unit) * node) : M unit :=
  fun w => let '(r, n') := f (fs w) in
           (r, {| fs := n'; confirmation_file := confirmation_file w |}).

Notation "x <- m ;; k" := (bind m (fun x => k))
  (at level 100, m at next level, right associativity).
Notation "m ;; k" := (bind m (fun _ => k))
  (at level 100, right associativity).

(** [load_confirmations], [now] being its reading of the clock: entries
    that have expired are dropped from what it returns; the file stays. *)
Definition load_confirmations (now : Z) : M (gmap string Confirmation) :=
  fun w => match confirmation_file w with
           | None => (inr ∅, w)
           | Some data => (inr (filter (fun kv => (now < conf_expiry kv.2)%Z) data), w)
           end.

Definition save_confirmations (confirmations : gmap string Confirmation) : M unit :=
  fun w => (inr tt, {| fs := fs w; confirmation_file := Some confirmations |}).

(** The module-level clean-up that runs when the server starts: the
    confirmation file is removed.  (The code passes over an [OSError] of
    the removal; where every node is writable there is none.) *)
Definition startup (w : world) : world :=
  {| fs := fs w; confirmation_file := None |}.

(** The entries the confirmation file holds. *)
Definition stored (w : world) : gmap string Confirmation :=
  default ∅ (confirmation_file w).

(** ** The edit loop of [edit_file] *)

Definition edit_not_found (oldText : string) : exn :=
  HTTPException 400
    (Msg ("Edit failed: oldText not found in content: '" +:+ Text.take 50 oldText +:+ "...'")).

(** [for edit in data.edits: ...]: the text after all edits, or the exception
    the first edit without a match raises. *)
Fixpoint apply_edits (edits : list EditOperation.t) (modified : string) : exn + string :=
  match edits with
  | [] => inr modified
  | edit :: rest =>
      if negb (Text.contains (EditOperation.oldText edit) modified)
      then inl (edit_not_found (EditOperation.oldText edit))
      else apply_edits rest
             (Text.replace_first modified (EditOperation.oldText edit)
                (EditOperation.newText edit))
  end.

(** Python's truth value of an [Optional[str]]. *)
Definition truthy (s : option string) : bool :=
  match s with
  | None | Some EmptyString => false
  | Some _ => true
  end.

(** [secrets.token_hex(3)[:5]], from the three random bytes drawn. *)
Definition new_token (rnd : Byte.byte * Byte.byte * Byte.byte) : string :=
  let '(b0, b1, b2) := rnd in Text.take 5 (Text.hexlify [b0; b1; b2]).

(** Text-mode iteration over a file: universal newlines, every line but
    possibly the last ending in a line feed. *)
Fixpoint file_lines_from (acc s : string) : list string :=
  match s with
  | EmptyString => match acc with EmptyString => [] | _ => [acc] end
  | String c s' =>
      if Ascii.eqb c "013" then
        match s' with
        | String d s'' =>
            if Ascii.eqb d "010"
            then (acc +:+ String "010" EmptyString) :: file_lines_from EmptyString s''
            else (acc +:+ String "010" EmptyString) :: file_lines_from EmptyString s'
        | EmptyString => [acc +:+ String "010" EmptyString]
        end
      else if Ascii.eqb c "010"
      then (acc +:+ String c EmptyString) :: file_lines_from EmptyString s'
      else file_lines_from (acc +:+ String c EmptyString) s'
  end.

Definition is_space (c : ascii) : bool :=
  let n := nat_of_ascii c in
  ((9 <=? n) && (n <=? 13)) || ((28 <=? n) && (n <=? 32)) || (n =? 133) || (n =? 160).

Fixpoint lstrip (s : string) : string :=
  match s with
  | String c s' => if is_space c then lstrip s' else s
  | EmptyString => EmptyString
  end.

(** [s.strip()] *)
Definition strip (s : string) : string :=
  String.rev (lstrip (String.rev (lstrip s))).

(** ** The handlers *)

Section Handlers.
Context `{Runtime}.

Definition access_denied (requested : path) : exn :=
  HTTPException 403 (AccessDeniedDetail (path_str requested) ALLOWED_DIRECTORIES).

(** The test of [normalize_path]'s loop for one allowed directory. *)
Definition allows (requested : path) (allowed : string) : bool :=
  Text.startswith (Text.lower (path_str requested)) (Text.lower allowed).

Definition normalize_path (requested_path : string) : M path :=
  let requested := resolve requested_path in
  if existsb (allows requested) ALLOWED_DIRECTORIES
  then ret requested
  else raise (access_denied requested).

Definition read_file (data : ReadFileRequest.t) : M response :=
  path <- normalize_path (ReadFileRequest.path data) ;;
  try_except
    (file_content <- call (read_text path) ;;
     ret (ReadFileResponse file_content))
    (fun e =>
       match e with
       | FileNotFoundError =>
           raise (HTTPException 404 (Msg ("File not found: " +:+ ReadFileRequest.path data)))
       | PermissionError =>
           raise (HTTPException 403
                    (Msg ("Permission denied for file: " +:+ ReadFileRequest.path data)))
       | _ =>
           raise (HTTPException 500
                    (Msg ("Failed to read file " +:+ ReadFileRequest.path data +:+ ": "
                          +:+ exn_str e)))
       end).

Definition write_file (data : WriteFileRequest.t) : M response :=
  path <- normalize_path (WriteFileRequest.path data) ;;
  try_except
    (update (write_text path (WriteFileRequest.content data)) ;;
     ret (SuccessResponse ("Successfully wrote to " +:+ WriteFileRequest.path data)))
    (fun e =>
       match e with
       | PermissionError =>
           raise (HTTPException 403
                    (Msg ("Permission denied to write to " +:+ WriteFileRequest.path data)))
       | _ =>
           raise (HTTPException 500
                    (Msg ("Failed to write to " +:+ WriteFileRequest.path data +:+ ": "
                          +:+ exn_str e)))
       end).

(** The second [try] block of [edit_file]: the edit loop, then the diff or
    the write.  The edit loop raises inside the block. *)
Definition edit_body (data : EditFileRequest.t) (path : path) (original : string)
    : M response :=
  modified <- (fun w => (apply_edits (EditFileRequest.edits data) original, w)) ;;
  if EditFileRequest.dryRun data then
    let diff_output :=
      unified_diff (Text.splitlines original) (Text.splitlines modified)
        ("a/" +:+ EditFileRequest.path data) ("b/" +:+ EditFileRequest.path data) in
    ret (DiffResponse (Text.join diff_output))
  else
    update (write_text path modified) ;;
    ret (SuccessResponse ("Successfully edited file " +:+ EditFileRequest.path data)).

Definition edit_file (data : EditFileRequest.t) : M response :=
  path <- normalize_path (EditFileRequest.path data) ;;
  original <-
    try_except (call (read_text path))
      (fun e =>
         match e with
         | FileNotFoundError =>
             raise (HTTPException 404 (Msg ("File not found: " +:+ EditFileRequest.path data)))
         | PermissionError =>
             raise (HTTPException 403
                      (Msg ("Permission denied to read file: " +:+ EditFileRequest.path data)))
         | _ =>
             raise (HTTPException 500
                      (Msg ("Failed to read file " +:+ EditFileRequest.path data
                            +:+ " for editing: " +:+ exn_str e)))
         end) ;;
  try_except (edit_body data path original)
    (fun e =>
       match e with
       | PermissionError =>
           raise (HTTPException 403
                    (Msg ("Permission denied to write edited file: "
                          +:+ EditFileRequest.path data)))
       | _ =>
           raise (HTTPException 500
                    (Msg ("Failed to write edited file " +:+ EditFileRequest.path data
                          +:+ ": " +:+ exn_str e)))
       end).

Definition create_directory (data : CreateDirectoryRequest.t) : M response :=
  dir_path <- normalize_path (CreateDirectoryRequest.path data) ;;
  try_except
    (update (mkdir_p dir_path) ;;
     ret (SuccessResponse
            ("Successfully created directory " +:+ CreateDirectoryRequest.path data)))
    (fun e =>
       match e with
       | PermissionError =>
           raise (HTTPException 403
                    (Msg ("Permission denied to create directory "
                          +:+ CreateDirectoryRequest.path data)))
       | _ =>
           raise (HTTPException 500
                    (Msg ("Failed to create directory " +:+ CreateDirectoryRequest.path data
                          +:+ ": " +:+ exn_str e)))
       end).

(** [dir_path.iterdir()] *)
Definition iterdir (p : path) (n : node) : exn + entries_t :=
  match fs_stat p n with
  | inr (Dir es) => inr es
  | inr (File _) => inl NotADirectoryError
  | inl e => inl e
  end.

Definition entry_type (n : node) : string :=
  if is_dir_node n then "directory" else "file".

Definition list_directory (data : ListDirectoryRequest.t) : M response :=
  dir_path <- normalize_path (ListDirectoryRequest.path data) ;;
  is_dir <- gets (path_is_dir dir_path) ;;
  if negb is_dir
  then raise (HTTPException 400 (Msg "Provided path is not a directory"))
  else
    es <- call (iterdir dir_path) ;;
    ret (ListingResponse (map (fun e => (fst e, entry_type (snd e))) es)).

Definition directory_tree (data : DirectoryTreeRequest.t) : M response :=
  base_path <- normalize_path (DirectoryTreeRequest.path data) ;;
  es <- call (iterdir base_path) ;;
  ret (TreeResponse (build_tree es)).

(** The names of one directory that [search_files] reports. *)
Definition matches_at (pattern : string) (root_path : path) (items : list string)
    : list string :=
  flat_map
    (fun item =>
       if Text.contains (Text.lower pattern) (Text.lower item) then
         let result_path := root_path ++ [item] in
         if existsb (fun alt => Text.startswith (path_str result_path) alt)
              ALLOWED_DIRECTORIES
         then [path_str result_path] else []
       else [])
    items.

(** The inner loop of [search_files]: the value of [excluded] after the
    patterns have been tried in order up to the first that matches, or the
    exception [match] raises on the way. *)
Fixpoint excluded_by (root : path) (patterns : list string) : exn + bool :=
  match patterns with
  | [] => inr false
  | pattern :: rest =>
      match path_match root pattern with
      | inl e => inl e
      | inr true => inr true
      | inr false => excluded_by root rest
      end
  end.

(** The loop of [search_files] over the triples [os.walk] yields, [results]
    being the list built so far.  Iterating over [excludePatterns] when it is
    [None] raises. *)
Fixpoint search_loop (data : SearchFilesRequest.t)
    (walk : list (path * list string * list string)) (results : list string)
    : exn + list string :=
  match walk with
  | [] => inr results
  | (root, dirs, files) :: rest =>
      match SearchFilesRequest.excludePatterns data with
      | None => inl TypeError
      | Some patterns =>
          match excluded_by root patterns with
          | inl e => inl e
          | inr true => search_loop data rest results
          | inr false =>
              search_loop data rest
                (results ++ matches_at (SearchFilesRequest.pattern data) root (files ++ dirs))
          end
      end
  end.

(** [os.walk(base_path)] on the tree: errors of the top directory are
    swallowed. *)
Definition walk_from (base_path : path) (n : node) : list (path * list string * list string) :=
  match fs_stat base_path n with
  | inr top => os_walk base_path top
  | inl _ => []
  end.

Definition search_files (data : SearchFilesRequest.t) : M response :=
  base_path <- normalize_path (SearchFilesRequest.path data) ;;
  results <- call (fun n => search_loop data (walk_from base_path n) []) ;;
  ret (MatchesResponse (match results with [] => ["No matches found"] | _ => results end)).

Definition invalid_token : exn :=
  HTTPException 400 (Msg "Invalid or expired confirmation token.").

Definition token_expired : exn :=
  HTTPException 400 (Msg "Confirmation token has expired.").

Definition parameter_mismatch : exn :=
  HTTPException 400
    (Msg "Request parameters (path, recursive) do not match the original request for this token.").

(** The [try] block of [delete_path] that runs once a token is accepted. *)
Definition delete_target (data : DeletePathRequest.t) (path : path) : M response :=
  try_except
    (exists_ <- gets (path_exists path) ;;
     if negb exists_
     then raise (HTTPException 404 (Msg ("Path not found: " +:+ DeletePathRequest.path data)))
     else
       is_file <- gets (path_is_file path) ;;
       if is_file then
         update (unlink path) ;;
         ret (SuccessResponse
                ("Successfully deleted file: " +:+ DeletePathRequest.path data))
       else
         is_dir <- gets (path_is_dir path) ;;
         if is_dir then
           if DeletePathRequest.recursive data then
             update_partial (rmtree path) ;;
             ret (SuccessResponse
                    ("Successfully deleted directory recursively: "
                     +:+ DeletePathRequest.path data))
           else
             try_except
               (update (rmdir path) ;;
                ret (SuccessResponse
                       ("Successfully deleted empty directory: "
                        +:+ DeletePathRequest.path data)))
               (fun e =>
                  if is_OSError e then
                    raise (HTTPException 400
                             (Msg ("Directory not empty. Use 'recursive=True' to delete non-empty directories. Original error: "
                                   +:+ exn_str e)))
                  else raise e)
         else
           raise (HTTPException 400
                    (Msg ("Path is not a file or directory: " +:+ DeletePathRequest.path data))))
    (fun e =>
       match e with
       | PermissionError =>
           raise (HTTPException 403
                    (Msg ("Permission denied to delete " +:+ DeletePathRequest.path data)))
       | _ =>
           raise (HTTPException 500
                    (Msg ("Failed to delete " +:+ DeletePathRequest.path data +:+ ": "
                          +:+ exn_str e)))
       end).

(** [delete_path]: [t_load] is the clock as [load_confirmations] reads it,
    [t_now] as the handler reads it after the path guard, and [rnd] the
    bytes [secrets] draws for a new token. *)
Definition delete_path (t_load t_now : Z) (rnd : Byte.byte * Byte.byte * Byte.byte)
    (data : DeletePathRequest.t) : M response :=
  pending_confirmations <- load_confirmations t_load ;;
  path <- normalize_path (DeletePathRequest.path data) ;;
  let now := t_now in
  if truthy (DeletePathRequest.confirmation_token data) then
    let token := default EmptyString (DeletePathRequest.confirmation_token data) in
    match pending_confirmations !! token with
    | None => raise invalid_token
    | Some confirmation_data =>
        if bool_decide (now > conf_expiry confirmation_data)%Z then
          save_confirmations (delete token pending_confirmations) ;;
          raise token_expired
        else if negb (String.eqb (conf_path confirmation_data) (DeletePathRequest.path data))
                || negb (Bool.eqb (conf_recursive confirmation_data)
                           (DeletePathRequest.recursive data))
        then raise parameter_mismatch
        else
          save_confirmations (delete token pending_confirmations) ;;
          delete_target data path
    end
  else
    exists_ <- gets (path_exists path) ;;
    if negb exists_
    then raise (HTTPException 404 (Msg ("Path not found: " +:+ DeletePathRequest.path data)))
    else
      let token := new_token rnd in
      let expiry_time := (now + timedelta_seconds CONFIRMATION_TTL_SECONDS)%Z in
      save_confirmations
        (<[token := {| conf_path := DeletePathRequest.path data;
                       conf_recursive := DeletePathRequest.recursive data;
                       conf_expiry := expiry_time |}]> pending_confirmations) ;;
      let confirmation_message :=
        "`Confirm deletion of file: " +:+ DeletePathRequest.path data
        +:+ " with token " +:+ token +:+ "`" in
      ret (ConfirmationRequiredResponse confirmation_message token expiry_time).

Definition move_path (data : MovePathRequest.t) : M response :=
  source <- normalize_path (MovePathRequest.source_path data) ;;
  destination <- normalize_path (MovePathRequest.destination_path data) ;;
  try_except
    (exists_ <- gets (path_exists source) ;;
     if negb exists_
     then raise (HTTPException 404
                   (Msg ("Source path not found: " +:+ MovePathRequest.source_path data)))
     else
       update (shutil_move source destination) ;;
       ret (SuccessResponse
              ("Successfully moved '" +:+ MovePathRequest.source_path data +:+ "' to '"
               +:+ MovePathRequest.destination_path data +:+ "'")))
    (fun e =>
       match e with
       | PermissionError =>
           raise (HTTPException 403
                    (Msg ("Permission denied for move operation involving '"
                          +:+ MovePathRequest.source_path data +:+ "' or '"
                          +:+ MovePathRequest.destination_path data +:+ "'")))
       | _ =>
           raise (HTTPException 500
                    (Msg ("Failed to move '" +:+ MovePathRequest.source_path data +:+ "' to '"
                          +:+ MovePathRequest.destination_path data +:+ "': " +:+ exn_str e)))
       end).

Definition get_metadata (data : GetMetadataRequest.t) : M response :=
  path <- normalize_path (GetMetadataRequest.path data) ;;
  try_except
    (exists_ <- gets (path_exists path) ;;
     if negb exists_
     then raise (HTTPException 404 (Msg ("Path not found: " +:+ GetMetadataRequest.path data)))
     else
       stat_result <- gets (os_stat path) ;;
       is_file <- gets (path_is_file path) ;;
       is_dir <- gets (path_is_dir path) ;;
       let file_type := if is_file then "file" else if is_dir then "directory" else "other" in
       let create_time :=
         match st_birthtime stat_result with
         | Some t => t
         | None => st_ctime stat_result
         end in
       ret (MetadataResponse
              {| md_path := path_str path;
                 md_type := file_type;
                 size_bytes := st_size stat_result;
                 modification_time_utc := st_mtime stat_result;
                 creation_time_utc := create_time;
                 last_metadata_change_time_utc := st_ctime stat_result |}))
    (fun e =>
       match e with
       | PermissionError =>
           raise (HTTPException 403
                    (Msg ("Permission denied to access metadata for "
                          +:+ GetMetadataRequest.path data)))
       | _ =>
           raise (HTTPException 500
                    (Msg ("Failed to get metadata for " +:+ GetMetadataRequest.path data
                          +:+ ": " +:+ exn_str e)))
       end).

(** The matching lines of one file, numbered from [line_num]. *)
Fixpoint matching_lines (item_path : path) (search_query_lower : string)
    (line_num : nat) (lines : list string) : list ContentMatch :=
  match lines with
  | [] => []
  | line :: rest =>
      (if Text.contains search_query_lower (Text.lower line)
       then [{| file_path := path_str item_path; line_number := line_num;
                line_content := strip line |}]
       else [])
      ++ matching_lines item_path search_query_lower (S line_num) rest
  end.

Definition search_content (data : SearchContentRequest.t) : M response :=
  base_path <- normalize_path (SearchContentRequest.path data) ;;
  let search_query_lower := Text.lower (SearchContentRequest.search_query data) in
  is_dir <- gets (path_is_dir base_path) ;;
  if negb is_dir
  then raise (HTTPException 400 (Msg "Provided path is not a directory"))
  else
    iterator <- call (path_glob (SearchContentRequest.recursive data) base_path
                        (SearchContentRequest.file_pattern data)) ;;
    results <-
      gets (fun n =>
              flat_map
                (fun item_path =>
                   match read_text item_path n with
                   | inr text =>
                       matching_lines item_path search_query_lower 1
                         (file_lines_from EmptyString text)
                   | inl _ => []
                   end)
                iterator) ;;
    ret (match results with
         | [] => NoMatchesResponse
         | _ => ContentMatchesResponse results
         end).

Definition list_allowed_directories : M response :=
  ret (AllowedDirectoriesResponse ALLOWED_DIRECTORIES).

(** ** Routing *)

Inductive request : Type :=
| ReadFile (data : ReadFileRequest.t)
| WriteFile (data : WriteFileRequest.t)
| EditFile (data : EditFileRequest.t)
| CreateDirectory (data : CreateDirectoryRequest.t)
| ListDirectory (data : ListDirectoryRequest.t)
| DirectoryTree (data : DirectoryTreeRequest.t)
| SearchFiles (data : SearchFilesRequest.t)
| DeletePath (data : DeletePathRequest.t)
| MovePath (data : MovePathRequest.t)
| GetMetadata (data : GetMetadataRequest.t)
| SearchContent (data : SearchContentRequest.t)
| ListAllowedDirectories.

(** The path arguments of a request, in the order its handler guards them. *)
Definition request_paths (r : request) : list string :=
  match r with
  | ReadFile data => [ReadFileRequest.path data]
  | WriteFile data => [WriteFileRequest.path data]
  | EditFile data => [EditFileRequest.path data]
  | CreateDirectory data => [CreateDirectoryRequest.path data]
  | ListDirectory data => [ListDirectoryRequest.path data]
  | DirectoryTree data => [DirectoryTreeRequest.path data]
  | SearchFiles data => [SearchFilesRequest.path data]
  | DeletePath data => [DeletePathRequest.path data]
  | MovePath data => [MovePathRequest.source_path data; MovePathRequest.destination_path data]
  | GetMetadata data => [GetMetadataRequest.path data]
  | SearchContent data => [SearchContentRequest.path data]
  | ListAllowedDirectories => []
  end.

(** The route table: the handler a request runs, with the clock readings
    and random bytes [delete_path] takes from its environment. *)
Definition handle (t_load t_now : Z) (rnd : Byte.byte * Byte.byte * Byte.byte)
    (r : request) : M response :=
  match r with
  | ReadFile data => read_file data
  | WriteFile data => write_file data
  | EditFile data => edit_file data
  | CreateDirectory data => create_directory data
  | ListDirectory data => list_directory data
  | DirectoryTree data => directory_tree data
  | SearchFiles data => search_files data
  | DeletePath data => delete_path t_load t_now rnd data
  | MovePath data => move_path data
  | GetMetadata data => get_metadata data
  | SearchContent data => search_content data
  | ListAllowedDirectories => list_allowed_directories
  end.

End Handlers.

(** ** Notions the properties are stated with *)

(** What [stat] and [read_text] show at a path: the text of a file, or that
    it is a directory, or the error. *)
Definition peek (p : path) (n : node) : exn + option string :=
  match fs_stat p n with
  | inr (File c) => inr (Some c)
  | inr (Dir _) => inr None
  | inl e => inl e
  end.

Fixpoint is_prefix (p q : path) : bool :=
  match p, q with
  | [], _ => true
  | s :: p', t :: q' => String.eqb s t && is_prefix p' q'
  | _ :: _, [] => false
  end.

(** Containment by path segments: [p] is the directory [root] or lies
    beneath it. *)
Definition beneath (root : string) (p : path) : bool := is_prefix (parts_of root) p.

(** What a confirmed [delete_path] can remove: a file, an empty directory,
    or any directory when [recursive] is set; never the root itself. *)
Definition deletable (p : path) (recursive : bool) (n : node) : bool :=
  match p, fs_stat p n with
  | _ :: _, inr (File _) => true
  | _ :: _, inr (Dir []) => true
  | _ :: _, inr (Dir (_ :: _)) => recursive
  | _, _ => false
  end.

(** [t'] is [t] with the first occurrence of [old], scanning from the start,
    replaced by [new]; everything before and after it is kept. *)
Definition replaces_first_occurrence (old new t t' : string) : Prop :=
  exists pre post,
    t = pre +:+ old +:+ post /\ t' = pre +:+ new +:+ post /\
    forall pre' post', t = pre' +:+ old +:+ post' ->
                       String.length pre <= String.length pre'.

(** The edits applied one after the other, each to the text the one before
    it left. *)
Inductive edits_applied : list EditOperation.t -> string -> string -> Prop :=
| edits_applied_nil (t : string) : edits_applied [] t t
| edits_applied_cons (e : EditOperation.t) (es : list EditOperation.t) (t t1 t' : string) :
    replaces_first_occurrence (EditOperation.oldText e) (EditOperation.newText e) t t1 ->
    edits_applied es t1 t' ->
    edits_applied (e :: es) t t'.

(** [reaches top n root es]: in the tree [n] at [top], [root] is a directory
    with entries [es], [top] itself or one at any depth below it. *)
Inductive reaches : path -> node -> path -> entries_t -> Prop :=
| reaches_here (top : path) (es : entries_t) : reaches top (Dir es) top es
| reaches_below (top : path) (es : entries_t) (s : string) (c : node)
    (root : path) (es' : entries_t) :
    In (s, c) es -> reaches (top ++ [s]) c root es' -> reaches top (Dir es) root es'.

(** An operation on one entry leaves the other entries of the directory as
    they were. *)
Definition local_op (op : string -> entries_t -> exn + entries_t) : Prop :=
  forall s es es', op s es = inr es' -> forall s', s' <> s -> entry s' es' = entry s' es.

(** An operation that takes the entry away. *)
Definition removing_op (op : string -> entries_t -> exn + entries_t) : Prop :=
  forall s es es', op s es = inr es' -> entry s es' = None.

(** The entries [load_confirmations] returns at clock reading [now]. *)
Definition live (now : Z) (w : world) : gmap string Confirmation :=
  filter (fun kv => (now < conf_expiry kv.2)%Z) (stored w).

(** The world once [save_confirmations] has written [confirmations]. *)
Definition saved (confirmations : gmap string Confirmation) (w : world) : world :=
  {| fs := fs w; confirmation_file := Some confirmations |}.

(** What a removal that succeeds does to the tree: the target and all below
    it are gone, every path that does not pass through the target shows
    what it showed before. *)
Definition removed (p : path) (n n' : node) : Prop :=
  (forall q, is_prefix p q = true -> path_exists q n' = false)
  /\ (forall q, is_prefix p q = false -> peek q n' = peek q n).

(** What the loop of [search_files] adds for one triple of the walk. *)
Definition level_matches `{Runtime} (data : SearchFilesRequest.t) (patterns : list string)
    (t : path * list string * list string) : list string :=
  let '(root, dirs, files) := t in
  match excluded_by root patterns with
  | inr false => matches_at (SearchFilesRequest.pattern data) root (files ++ dirs)
  | _ => []
  end.

(** ** A concrete runtime for the examples *)

(** [fnmatch.fnmatchcase] of one name against a pattern of plain
    characters, [*] and [?] (no bracket expressions). *)
Fixpoint wildcard (pat : string) : string -> bool :=
  match pat with
  | EmptyString => fun s => match s with EmptyString => true | _ => false end
  | String c pat' =>
      if Ascii.eqb c "*" then
        fix star (s : string) : bool :=
          wildcard pat' s || match s with EmptyString => false | String _ s' => star s' end
      else
        fun s => match s with
                 | EmptyString => false
                 | String d s' => (Ascii.eqb c "?" || Ascii.eqb c d) && wildcard pat' s'
                 end
  end.

Fixpoint all_match (pats : list string) (names : list string) : bool :=
  match pats, names with
  | [], _ => true
  | pat :: pats', name :: names' => wildcard pat name && all_match pats' names'
  | _ :: _, [] => false
  end.

(** The parts of a pattern as [pathlib] parses it: empty and [.] segments
    vanish, [..] stays. *)
Definition pattern_parts (pattern : string) : list string :=
  List.filter (fun seg => negb (String.eqb seg "" || String.eqb seg "."))
    (Text.split_on "/" pattern).

(** [PurePosixPath.match] (CPython 3.11) for patterns whose parts are built
    from plain characters, [*] and [?].  A pattern without parts raises.  An
    absolute pattern must match the whole path, and one with exactly two
    leading slashes matches nothing; a relative pattern is matched from the
    right against the parts of the path, the root [/] being the first of
    them. *)
Definition posix_match (p : path) (pattern : string) : exn + bool :=
  let pats := pattern_parts pattern in
  if Text.startswith pattern "/" then
    if Text.startswith pattern "//" && negb (Text.startswith pattern "///")
    then inr false
    else inr (Nat.eqb (length pats) (length p) && all_match pats p)
  else
    match pats with
    | [] => inl (ValueError "empty pattern")
    | _ :: _ => inr (all_match (rev pats) (rev ("/" :: p)))
    end.

(** The entries below a directory whose name matches [pat], in the order
    [Path.glob] (one level) and [Path.rglob] (every level, a directory's
    matches before those of its subdirectories) yield them. *)
Fixpoint glob_below (recursive : bool) (pat : string) (top : path) (n : node) : list path :=
  match n with
  | File _ => []
  | Dir es =>
      map (fun e => top ++ [fst e]) (List.filter (fun e => wildcard pat (fst e)) es)
      ++ (if recursive then
            (fix below (l : entries_t) : list path :=
               match l with
               | [] => []
               | (s, c) :: l' => glob_below recursive pat (top ++ [s]) c ++ below l'
               end) es
          else [])
  end.

(** [Path.glob] and [Path.rglob] (CPython 3.11) for a pattern that is one
    name built from plain characters, [*] and [?].  Without a pattern, or
    with the empty one, [glob] raises and [rglob] yields the directories,
    the base first; an absolute pattern raises. *)
Definition simple_glob (recursive : bool) (base : path) (pattern : option string) (n : node)
    : exn + list path :=
  let unacceptable (shown : string) :=
    if recursive then inr (map (fun t => fst (fst t)) (walk_from base n))
    else inl (ValueError ("Unacceptable pattern: " +:+ shown)) in
  match pattern with
  | None => unacceptable "None"
  | Some EmptyString => unacceptable "''"
  | Some pat =>
      if Text.startswith pat "/"
      then inl (NotImplementedError "Non-relative patterns are unsupported")
      else match fs_stat base n with
           | inr top => inr (glob_below recursive pat base top)
           | inl _ => inr []
           end
  end.

(** The range of a hunk that covers a whole text of [length] lines. *)
Definition format_range (lines : nat) : string :=
  if Nat.eqb lines 1 then "1"
  else if Nat.eqb lines 0 then "0,0"
  else "1," +:+ NilZero.string_of_uint (Nat.to_uint lines).

(** [difflib.unified_diff] on two lists of lines that are equal or have no
    line in common: nothing for equal lists, and otherwise the two header
    lines and one hunk with every line of the first list as a deletion and
    every line of the second as an addition.  (Lists that differ and share
    lines get context lines and several hunks from the library; the
    examples do not use such lists.) *)
Definition whole_file_diff (a b : list string) (fromfile tofile : string) : list string :=
  if bool_decide (a = b) then []
  else ["--- " +:+ fromfile +:+ String "010" EmptyString;
        "+++ " +:+ tofile +:+ String "010" EmptyString;
        "@@ -" +:+ format_range (length a) +:+ " +" +:+ format_range (length b)
        +:+ " @@" +:+ String "010" EmptyString]
       ++ map (String.append "-") a ++ map (String.append "+") b.

Definition status_text (status_code : Z) : string :=
  if (status_code =? 400)%Z then "400"
  else if (status_code =? 403)%Z then "403"
  else if (status_code =? 404)%Z then "404"
  else "500".

(** [str(e)]: status and detail for an [HTTPException], the message for the
    exceptions that carry one.  For the other [OSError]s it is the text
    before the file name that the library's message goes on with; these
    exceptions do not carry the name. *)
Definition describe (e : exn) : string :=
  match e with
  | HTTPException status_code (Msg text) => status_text status_code +:+ ": " +:+ text
  | HTTPException status_code (AccessDeniedDetail _ _) =>
      status_text status_code +:+ ": Access Denied"
  | FileNotFoundError => "[Errno 2] No such file or directory"
  | PermissionError => "[Errno 13] Permission denied"
  | IsADirectoryError => "[Errno 21] Is a directory"
  | NotADirectoryError => "[Errno 20] Not a directory"
  | FileExistsError => "[Errno 17] File exists"
  | OSError errno =>
      if (errno =? ENOTEMPTY)%Z then "[Errno 39] Directory not empty"
      else if (errno =? EINVAL)%Z then "[Errno 22] Invalid argument"
      else "[Errno 16] Device or resource busy"
  | ShutilError msg => msg
  | TypeError => "'NoneType' object is not iterable"
  | ValueError msg => msg
  | NotImplementedError msg => msg
  end.

Definition take_entry (s : string) (es : entries_t) : exn + entries_t :=
  inr (remove_entry s es).

Definition put_entry (moved : node) (s : string) (es : entries_t) : exn + entries_t :=
  inr (set_entry s moved es).

(** [os.rename(src, dst)] on one filesystem: a file replaces a file, a
    directory replaces an empty directory, a directory does not go below
    itself, and the root does not move. *)
Definition os_rename (src dst : path) (n : node) : exn + node :=
  match fs_stat src n with
  | inl e => inl e
  | inr moved =>
      if bool_decide (src = []) then inl (OSError EBUSY)
      else if bool_decide (src = dst) then inr n
      else if is_dir_node moved && is_prefix src dst then inl (OSError EINVAL)
      else
        match fs_stat dst n, moved with
        | inr (Dir (_ :: _)), Dir _ => inl (OSError ENOTEMPTY)
        | inr (Dir _), File _ => inl IsADirectoryError
        | inr (File _), Dir _ => inl NotADirectoryError
        | _, _ =>
            match at_parent (put_entry moved) (fun _ => inl (OSError EBUSY)) dst n with
            | inl e => inl e
            | inr n1 => at_parent take_entry (fun _ => inl (OSError EBUSY)) src n1
            end
        end
  end.

(** [shutil.copytree(src, dst)] then [shutil.rmtree(src)], for the directory
    [moved] at [src]: the destination must not exist, its missing parents
    are made. *)
Definition copytree_rmtree (moved : node) (src dst : path) (n : node) : exn + node :=
  match fs_stat dst n with
  | inr _ => inl FileExistsError
  | inl _ =>
      match mkdir_p dst n with
      | inl e => inl e
      | inr n1 =>
          match at_parent (put_entry moved) (fun _ => inl (OSError EBUSY)) dst n1 with
          | inl e => inl e
          | inr n2 => at_parent take_entry (fun _ => inl (OSError EBUSY)) src n2
          end
      end
  end.

(** [shutil.move(src, dst)] (CPython 3.11): into [dst] under the source's
    own name when [dst] is a directory, which must not have that name yet;
    by [os.rename], and when that fails by copying and removing the source. *)
Definition posix_move (src dst : path) (n : node) : exn + node :=
  let finish (real_dst : path) : exn + node :=
    match os_rename src real_dst n with
    | inr n' => inr n'
    | inl _ =>
        match fs_stat src n with
        | inr (Dir es) =>
            if is_prefix src dst
            then inl (ShutilError ("Cannot move a directory '" +:+ path_str src
                                   +:+ "' into itself '" +:+ path_str dst +:+ "'."))
            else copytree_rmtree (Dir es) src real_dst n
        | inr (File c) =>
            match write_text real_dst c n with
            | inl e => inl e
            | inr n1 => unlink src n1
            end
        | inl e => inl e
        end
    end in
  match fs_stat dst n with
  | inr (Dir _) =>
      if bool_decide (src = dst) then os_rename src dst n
      else
        match src with
        | [] =>
            inl (ShutilError ("Destination path '" +:+ path_str dst +:+ "/' already exists"))
        | _ :: _ =>
            let real_dst := dst ++ [List.last src EmptyString] in
            if path_exists real_dst n
            then inl (ShutilError ("Destination path '" +:+ path_str real_dst
                                   +:+ "' already exists"))
            else finish real_dst
        end
  | _ => finish dst
  end.

Definition plain_stat (p : path) (n : node) : stat_result :=
  {| st_size := match fs_stat p n with
                | inr (File c) => Z.of_nat (String.length c)
                | _ => 0
                end;
     st_mtime := 0; st_ctime := 0; st_birthtime := None |}.

(** A POSIX host without symbolic links, whose only user is [root] with
    home directory [/root]; the server runs as that user with working
    directory [/srv] and serves the directories [allowed]. *)
Definition posix_runtime (allowed : list string) : Runtime :=
  {| ALLOWED_DIRECTORIES := allowed;
     resolve := posix_resolve ["root"] ["srv"] [("root", ["root"])];
     path_match := posix_match;
     path_glob := simple_glob;
     unified_diff := whole_file_diff;
     exn_str := describe;
     shutil_move := posix_move;
     os_stat := plain_stat |}.

(** ** Example states and requests *)

Definition example_tree : node :=
  Dir [("data",
        Dir [("foo", Dir [("ok.txt", File "fine")]);
             ("foobar", Dir [("secret.txt", File "secret")]);
             ("dir", Dir [("f.txt", File "hello")]);
             ("a.txt", File "hello");
             ("skip", Dir [("sub", Dir [("report.txt", File "x")])])]);
       ("etc", Dir [("passwd", File "root")])].

Definition example_world : world :=
  {| fs := example_tree; confirmation_file := None |}.

(** The server with [/data] as its only allowed directory, and with
    [/data/foo]. *)
Definition data_runtime : Runtime := posix_runtime ["/data"].
Definition foo_runtime : Runtime := posix_runtime ["/data/foo"].

(** The bytes [ab cd ef], which give the token [abcde]. *)
Definition example_bytes : Byte.byte * Byte.byte * Byte.byte :=
  (Byte.xab, Byte.xcd, Byte.xef).

Definition delete_request (path : string) (recursive : bool) (token : option string)
    : DeletePathRequest.t :=
  {| DeletePathRequest.path := path;
     DeletePathRequest.recursive := recursive;
     DeletePathRequest.confirmation_token := token |}.

(** The world after a first-phase request, at time 0, to delete the
    directory [/data/dir] without [recursive], and after one for the file
    [/data/a.txt]. *)
Definition dir_pending_world : world :=
  snd (@delete_path data_runtime 0 0 example_bytes
         (delete_request "/data/dir" false None) example_world).

Definition file_pending_world : world :=
  snd (@delete_path data_runtime 0 0 example_bytes
         (delete_request "/data/a.txt" false None) example_world).

Definition edit_request (path : string) (old new : string) (dry : bool)
    : EditFileRequest.t :=
  {| EditFileRequest.path := path;
     EditFileRequest.edits :=
       [{| EditOperation.oldText := old; EditOperation.newText := new |}];
     EditFileRequest.dryRun := dry |}.

(** A search below [/data] for names that contain [report], the directory
    [skip] excluded. *)
Definition search_request : SearchFilesRequest.t :=
  {| SearchFilesRequest.path := "/data";
     SearchFilesRequest.pattern := "report";
     SearchFilesRequest.excludePatterns := Some ["skip"] |}.

(** ** Notions for the further properties *)

(** A computation that leaves the whole state as it found it, whatever it
    returns. *)
Definition keeps_world {A : Type} (m : M A) : Prop :=
  forall w, snd (m w) = w.

(** The requests whose handlers only look at the filesystem. *)
Definition read_only (r : request) : bool :=
  match r with
  | ReadFile _ | ListDirectory _ | DirectoryTree _ | SearchFiles _
  | GetMetadata _ | SearchContent _ | ListAllowedDirectories => true
  | _ => false
  end.

(** The carriage return and the line feed, as one-character texts. *)
Definition CR : string := String "013" EmptyString.
Definition LF : string := String "010" EmptyString.

(** The ["name"] and ["type"] fields of an entry of [directory_tree]. *)
Definition tree_name (t : tree_entry) : string :=
  match t with TreeFile name | TreeDir name _ => name end.

Definition tree_type (t : tree_entry) : string :=
  match t with TreeFile _ => "file" | TreeDir _ _ => "directory" end.

(** The first entry of a tree level with a given name, and the entry a
    relative path leads to through the ["children"] fields. *)
Fixpoint tree_find (name : string) (l : list tree_entry) : option tree_entry :=
  match l with
  | [] => None
  | t :: l' => if String.eqb name (tree_name t) then Some t else tree_find name l'
  end.

Fixpoint tree_at (q : path) (l : list tree_entry) : option tree_entry :=
  match q with
  | [] => None
  | s :: q' =>
      match tree_find s l, q' with
      | Some t, [] => Some t
      | Some (TreeDir _ children), _ :: _ => tree_at q' children
      | _, _ => None
      end
  end.

(** The characters [binascii.hexlify] produces. *)
Definition is_hex_digit (c : ascii) : bool :=
  let n := nat_of_ascii c in
  ((48 <=? n) && (n <=? 57)) || ((97 <=? n) && (n <=? 102)).

Fixpoint all_chars (f : ascii -> bool) (s : string) : bool :=
  match s with
  | EmptyString => true
  | String c s' => f c && all_chars f s'
  end.

(** ** Lines *)

(** A text without a line boundary of [str.splitlines]. *)
Definition no_break (s : string) : bool :=
  all_chars (fun c => negb (Text.is_linebreak c)) s.

(** [line_end brk rest]: [brk] is one line boundary in front of [rest]: a
    carriage return with the line feed after it, or one boundary character,
    which is a carriage return only when no line feed follows. *)
Definition line_end (brk rest : string) : Prop :=
  brk = String "013" (String "010" EmptyString)
  \/ exists c : ascii,
       brk = String c EmptyString /\ Text.is_linebreak c = true
       /\ (c = "013"%char -> Text.startswith rest (String "010" EmptyString) = false).

(** [lines_keepends s l]: [l] is [s] cut after each of its line boundaries,
    every line keeping its boundary; a last line without one is there when
    it is not empty. *)
Inductive lines_keepends : string -> list string -> Prop :=
| lines_keepends_nil : lines_keepends EmptyString []
| lines_keepends_last (body : string) :
    body <> EmptyString -> no_break body = true -> lines_keepends body [body]
| lines_keepends_cons (body brk rest : string) (l : list string) :
    no_break body = true -> line_end brk rest -> lines_keepends rest l ->
    lines_keepends (body +:+ brk +:+ rest) ((body +:+ brk) :: l).

(** ** The company directory ([servers/get-user-info/main.py]) *)

Module Directory.

Record Company : Type :=
  { company_name : string; country : string; city : string; address : string;
    description : string; website : option string }.

(** A row of [companies_db]: the dictionary with the key ["id"] and the
    fields of the company. *)
Definition row : Type := (string * Company)%type.

(** [insert_company], [company_id] being the identifier [uuid.uuid4()]
    draws: the identifier it answers with, and the database after it. *)
Definition insert_company (company_id : string) (company : Company) (companies_db : list row)
    : string * list row :=
  (company_id, companies_db ++ [(company_id, company)]).

(** [insert_bulk_companies]: the loop over [companies], [uuid4 i] being the
    identifier of the draw number [i] and [drawn] the number of draws made
    so far; it answers with the list [inserted]. *)
Fixpoint insert_bulk_loop (uuid4 : nat -> string) (drawn : nat) (companies : list Company)
    (inserted : list string) (companies_db : list row) : list string * list row :=
  match companies with
  | [] => (inserted, companies_db)
  | company :: rest =>
      let company_id := uuid4 drawn in
      insert_bulk_loop uuid4 (S drawn) rest (inserted ++ [company_id])
        (companies_db ++ [(company_id, company)])
  end.

Definition insert_bulk_companies (uuid4 : nat -> string) (companies : list Company)
    (companies_db : list row) : list string * list row :=
  insert_bulk_loop uuid4 0 companies [] companies_db.

(** [search_companies]: the rows whose lower-cased name contains the
    lower-cased search term, in the order of the database. *)
Definition search_companies (search_term : string) (companies_db : list row) : list row :=
  List.filter
    (fun c => Text.contains (Text.lower search_term) (Text.lower (company_name (snd c))))
    companies_db.

End Directory.

(** ** Example states for the further properties *)

(** A world whose only file has two lines, the first ending in a carriage
    return and a line feed. *)
Definition crlf_world : world :=
  {| fs := Dir [("data", Dir [("w.txt", File ("a" +:+ CR +:+ LF +:+ "b"))])];
     confirmation_file := None |}.

(** The world in which the token for [/data/a.txt] is pending and the file
    has been removed by other means. *)
Definition vanished_world : world :=
  {| fs := Dir [("data", Dir [])];
     confirmation_file := confirmation_file file_pending_world |}.

(** * Properties *)

(** ** Text *)

Lemma append_nil_l (s : string) : EmptyString +:+ s = s.
Proof. reflexivity. Qed.

Lemma append_cons (x : ascii) (a b : string) : String x a +:+ b = String x (a +:+ b).
Proof. reflexivity. Qed.

Ltac norm_append := rewrite ?append_cons, ?append_nil_l in *.

Lemma append_nil_r (s : string) : s +:+ EmptyString = s.
Proof. induction s as [|c s IH]; norm_append; [reflexivity | now rewrite IH]. Qed.

Lemma append_assoc (a b c : string) : (a +:+ b) +:+ c = a +:+ (b +:+ c).
Proof. induction a as [|x a IH]; norm_append; [reflexivity | now rewrite IH]. Qed.

Lemma length_append (a b : string) :
  String.length (a +:+ b) = String.length a + String.length b.
Proof. induction a as [|x a IH]; norm_append; simpl; [reflexivity | now rewrite IH]. Qed.

Lemma append_inv_length (a b c d : string) :
  a +:+ b = c +:+ d -> String.length a = String.length c -> a = c /\ b = d.
Proof.
  revert c. induction a as [|x a IH]; intros [|y c] Heq Hlen; norm_append;
    simpl in Hlen; try discriminate.
  - split; [reflexivity | assumption].
  - injection Heq as -> Heq. injection Hlen as Hlen.
    destruct (IH c Heq Hlen) as [-> ->]. split; reflexivity.
Qed.

Lemma startswith_append (p t : string) : Text.startswith (p +:+ t) p = true.
Proof.
  induction p as [|x p IH]; norm_append; simpl; [reflexivity |].
  rewrite Ascii.eqb_refl. exact IH.
Qed.

Lemma startswith_split (s p : string) :
  Text.startswith s p = true -> s = p +:+ Text.drop (String.length p) s.
Proof.
  revert s. induction p as [|x p IH]; intros s Hs; simpl in *; norm_append.
  - destruct s; reflexivity.
  - destruct s as [|y s]; [discriminate |].
    apply andb_true_iff in Hs as [Hxy Hs].
    apply Ascii.eqb_eq in Hxy as ->. f_equal. apply IH, Hs.
Qed.

Lemma find_split (s sub : string) (i : nat) :
  Text.find s sub = Some i ->
  s = Text.take i s +:+ sub +:+ Text.drop (i + String.length sub) s
  /\ String.length (Text.take i s) = i.
Proof.
  revert i. induction s as [|c s IH]; intros i Hfind; simpl in Hfind.
  - destruct (Text.startswith "" sub) eqn:Hst; [| discriminate].
    injection Hfind as <-. split; [| reflexivity].
    simpl. norm_append. apply (startswith_split "" sub Hst).
  - destruct (Text.startswith (String c s) sub) eqn:Hst.
    + injection Hfind as <-. split; [| reflexivity].
      simpl Text.take. norm_append. apply (startswith_split _ _ Hst).
    + destruct (Text.find s sub) as [j|] eqn:Hj; simpl in Hfind; [| discriminate].
      injection Hfind as <-. destruct (IH j eq_refl) as [Heq Hlen].
      simpl. norm_append. split; [f_equal; exact Heq | f_equal; exact Hlen].
Qed.

Lemma find_least (pre sub post : string) :
  exists i, Text.find (pre +:+ sub +:+ post) sub = Some i /\ i <= String.length pre.
Proof.
  induction pre as [|c pre IH]; norm_append.
  - exists 0. split; [| simpl; lia].
    assert (Hst := startswith_append sub post).
    destruct (sub +:+ post); simpl; rewrite Hst; reflexivity.
  - destruct IH as (i & Hi & Hle). simpl Text.find.
    destruct (Text.startswith (String c (pre +:+ sub +:+ post)) sub).
    + exists 0. split; [reflexivity | simpl; lia].
    + rewrite Hi. exists (S i). split; [reflexivity | simpl; lia].
Qed.

(** [sub in s] holds exactly when [s] splits around an occurrence of [sub]. *)
Lemma contains_iff (sub s : string) :
  Text.contains sub s = true <-> exists pre post, s = pre +:+ sub +:+ post.
Proof.
  unfold Text.contains. split.
  - destruct (Text.find s sub) as [i|] eqn:Hi; [| discriminate]. intros _.
    destruct (find_split _ _ _ Hi) as [Heq _]. eauto.
  - intros (pre & post & ->). destruct (find_least pre sub post) as (i & -> & _).
    reflexivity.
Qed.

(** [s.replace(old, new, 1)] replaces the first occurrence and nothing else. *)
Lemma replace_first_spec (s old new : string) :
  Text.contains old s = true ->
  replaces_first_occurrence old new s (Text.replace_first s old new).
Proof.
  unfold Text.contains, Text.replace_first.
  destruct (Text.find s old) as [i|] eqn:Hi; [| discriminate]. intros _.
  destruct (find_split _ _ _ Hi) as [Heq Hlen].
  exists (Text.take i s), (Text.drop (i + String.length old) s).
  split; [exact Heq | split; [reflexivity |]].
  intros pre' post' Hs. rewrite Hlen.
  destruct (find_least pre' old post') as (j & Hj & Hle).
  rewrite <- Hs, Hi in Hj. injection Hj as <-. exact Hle.
Qed.

(** The first occurrence is unique, so the relation fixes the result. *)
Lemma replaces_first_occurrence_fun (old new t t' : string) :
  replaces_first_occurrence old new t t' ->
  Text.contains old t = true /\ Text.replace_first t old new = t'.
Proof.
  intros (pre & post & Ht & Ht' & Hmin).
  assert (Hc : Text.contains old t = true) by (apply contains_iff; eauto).
  split; [exact Hc |].
  destruct (replace_first_spec t old new Hc) as (pre0 & post0 & Ht0 & Hr & Hmin0).
  assert (Hlen : String.length pre = String.length pre0).
  { apply Nat.le_antisymm; [apply (Hmin pre0 post0 Ht0) | apply (Hmin0 pre post Ht)]. }
  assert (Heq : pre +:+ old +:+ post = pre0 +:+ old +:+ post0) by congruence.
  destruct (append_inv_length _ _ _ _ Heq Hlen) as [<- Hrest].
  apply append_inv_length in Hrest as [_ <-]; [| reflexivity].
  rewrite Hr, Ht'. reflexivity.
Qed.

(** ** Lines *)

Lemma lines_keepends_join (s : string) (l : list string) :
  lines_keepends s l -> Text.join l = s.
Proof.
  induction 1 as [|body Hne Hbody|body brk rest l Hbody Hend Hrest IH]; unfold Text.join in *.
  - reflexivity.
  - simpl. apply append_nil_r.
  - simpl. rewrite IH. apply append_assoc.
Qed.

Lemma no_break_snoc (acc : string) (c : ascii) :
  no_break acc = true -> Text.is_linebreak c = false ->
  no_break (acc +:+ String c EmptyString) = true.
Proof.
  unfold no_break. intros Hacc Hc.
  induction acc as [|a acc IH]; norm_append; simpl in *.
  - now rewrite Hc.
  - apply andb_true_iff in Hacc as [Ha Hacc]. rewrite Ha. now apply IH.
Qed.

(** The loop of [splitlines], by induction on the length of what is left to
    read: the carriage return looks two characters ahead. *)
Lemma lines_keepends_acc (n : nat) (s acc : string) :
  String.length s <= n -> no_break acc = true ->
  lines_keepends (acc +:+ s) (Text.splitlines_from acc s).
Proof.
  revert s acc. induction n as [|n IH]; intros s acc Hlen Hacc.
  - destruct s as [|c s]; [| simpl in Hlen; lia].
    simpl. rewrite append_nil_r. destruct acc as [|a acc]; now constructor.
  - destruct s as [|c s].
    { apply (IH EmptyString acc); [simpl; lia | exact Hacc]. }
    simpl in Hlen. simpl Text.splitlines_from.
    destruct (Ascii.eqb c "013") eqn:Hcr.
    + apply Ascii.eqb_eq in Hcr as ->.
      destruct s as [|d s].
      * rewrite <- (append_nil_r (acc +:+ String "013" "")) at 1. rewrite append_assoc.
        apply lines_keepends_cons; [exact Hacc | | constructor].
        right. exists "013"%char. split; [reflexivity |]. split; reflexivity.
      * destruct (Ascii.eqb d "010") eqn:Hlf.
        -- apply Ascii.eqb_eq in Hlf as ->.
           change (String "013" (String "010" s)) with (String "013" (String "010" "") +:+ s).
           apply lines_keepends_cons; [exact Hacc | now left |].
           apply (IH s EmptyString); [simpl in Hlen; lia | reflexivity].
        -- change (String "013" (String d s)) with (String "013" "" +:+ String d s).
           apply lines_keepends_cons; [exact Hacc | |].
           ++ right. exists "013"%char. split; [reflexivity |]. split; [reflexivity |].
              intros _.
              change (Text.startswith (String d s) (String "010" ""))
                with (Ascii.eqb "010" d && true).
              now rewrite Ascii.eqb_sym, Hlf.
           ++ apply (IH (String d s) EmptyString); [simpl in *; lia | reflexivity].
    + destruct (Text.is_linebreak c) eqn:Hbreak.
      * change (String c s) with (String c "" +:+ s).
        apply lines_keepends_cons; [exact Hacc | |].
        -- right. exists c. split; [reflexivity |]. split; [exact Hbreak |].
           intros ->. discriminate.
        -- apply (IH s EmptyString); [lia | reflexivity].
      * replace (acc +:+ String c s) with ((acc +:+ String c "") +:+ s)
          by (now rewrite append_assoc).
        apply IH; [lia | now apply no_break_snoc].
Qed.

(** [str.splitlines(keepends=True)] cuts a text after each of its line
    boundaries, and nowhere else. *)
Lemma splitlines_keepends (s : string) : lines_keepends s (Text.splitlines s).
Proof. exact (lines_keepends_acc (String.length s) s EmptyString (le_n _) eq_refl). Qed.

(** ** The edit loop *)

Lemma edits_applied_run (edits : list EditOperation.t) (original modified : string) :
  edits_applied edits original modified -> apply_edits edits original = inr modified.
Proof.
  induction 1 as [t | e es t t1 t2 Hfirst Hrest IH]; simpl; [reflexivity |].
  apply replaces_first_occurrence_fun in Hfirst as [-> <-]. exact IH.
Qed.

(** C7. The edits are applied one after the other, each to the text the
    one before it produced, and each replaces exactly the first occurrence
    of its [oldText], scanning from the start of that text: the loop
    returns a text exactly when the edits chain that way, and then it
    returns the text the chain ends in. *)
Theorem C7_edits_sequential_first_occurrence
    (edits : list EditOperation.t) (original modified : string) :
  apply_edits edits original = inr modified <-> edits_applied edits original modified.
Proof.
  revert original. induction edits as [|e es IH]; intros original; simpl.
  - split.
    + intros [= <-]. constructor.
    + inversion 1. reflexivity.
  - split.
    + destruct (Text.contains (EditOperation.oldText e) original) eqn:Hc; simpl;
        [| discriminate].
      intros Hrest. econstructor.
      * apply replace_first_spec, Hc.
      * apply IH, Hrest.
    + apply (edits_applied_run (e :: es)).
Qed.

(** ** The filesystem tree *)

Lemma entry_set_entry_eq (s : string) (n : node) (es : entries_t) :
  entry s (set_entry s n es) = Some n.
Proof.
  induction es as [|[t c] es IH]; simpl.
  - now rewrite String.eqb_refl.
  - destruct (String.eqb s t) eqn:Hst; simpl.
    + now rewrite String.eqb_refl.
    + now rewrite Hst.
Qed.

Lemma entry_set_entry_ne (s s' : string) (n : node) (es : entries_t) :
  s' <> s -> entry s' (set_entry s n es) = entry s' es.
Proof.
  intros Hne. induction es as [|[t c] es IH]; simpl.
  - apply String.eqb_neq in Hne. now rewrite Hne.
  - destruct (String.eqb s t) eqn:Hst; simpl.
    + apply String.eqb_eq in Hst as <-.
      apply String.eqb_neq in Hne. now rewrite Hne.
    + now rewrite IH.
Qed.

Lemma entry_remove_entry_eq (s : string) (es : entries_t) :
  entry s (remove_entry s es) = None.
Proof.
  induction es as [|[t c] es IH]; simpl; [reflexivity |].
  destruct (String.eqb s t) eqn:Hst; simpl; [exact IH | now rewrite Hst].
Qed.

Lemma entry_remove_entry_ne (s s' : string) (es : entries_t) :
  s' <> s -> entry s' (remove_entry s es) = entry s' es.
Proof.
  intros Hne. induction es as [|[t c] es IH]; simpl; [reflexivity |].
  destruct (String.eqb s t) eqn:Hst; simpl.
  - apply String.eqb_eq in Hst as <-.
    apply String.eqb_neq in Hne. now rewrite Hne.
  - now rewrite IH.
Qed.

Lemma peek_cons (t : string) (q : path) (es : entries_t) :
  peek (t :: q) (Dir es) =
  match entry t es with Some c => peek q c | None => inl FileNotFoundError end.
Proof. unfold peek. simpl. destruct (entry t es); reflexivity. Qed.

Section AtParent.
Variable op : string -> entries_t -> exn + entries_t.
Variable on_root : node -> exn + node.

Lemma at_parent_frame (p : path) (n n' : node) :
  local_op op -> p <> [] -> at_parent op on_root p n = inr n' ->
  forall q, is_prefix p q = false -> peek q n' = peek q n.
Proof.
  intros Hlocal. revert n n'.
  induction p as [|s p IH]; intros n n' Hp Hrun q Hq; [congruence |].
  simpl in Hrun. destruct n as [c|es]; [discriminate |].
  destruct p as [|s2 p].
  - destruct (op s es) as [e|es'] eqn:Hop; [discriminate |]. injection Hrun as <-.
    destruct q as [|t q]; [reflexivity |].
    simpl in Hq. rewrite andb_true_r in Hq. apply String.eqb_neq in Hq.
    rewrite !peek_cons. rewrite (Hlocal _ _ _ Hop t); [reflexivity | congruence].
  - destruct (entry s es) as [c|] eqn:Hentry; [| discriminate].
    destruct (at_parent op on_root (s2 :: p) c) as [e|c'] eqn:Hsub; [discriminate |].
    injection Hrun as <-.
    destruct q as [|t q]; [reflexivity |].
    rewrite !peek_cons. destruct (String.eqb s t) eqn:Hst.
    + apply String.eqb_eq in Hst as <-. rewrite entry_set_entry_eq, Hentry.
      apply (IH c c'); [discriminate | exact Hsub |].
      simpl in Hq. rewrite String.eqb_refl in Hq. exact Hq.
    + apply String.eqb_neq in Hst.
      rewrite entry_set_entry_ne by congruence. reflexivity.
Qed.

Lemma at_parent_removes (p : path) (n n' : node) :
  removing_op op -> p <> [] -> at_parent op on_root p n = inr n' ->
  forall q, is_prefix p q = true -> path_exists q n' = false.
Proof.
  intros Hrem. revert n n'.
  induction p as [|s p IH]; intros n n' Hp Hrun q Hq; [congruence |].
  simpl in Hrun. destruct n as [c|es]; [discriminate |].
  destruct q as [|t q]; [discriminate |]. simpl in Hq.
  apply andb_true_iff in Hq as [Hst Hq]. apply String.eqb_eq in Hst as <-.
  destruct p as [|s2 p].
  - destruct (op s es) as [e|es'] eqn:Hop; [discriminate |]. injection Hrun as <-.
    unfold path_exists. simpl. now rewrite (Hrem _ _ _ Hop).
  - destruct (entry s es) as [c|] eqn:Hentry; [| discriminate].
    destruct (at_parent op on_root (s2 :: p) c) as [e|c'] eqn:Hsub; [discriminate |].
    injection Hrun as <-.
    assert (Hsubx := IH c c' ltac:(discriminate) Hsub q Hq).
    unfold path_exists in *. simpl. rewrite entry_set_entry_eq. exact Hsubx.
Qed.

(** The operation runs on the parent's entries, where the target is found
    under its name. *)
Lemma at_parent_runs (p : path) (n target : node) :
  p <> [] -> fs_stat p n = inr target ->
  (forall s es, entry s es = Some target -> exists es', op s es = inr es') ->
  exists n', at_parent op on_root p n = inr n'.
Proof.
  intros Hp Hstat Hop. revert n Hstat.
  induction p as [|s p IH]; intros n Hstat; [congruence |].
  simpl in Hstat. destruct n as [c|es]; [discriminate |].
  destruct (entry s es) as [c|] eqn:Hentry; [| discriminate].
  simpl. destruct p as [|s2 p].
  - simpl in Hstat. injection Hstat as ->.
    destruct (Hop s es Hentry) as [es' ->]. eauto.
  - rewrite Hentry. destruct (IH ltac:(discriminate) c Hstat) as [c' ->]. eauto.
Qed.

Lemma at_parent_raises (p : path) (n target : node) (e : exn) :
  p <> [] -> fs_stat p n = inr target ->
  (forall s es, entry s es = Some target -> op s es = inl e) ->
  at_parent op on_root p n = inl e.
Proof.
  intros Hp Hstat Hop. revert n Hstat.
  induction p as [|s p IH]; intros n Hstat; [congruence |].
  simpl in Hstat. destruct n as [c|es]; [discriminate |].
  destruct (entry s es) as [c|] eqn:Hentry; [| discriminate].
  simpl. destruct p as [|s2 p].
  - simpl in Hstat. injection Hstat as ->. now rewrite (Hop s es Hentry).
  - rewrite Hentry. now rewrite (IH ltac:(discriminate) c Hstat).
Qed.

Lemma at_parent_sets (p : path) (n n' v : node) :
  (forall s es es', op s es = inr es' -> entry s es' = Some v) ->
  p <> [] -> at_parent op on_root p n = inr n' -> fs_stat p n' = inr v.
Proof.
  intros Hset. revert n n'.
  induction p as [|s p IH]; intros n n' Hp Hrun; [congruence |].
  simpl in Hrun. destruct n as [c|es]; [discriminate |].
  destruct p as [|s2 p].
  - destruct (op s es) as [e|es'] eqn:Hop; [discriminate |]. injection Hrun as <-.
    simpl. now rewrite (Hset _ _ _ Hop).
  - destruct (entry s es) as [c|] eqn:Hentry; [| discriminate].
    destruct (at_parent op on_root (s2 :: p) c) as [e|c'] eqn:Hsub; [discriminate |].
    injection Hrun as <-.
    change (fs_stat (s :: s2 :: p) (Dir (set_entry s c' es)))
      with (match entry s (set_entry s c' es) with
            | Some c0 => fs_stat (s2 :: p) c0
            | None => inl FileNotFoundError
            end).
    rewrite entry_set_entry_eq. apply (IH c c'); [discriminate | exact Hsub].
Qed.

End AtParent.

Lemma unlink_op_local : local_op unlink_op.
Proof.
  intros s es es' Hop s' Hne. unfold unlink_op in Hop.
  destruct (entry s es) as [[c|l]|]; try discriminate.
  injection Hop as <-. now apply entry_remove_entry_ne.
Qed.

Lemma unlink_op_removing : removing_op unlink_op.
Proof.
  intros s es es' Hop. unfold unlink_op in Hop.
  destruct (entry s es) as [[c|l]|]; try discriminate.
  injection Hop as <-. apply entry_remove_entry_eq.
Qed.

Lemma rmdir_op_local : local_op rmdir_op.
Proof.
  intros s es es' Hop s' Hne. unfold rmdir_op in Hop.
  destruct (entry s es) as [[c|[|x l]]|]; try discriminate.
  injection Hop as <-. now apply entry_remove_entry_ne.
Qed.

Lemma rmdir_op_removing : removing_op rmdir_op.
Proof.
  intros s es es' Hop. unfold rmdir_op in Hop.
  destruct (entry s es) as [[c|[|x l]]|]; try discriminate.
  injection Hop as <-. apply entry_remove_entry_eq.
Qed.

Lemma rmtree_op_local : local_op rmtree_op.
Proof.
  intros s es es' Hop s' Hne. unfold rmtree_op in Hop.
  destruct (entry s es) as [[c|l]|]; try discriminate.
  injection Hop as <-. now apply entry_remove_entry_ne.
Qed.

Lemma rmtree_op_removing : removing_op rmtree_op.
Proof.
  intros s es es' Hop. unfold rmtree_op in Hop.
  destruct (entry s es) as [[c|l]|]; try discriminate.
  injection Hop as <-. apply entry_remove_entry_eq.
Qed.

Lemma write_op_local (content : string) : local_op (write_op content).
Proof.
  intros s es es' Hop s' Hne. unfold write_op in Hop.
  destruct (entry s es) as [[c|l]|]; try discriminate;
    injection Hop as <-; now apply entry_set_entry_ne.
Qed.

Lemma unlink_file (p : path) (n : node) (c : string) :
  p <> [] -> fs_stat p n = inr (File c) ->
  exists n', unlink p n = inr n' /\ removed p n n'.
Proof.
  intros Hp Hstat. unfold unlink.
  destruct (at_parent_runs unlink_op (fun _ => inl IsADirectoryError) p n _ Hp Hstat)
    as [n' Hrun].
  { intros s es Hentry. unfold unlink_op. rewrite Hentry. eauto. }
  exists n'. split; [exact Hrun | split].
  - eapply at_parent_removes; eauto using unlink_op_removing.
  - eapply at_parent_frame; eauto using unlink_op_local.
Qed.

Lemma rmdir_empty (p : path) (n : node) :
  p <> [] -> fs_stat p n = inr (Dir []) ->
  exists n', rmdir p n = inr n' /\ removed p n n'.
Proof.
  intros Hp Hstat. unfold rmdir.
  destruct (at_parent_runs rmdir_op (fun _ => inl (OSError EBUSY)) p n _ Hp Hstat)
    as [n' Hrun].
  { intros s es Hentry. unfold rmdir_op. rewrite Hentry. eauto. }
  exists n'. split; [exact Hrun | split].
  - eapply at_parent_removes; eauto using rmdir_op_removing.
  - eapply at_parent_frame; eauto using rmdir_op_local.
Qed.

Lemma rmdir_not_empty (p : path) (n : node) (x : string * node) (es : entries_t) :
  p <> [] -> fs_stat p n = inr (Dir (x :: es)) -> rmdir p n = inl (OSError ENOTEMPTY).
Proof.
  intros Hp Hstat. unfold rmdir. eapply at_parent_raises; eauto.
  intros s l Hentry. unfold rmdir_op. now rewrite Hentry.
Qed.

Lemma rmtree_dir (p : path) (n : node) (es : entries_t) :
  p <> [] -> fs_stat p n = inr (Dir es) ->
  exists n', rmtree p n = (inr tt, n') /\ removed p n n'.
Proof.
  intros Hp Hstat.
  destruct (at_parent_runs rmtree_op (fun _ => inl (OSError EBUSY)) p n _ Hp Hstat)
    as [n' Hrun].
  { intros s l Hentry. unfold rmtree_op. rewrite Hentry. eauto. }
  exists n'. split; [| split].
  - unfold rmtree. destruct p; [congruence |]. now rewrite Hrun.
  - eapply at_parent_removes; eauto using rmtree_op_removing.
  - eapply at_parent_frame; eauto using rmtree_op_local.
Qed.

Lemma write_text_file (p : path) (n : node) (c content : string) :
  fs_stat p n = inr (File c) ->
  exists n', write_text p content n = inr n'
             /\ fs_stat p n' = inr (File content)
             /\ forall q, is_prefix p q = false -> peek q n' = peek q n.
Proof.
  intros Hstat. destruct p as [|s p].
  - simpl in Hstat. injection Hstat as ->. exists (File content).
    split; [reflexivity | split; [reflexivity | discriminate]].
  - unfold write_text. set (root := write_root content).
    destruct (at_parent_runs (write_op content) root (s :: p) n _ ltac:(discriminate) Hstat)
      as [n' Hrun].
    { intros t es Hentry. unfold write_op. rewrite Hentry. eauto. }
    exists n'. split; [exact Hrun | split].
    + apply (at_parent_sets (write_op content) root (s :: p) n n' (File content));
        [| discriminate | exact Hrun].
      intros t es es' Hop. unfold write_op in Hop.
      destruct (entry t es) as [[c0|l]|]; try discriminate;
        injection Hop as <-; apply entry_set_entry_eq.
    + eapply at_parent_frame; eauto using write_op_local.
Qed.

(** ** The walk of a tree *)

Lemma node_ind_entries (P : node -> Prop) :
  (forall c, P (File c)) ->
  (forall es, (forall s c, In (s, c) es -> P c) -> P (Dir es)) ->
  forall n, P n.
Proof.
  intros Hfile Hdir. fix IH 1. intros [c|es]; [apply Hfile |].
  apply Hdir. induction es as [|[s c] es IHes]; intros s' c' Hin.
  - destruct Hin.
  - destruct Hin as [Heq | Hin].
    + injection Heq as _ <-. apply IH.
    + exact (IHes s' c' Hin).
Qed.

Lemma os_walk_Dir (top : path) (es : entries_t) :
  os_walk top (Dir es) =
  (top, dirnames es, filenames es)
  :: flat_map (fun e => os_walk (top ++ [fst e]) (snd e)) es.
Proof.
  simpl. f_equal. induction es as [|[s c] es IH]; [reflexivity |].
  simpl. now rewrite IH.
Qed.

(** [os.walk] yields one triple for the top directory and for every
    directory at any depth below it, and nothing else. *)
Lemma in_os_walk (n : node) (top : path) (t : path * list string * list string) :
  In t (os_walk top n) <->
  exists root es, reaches top n root es /\ t = (root, dirnames es, filenames es).
Proof.
  split.
  - revert top. induction n as [c|es IH] using node_ind_entries; intros top Hin.
    + destruct Hin.
    + rewrite os_walk_Dir in Hin. destruct Hin as [<- | Hin].
      * exists top, es. split; [constructor | reflexivity].
      * apply in_flat_map in Hin as ([s c] & Hentry & Hin). simpl in Hin.
        destruct (IH s c Hentry _ Hin) as (root & es' & Hreach & ->).
        exists root, es'. split; [| reflexivity].
        eapply reaches_below; eauto.
  - intros (root & es & Hreach & ->).
    induction Hreach as [top es | top es s c root es' Hentry Hreach IH];
      rewrite os_walk_Dir.
    + left. reflexivity.
    + right. apply in_flat_map. exists (s, c). split; [exact Hentry | exact IH].
Qed.

Lemma in_files_dirs (es : entries_t) (item : string) :
  In item (filenames es ++ dirnames es) <-> In item (map fst es).
Proof.
  unfold filenames, dirnames. rewrite in_app_iff, !in_map_iff. split.
  - intros [(e & <- & Hin) | (e & <- & Hin)];
      apply filter_In in Hin as [Hin _]; eauto.
  - intros (e & <- & Hin). destruct (is_dir_node (snd e)) eqn:Hkind.
    + right. exists e. split; [reflexivity |]. apply filter_In. auto.
    + left. exists e. split; [reflexivity |]. apply filter_In. now rewrite Hkind.
Qed.

(** ** The handlers *)

Section Server.
Context `{Runtime}.

Lemma normalize_path_rejects (P : string) (w : world) :
  existsb (allows (resolve P)) ALLOWED_DIRECTORIES = false ->
  normalize_path P w = (inl (access_denied (resolve P)), w).
Proof. intros Hno. unfold normalize_path. now rewrite Hno. Qed.

Lemma normalize_path_accepts (P : string) (w : world) :
  existsb (allows (resolve P)) ALLOWED_DIRECTORIES = true ->
  normalize_path P w = (inr (resolve P), w).
Proof. intros Hyes. unfold normalize_path. now rewrite Hyes. Qed.

Lemma normalize_path_inv (P : string) (w w' : world) (p : path) :
  normalize_path P w = (inr p, w') ->
  existsb (allows (resolve P)) ALLOWED_DIRECTORIES = true /\ p = resolve P /\ w' = w.
Proof.
  unfold normalize_path.
  destruct (existsb (allows (resolve P)) ALLOWED_DIRECTORIES); [| discriminate].
  intros [= <- <-]. auto.
Qed.

(** The guard is a function of the path alone. *)
Lemma normalize_path_any_world (P : string) (w w' w2 : world) (p : path) :
  normalize_path P w = (inr p, w') -> normalize_path P w2 = (inr p, w2).
Proof.
  intros Hn. apply normalize_path_inv in Hn as (Hyes & -> & _).
  now apply normalize_path_accepts.
Qed.

Lemma normalize_path_world (P : string) (w : world) : snd (normalize_path P w) = w.
Proof.
  unfold normalize_path.
  destruct (existsb (allows (resolve P)) ALLOWED_DIRECTORIES); reflexivity.
Qed.

Lemma load_confirmations_eq (now : Z) (w : world) :
  load_confirmations now w = (inr (live now w), w).
Proof.
  unfold load_confirmations, live, stored.
  destruct (confirmation_file w); simpl; [reflexivity |].
  now rewrite map_filter_empty.
Qed.

(** C1, as amended.  A requested path whose resolved form does not start
    with any allowed directory, both compared as lower-cased strings, is
    rejected by [normalize_path] with the 403 "Access Denied" error that
    names the resolved path and the allowed directories; and a request that
    has such a path among its arguments is answered with that error for one
    of its rejected arguments and leaves the filesystem and the
    confirmation file as they were, whichever handler it is routed to. *)
Theorem C1_path_guard_rejects
    (t_load t_now : Z) (rnd : Byte.byte * Byte.byte * Byte.byte)
    (r : request) (w : world) (P : string) :
  In P (request_paths r) ->
  existsb (allows (resolve P)) ALLOWED_DIRECTORIES = false ->
  normalize_path P w = (inl (access_denied (resolve P)), w)
  /\ exists P',
       In P' (request_paths r)
       /\ existsb (allows (resolve P')) ALLOWED_DIRECTORIES = false
       /\ handle t_load t_now rnd r w = (inl (access_denied (resolve P')), w).
Proof.
  intros Hin Hno. split; [now apply normalize_path_rejects |].
  destruct r as [d|d|d|d|d|d|d|d|d|d|d|]; simpl in Hin;
    try (destruct Hin as [<- | []]; eexists; split; [left; reflexivity |];
         split; [exact Hno |]; simpl;
         unfold read_file, write_file, edit_file, create_directory, list_directory,
           directory_tree, search_files, get_metadata, search_content, delete_path;
         try (unfold bind at 1; rewrite load_confirmations_eq);
         unfold bind at 1; now rewrite (normalize_path_rejects _ _ Hno)).
  - simpl. unfold move_path.
    destruct (existsb (allows (resolve (MovePathRequest.source_path d)))
                ALLOWED_DIRECTORIES) eqn:Hsrc.
    + destruct Hin as [<- | [<- | []]]; [congruence |].
      eexists. split; [right; left; reflexivity |]. split; [exact Hno |].
      unfold bind at 1. rewrite (normalize_path_accepts _ _ Hsrc).
      unfold bind at 1. now rewrite (normalize_path_rejects _ _ Hno).
    + eexists. split; [left; reflexivity |]. split; [exact Hsrc |].
      unfold bind at 1. now rewrite (normalize_path_rejects _ _ Hsrc).
  - destruct Hin.
Qed.

(** *** [edit_file] *)

Lemma apply_edits_app (es1 es2 : list EditOperation.t) (t : string) :
  apply_edits (es1 ++ es2) t =
  match apply_edits es1 t with
  | inr t1 => apply_edits es2 t1
  | inl e => inl e
  end.
Proof.
  revert t. induction es1 as [|e es1 IH]; intros t; simpl; [reflexivity |].
  destruct (Text.contains (EditOperation.oldText e) t); simpl; [apply IH | reflexivity].
Qed.

(** An edit without a match stops the loop with the 400 "Edit failed"
    exception that quotes the first 50 characters of its [oldText]. *)
Lemma apply_edits_not_found (es1 es2 : list EditOperation.t) (e : EditOperation.t)
    (original t : string) :
  edits_applied es1 original t ->
  Text.contains (EditOperation.oldText e) t = false ->
  apply_edits (es1 ++ e :: es2) original = inl (edit_not_found (EditOperation.oldText e)).
Proof.
  intros Hchain Hno. rewrite apply_edits_app, (edits_applied_run _ _ _ Hchain).
  simpl. now rewrite Hno.
Qed.

Lemma edit_file_reads (data : EditFileRequest.t) (w : world) (p : path) (original : string) :
  normalize_path (EditFileRequest.path data) w = (inr p, w) ->
  read_text p (fs w) = inr original ->
  edit_file data w =
  try_except (edit_body data p original)
    (fun e =>
       match e with
       | PermissionError =>
           raise (HTTPException 403
                    (Msg ("Permission denied to write edited file: "
                          +:+ EditFileRequest.path data)))
       | _ =>
           raise (HTTPException 500
                    (Msg ("Failed to write edited file " +:+ EditFileRequest.path data
                          +:+ ": " +:+ exn_str e)))
       end) w.
Proof.
  intros Hguard Hread. unfold edit_file. unfold bind at 1. rewrite Hguard.
  unfold bind at 1. unfold try_except at 1. unfold call. now rewrite Hread.
Qed.

(** C6, as the code has it.  When some edit's [oldText] is not a substring
    of the text the edits before it produced, the loop raises the 400 "Edit
    failed" exception inside the [try] block whose [except Exception]
    clause catches it: the request is answered with status 500, "Failed to
    write edited file", and the file is left as it was. *)
Theorem C6_edit_not_found_surfaces_as_500
    (data : EditFileRequest.t) (w : world) (p : path) (original t : string)
    (es1 es2 : list EditOperation.t) (e : EditOperation.t) :
  normalize_path (EditFileRequest.path data) w = (inr p, w) ->
  read_text p (fs w) = inr original ->
  EditFileRequest.edits data = es1 ++ e :: es2 ->
  edits_applied es1 original t ->
  Text.contains (EditOperation.oldText e) t = false ->
  edit_file data w =
  (inl (HTTPException 500
          (Msg ("Failed to write edited file " +:+ EditFileRequest.path data +:+ ": "
                +:+ exn_str (edit_not_found (EditOperation.oldText e))))),
   w).
Proof.
  intros Hguard Hread Hedits Hchain Hno.
  rewrite (edit_file_reads data w p original Hguard Hread).
  unfold try_except, edit_body, bind.
  rewrite Hedits, (apply_edits_not_found es1 es2 e original t Hchain Hno).
  reflexivity.
Qed.

(** C8, as amended.  A dry run leaves the filesystem and the confirmation
    file as they were, whatever it returns.  The text the edits work on is
    the file's content as [read_text] gives it, every carriage return,
    alone or before a line feed, read as a line feed.  When every edit
    finds its text, the dry run returns the joined output of
    [unified_diff] on that text and the fully edited text, each cut into
    its lines with their ends kept, labelled with the request path behind
    [a/] and [b/]; and the same request without [dryRun] succeeds and
    writes the fully edited text, which is what the second list of lines
    joins to: the file then holds exactly it, and every path outside the
    file shows what it showed before. *)
Theorem C8_dry_run_and_write (data : EditFileRequest.t) (w : world) :
  (EditFileRequest.dryRun data = true -> snd (edit_file data w) = w)
  /\ forall (p : path) (content modified : string),
       normalize_path (EditFileRequest.path data) w = (inr p, w) ->
       fs_stat p (fs w) = inr (File content) ->
       apply_edits (EditFileRequest.edits data) (Text.universal_newlines content) =
       inr modified ->
       let request dry :=
         {| EditFileRequest.path := EditFileRequest.path data;
            EditFileRequest.edits := EditFileRequest.edits data;
            EditFileRequest.dryRun := dry |} in
       (exists a b : list string,
          edit_file (request true) w =
          (inr (DiffResponse
                  (Text.join
                     (unified_diff a b
                        ("a/" +:+ EditFileRequest.path data)
                        ("b/" +:+ EditFileRequest.path data)))),
           w)
          /\ lines_keepends (Text.universal_newlines content) a
          /\ lines_keepends modified b
          /\ Text.join b = modified)
       /\ exists n',
            edit_file (request false) w =
            (inr (SuccessResponse
                    ("Successfully edited file " +:+ EditFileRequest.path data)),
             {| fs := n'; confirmation_file := confirmation_file w |})
            /\ fs_stat p n' = inr (File modified)
            /\ forall q, is_prefix p q = false -> peek q n' = peek q (fs w).
Proof.
  split.
  - intros Hdry. unfold edit_file. unfold bind at 1.
    pose proof (normalize_path_world (EditFileRequest.path data) w) as Hw.
    destruct (normalize_path (EditFileRequest.path data) w) as [[e|p] w'];
      simpl in Hw; subst w'; [reflexivity |].
    unfold bind at 1. unfold try_except at 1. unfold call.
    destruct (read_text p (fs w)) as [e|original]; [destruct e; reflexivity |].
    unfold try_except, edit_body, bind. rewrite Hdry.
    destruct (apply_edits (EditFileRequest.edits data) original) as [e|modified];
      [destruct e; reflexivity | reflexivity].
  - intros p content modified Hguard Hfile Hedits request.
    assert (Hread : read_text p (fs w) = inr (Text.universal_newlines content))
      by (unfold read_text; now rewrite Hfile).
    split.
    + exists (Text.splitlines (Text.universal_newlines content)), (Text.splitlines modified).
      split; [| split; [apply splitlines_keepends | split; [apply splitlines_keepends |]]].
      * rewrite (edit_file_reads (request true) w p _ Hguard Hread).
        unfold try_except, edit_body, bind. simpl. now rewrite Hedits.
      * apply lines_keepends_join, splitlines_keepends.
    + destruct (write_text_file p (fs w) content modified Hfile)
        as (n' & Hwrite & Hback & Hframe).
      exists n'. split; [| split; assumption].
      rewrite (edit_file_reads (request false) w p _ Hguard Hread).
      unfold try_except, edit_body, bind, update. simpl. now rewrite Hedits, Hwrite.
Qed.

(** *** [delete_path] *)

Lemma live_lookup_Some (now : Z) (w : world) (k : string) (c : Confirmation) :
  live now w !! k = Some c <-> stored w !! k = Some c /\ (now < conf_expiry c)%Z.
Proof. unfold live. now rewrite map_lookup_filter_Some. Qed.

Lemma live_lookup_None (now : Z) (w : world) (k : string) (c : Confirmation) :
  stored w !! k = Some c -> live now w !! k = None -> (conf_expiry c <= now)%Z.
Proof.
  intros Hk Hnone. unfold live in Hnone.
  apply map_lookup_filter_None in Hnone as [Hnone | Hnot]; [congruence |].
  specialize (Hnot c Hk). simpl in Hnot. lia.
Qed.

Lemma truthy_token (token : string) : token <> EmptyString -> truthy (Some token) = true.
Proof. destruct token; [congruence | reflexivity]. Qed.


(** The first phase: no token comes with the request. *)
Lemma delete_path_first_phase (t_load t_now : Z) (rnd : Byte.byte * Byte.byte * Byte.byte)
    (data : DeletePathRequest.t) (w : world) (p : path) :
  truthy (DeletePathRequest.confirmation_token data) = false ->
  normalize_path (DeletePathRequest.path data) w = (inr p, w) ->
  delete_path t_load t_now rnd data w =
  if path_exists p (fs w) then
    (inr (ConfirmationRequiredResponse
            ("`Confirm deletion of file: " +:+ DeletePathRequest.path data
             +:+ " with token " +:+ new_token rnd +:+ "`")
            (new_token rnd)
            (t_now + timedelta_seconds CONFIRMATION_TTL_SECONDS)%Z),
     saved (<[new_token rnd :=
                {| conf_path := DeletePathRequest.path data;
                   conf_recursive := DeletePathRequest.recursive data;
                   conf_expiry := (t_now + timedelta_seconds CONFIRMATION_TTL_SECONDS)%Z |}]>
              (live t_load w)) w)
  else
    (inl (HTTPException 404 (Msg ("Path not found: " +:+ DeletePathRequest.path data))), w).
Proof.
  intros Hnone Hguard. unfold delete_path.
  unfold bind at 1. rewrite load_confirmations_eq.
  unfold bind at 1. rewrite Hguard, Hnone.
  unfold bind, gets. simpl. destruct (path_exists p (fs w)); reflexivity.
Qed.

(** The second phase: a token comes with the request. *)
Lemma delete_path_second_phase (t_load t_now : Z) (rnd : Byte.byte * Byte.byte * Byte.byte)
    (data : DeletePathRequest.t) (w : world) (p : path) (token : string) :
  DeletePathRequest.confirmation_token data = Some token -> token <> EmptyString ->
  normalize_path (DeletePathRequest.path data) w = (inr p, w) ->
  delete_path t_load t_now rnd data w =
  match live t_load w !! token with
  | None => (inl invalid_token, w)
  | Some c =>
      if bool_decide (t_now > conf_expiry c)%Z
      then (inl token_expired, saved (delete token (live t_load w)) w)
      else if negb (String.eqb (conf_path c) (DeletePathRequest.path data))
              || negb (Bool.eqb (conf_recursive c) (DeletePathRequest.recursive data))
      then (inl parameter_mismatch, w)
      else delete_target data p (saved (delete token (live t_load w)) w)
  end.
Proof.
  intros Htoken Hne Hguard. unfold delete_path.
  unfold bind at 1. rewrite load_confirmations_eq.
  unfold bind at 1. rewrite Hguard, Htoken, (truthy_token token Hne). simpl.
  destruct (live t_load w !! token) as [c|]; [| reflexivity].
  destruct (bool_decide (t_now > conf_expiry c)%Z); [reflexivity |].
  destruct (negb (String.eqb (conf_path c) (DeletePathRequest.path data))
            || negb (Bool.eqb (conf_recursive c) (DeletePathRequest.recursive data)));
    reflexivity.
Qed.

Lemma delete_path_rejected (t_load t_now : Z) (rnd : Byte.byte * Byte.byte * Byte.byte)
    (data : DeletePathRequest.t) (w : world) (e : exn) (w' : world) :
  normalize_path (DeletePathRequest.path data) w = (inl e, w') ->
  delete_path t_load t_now rnd data w = (inl e, w).
Proof.
  intros Hguard. unfold delete_path.
  unfold bind at 1. rewrite load_confirmations_eq.
  unfold bind at 1. rewrite Hguard.
  pose proof (normalize_path_world (DeletePathRequest.path data) w) as Hw.
  rewrite Hguard in Hw. simpl in Hw. now subst w'.
Qed.

(** Removing the target never touches the confirmation file. *)
Lemma delete_target_confirmations (data : DeletePathRequest.t) (p : path) (w : world) :
  confirmation_file (snd (delete_target data p w)) = confirmation_file w.
Proof.
  unfold delete_target, try_except, bind, gets, update, update_partial, ret, raise.
  destruct (path_exists p (fs w)); simpl; [| reflexivity].
  destruct (path_is_file p (fs w)); simpl.
  { destruct (unlink p (fs w)) as [[]|]; reflexivity. }
  destruct (path_is_dir p (fs w)); simpl; [| reflexivity].
  destruct (DeletePathRequest.recursive data).
  - destruct (rmtree p (fs w)) as [[[]|[]] n']; reflexivity.
  - destruct (rmdir p (fs w)) as [[]|]; reflexivity.
Qed.

Ltac run_fs Hstat Hrun :=
  repeat (cbn -[unlink rmtree rmdir fs_stat]; rewrite ?Hstat, ?Hrun); try reflexivity.

Lemma delete_target_deletable (data : DeletePathRequest.t) (p : path) (w : world) :
  deletable p (DeletePathRequest.recursive data) (fs w) = true ->
  exists msg n',
    delete_target data p w =
    (inr (SuccessResponse msg), {| fs := n'; confirmation_file := confirmation_file w |})
    /\ removed p (fs w) n'.
Proof.
  unfold deletable. destruct p as [|s p]; [discriminate |].
  destruct (fs_stat (s :: p) (fs w)) as [e|[c|[|x es]]] eqn:Hstat; try discriminate; intros Hrec.
  - destruct (unlink_file (s :: p) (fs w) c ltac:(discriminate) Hstat) as (n' & Hrun & Hgone).
    eexists. exists n'. split; [| exact Hgone].
    unfold delete_target, try_except, bind, gets, update, path_exists, path_is_file.
    run_fs Hstat Hrun.
  - destruct (DeletePathRequest.recursive data) eqn:Hr.
    + destruct (rmtree_dir (s :: p) (fs w) [] ltac:(discriminate) Hstat) as (n' & Hrun & Hgone).
      eexists. exists n'. split; [| exact Hgone].
      unfold delete_target, try_except, bind, gets, update_partial, path_exists,
        path_is_file, path_is_dir.
      rewrite ?Hr. run_fs Hstat Hrun.
    + destruct (rmdir_empty (s :: p) (fs w) ltac:(discriminate) Hstat) as (n' & Hrun & Hgone).
      eexists. exists n'. split; [| exact Hgone].
      unfold delete_target, try_except, bind, gets, update, path_exists,
        path_is_file, path_is_dir.
      rewrite ?Hr. run_fs Hstat Hrun.
  - destruct (rmtree_dir (s :: p) (fs w) (x :: es) ltac:(discriminate) Hstat)
      as (n' & Hrun & Hgone).
    eexists. exists n'. split; [| exact Hgone].
    unfold delete_target, try_except, bind, gets, update_partial, path_exists,
      path_is_file, path_is_dir.
    rewrite Hrec. run_fs Hstat Hrun.
Qed.

(** A directory that is not empty stays when [recursive] is not set: the
    400 "Directory not empty" exception is raised inside the outer [try]
    and leaves as status 500. *)
Lemma delete_target_not_empty (data : DeletePathRequest.t) (p : path) (w : world)
    (x : string * node) (es : entries_t) :
  fs_stat p (fs w) = inr (Dir (x :: es)) ->
  DeletePathRequest.recursive data = false ->
  exists d, delete_target data p w = (inl (HTTPException 500 d), w).
Proof.
  intros Hstat Hr.
  assert (Hfail : exists e, rmdir p (fs w) = inl e /\ is_OSError e = true).
  { destruct p as [|s p].
    - eexists. split; reflexivity.
    - exists (OSError ENOTEMPTY). split; [| reflexivity].
      eapply rmdir_not_empty; [discriminate | exact Hstat]. }
  destruct Hfail as (e & Hrun & Hos). eexists.
  unfold delete_target, try_except, bind, gets, update, path_exists, path_is_file,
    path_is_dir.
  rewrite ?Hr. run_fs Hstat Hrun. rewrite Hos. reflexivity.
Qed.

Lemma stored_saved (m : gmap string Confirmation) (w : world) : stored (saved m w) = m.
Proof. reflexivity. Qed.

Lemma stored_delete_target (data : DeletePathRequest.t) (p : path) (w : world) :
  stored (snd (delete_target data p w)) = stored w.
Proof. unfold stored. now rewrite delete_target_confirmations. Qed.

Lemma matching_parameters (c : Confirmation) (data : DeletePathRequest.t) :
  negb (String.eqb (conf_path c) (DeletePathRequest.path data))
  || negb (Bool.eqb (conf_recursive c) (DeletePathRequest.recursive data)) = false
  <-> conf_path c = DeletePathRequest.path data
      /\ conf_recursive c = DeletePathRequest.recursive data.
Proof.
  rewrite orb_false_iff, !negb_false_iff, String.eqb_eq, Bool.eqb_true_iff. reflexivity.
Qed.

Lemma not_expired (t_now expiry : Z) :
  (t_now <= expiry)%Z -> bool_decide (t_now > expiry)%Z = false.
Proof. intros Hle. apply bool_decide_eq_false. lia. Qed.

(** A token that is in the file, has not expired and comes with the
    parameters it was issued for is accepted: it is taken out of the file,
    and then the target is removed. *)
Lemma delete_path_accepted (t_load t_now : Z) (rnd : Byte.byte * Byte.byte * Byte.byte)
    (data : DeletePathRequest.t) (w : world) (p : path) (token : string) (c : Confirmation) :
  DeletePathRequest.confirmation_token data = Some token -> token <> EmptyString ->
  normalize_path (DeletePathRequest.path data) w = (inr p, w) ->
  stored w !! token = Some c ->
  (t_load < conf_expiry c)%Z -> (t_now <= conf_expiry c)%Z ->
  conf_path c = DeletePathRequest.path data ->
  conf_recursive c = DeletePathRequest.recursive data ->
  delete_path t_load t_now rnd data w =
  delete_target data p (saved (delete token (live t_load w)) w).
Proof.
  intros Htoken Hne Hguard Hstored Hlive Hnow Hpath Hrec.
  rewrite (delete_path_second_phase _ _ _ _ _ _ _ Htoken Hne Hguard).
  rewrite (proj2 (live_lookup_Some t_load w token c) (conj Hstored Hlive)).
  rewrite (not_expired _ _ Hnow).
  now rewrite (proj2 (matching_parameters c data) (conj Hpath Hrec)).
Qed.

(** What an accepted token leads to. *)
Lemma accepted_token_outcome
    (t_load t_now : Z) (rnd : Byte.byte * Byte.byte * Byte.byte)
    (data : DeletePathRequest.t) (w : world) (token : string) (c : Confirmation) (p : path) :
  DeletePathRequest.confirmation_token data = Some token -> token <> EmptyString ->
  normalize_path (DeletePathRequest.path data) w = (inr p, w) ->
  stored w !! token = Some c ->
  (t_load < conf_expiry c)%Z -> (t_now <= conf_expiry c)%Z ->
  conf_path c = DeletePathRequest.path data ->
  conf_recursive c = DeletePathRequest.recursive data ->
  exists (r : exn + response) (w' : world),
    delete_path t_load t_now rnd data w = (r, w')
    /\ stored w' = delete token (live t_load w)
    /\ (deletable p (DeletePathRequest.recursive data) (fs w) = true ->
        (exists msg, r = inr (SuccessResponse msg)) /\ removed p (fs w) (fs w'))
    /\ (forall x es,
          fs_stat p (fs w) = inr (Dir (x :: es)) ->
          DeletePathRequest.recursive data = false ->
          (exists d, r = inl (HTTPException 500 d)) /\ fs w' = fs w)
    /\ forall t_load' t_now' rnd',
         delete_path t_load' t_now' rnd' data w' = (inl invalid_token, w').
Proof.
  intros Htoken Hne Hguard Hstored Hlive Hnow Hpath Hrec.
  set (w1 := saved (delete token (live t_load w)) w).
  destruct (delete_target data p w1) as [r w'] eqn:Hrun.
  assert (Hconf : stored w' = delete token (live t_load w)).
  { change w' with (snd (r, w')). rewrite <- Hrun. apply stored_delete_target. }
  exists r, w'. split; [| split; [exact Hconf | split; [| split]]].
  - rewrite <- Hrun. eapply delete_path_accepted; eauto.
  - intros Hdel. destruct (delete_target_deletable data p w1 Hdel) as (msg & n' & Hok & Hgone).
    rewrite Hrun in Hok. injection Hok as -> ->. split; [eauto | exact Hgone].
  - intros x es Hstat Hr.
    destruct (delete_target_not_empty data p w1 x es Hstat Hr) as (d & Hfail).
    rewrite Hrun in Hfail. injection Hfail as -> ->. split; [eauto | reflexivity].
  - intros t_load' t_now' rnd'.
    rewrite (delete_path_second_phase _ _ _ _ _ _ _ Htoken Hne
               (normalize_path_any_world _ _ _ w' _ Hguard)).
    destruct (live t_load' w' !! token) as [c'|] eqn:Hagain; [| reflexivity].
    apply live_lookup_Some in Hagain as [Hagain _].
    rewrite Hconf, lookup_delete_eq in Hagain. discriminate.
Qed.

(** C2, as amended.  A delete request without a token leaves the served
    tree as it was.  A request whose token is in the confirmation file, has
    not expired and was issued for the same path and recursive flag takes
    the token out of the file; it then removes the target, and nothing
    else, when the target is a file, an empty directory, or a directory
    and [recursive] is set, and it fails with status 500 and removes
    nothing when the target is a directory that is not empty and
    [recursive] is not set.  Either way, the same request made again is
    answered "Invalid or expired confirmation token" and changes
    nothing. *)
Theorem C2_two_phase_delete
    (t_load t_now : Z) (rnd : Byte.byte * Byte.byte * Byte.byte)
    (data : DeletePathRequest.t) (w : world) :
  (truthy (DeletePathRequest.confirmation_token data) = false ->
   fs (snd (delete_path t_load t_now rnd data w)) = fs w)
  /\ forall (token : string) (c : Confirmation) (p : path),
       DeletePathRequest.confirmation_token data = Some token -> token <> EmptyString ->
       normalize_path (DeletePathRequest.path data) w = (inr p, w) ->
       stored w !! token = Some c ->
       (t_load < conf_expiry c)%Z -> (t_now <= conf_expiry c)%Z ->
       conf_path c = DeletePathRequest.path data ->
       conf_recursive c = DeletePathRequest.recursive data ->
       exists (r : exn + response) (w' : world),
         delete_path t_load t_now rnd data w = (r, w')
         /\ stored w' = delete token (live t_load w)
         /\ (deletable p (DeletePathRequest.recursive data) (fs w) = true ->
             (exists msg, r = inr (SuccessResponse msg)) /\ removed p (fs w) (fs w'))
         /\ (forall x es,
               fs_stat p (fs w) = inr (Dir (x :: es)) ->
               DeletePathRequest.recursive data = false ->
               (exists d, r = inl (HTTPException 500 d)) /\ fs w' = fs w)
         /\ forall t_load' t_now' rnd',
              delete_path t_load' t_now' rnd' data w' = (inl invalid_token, w').
Proof.
  split.
  - intros Hnone.
    destruct (normalize_path (DeletePathRequest.path data) w) as [[e|p] w0] eqn:Hguard.
    + now rewrite (delete_path_rejected _ _ _ _ _ _ _ Hguard).
    + destruct (normalize_path_inv _ _ _ _ Hguard) as (_ & _ & ->).
      rewrite (delete_path_first_phase _ _ _ _ _ _ Hnone Hguard).
      destruct (path_exists p (fs w)); reflexivity.
  - intros token c p Htoken Hne Hguard Hstored Hlive Hnow Hpath Hrec.
    eapply accepted_token_outcome; eauto.
Qed.


(** C4, as amended.  A token whose recorded expiry has passed when the
    confirmation file is loaded is not among the loaded entries, and the
    request is answered "Invalid or expired confirmation token" with
    nothing changed, whether or not its path and recursive flag match.
    "Confirmation token has expired" is the answer only when the expiry
    lies after the clock reading of the load and before the handler's own:
    then the entry is deleted from the file. *)
Theorem C4_expired_token
    (t_load t_now : Z) (rnd : Byte.byte * Byte.byte * Byte.byte)
    (data : DeletePathRequest.t) (w : world) (p : path) (token : string) (c : Confirmation) :
  DeletePathRequest.confirmation_token data = Some token -> token <> EmptyString ->
  normalize_path (DeletePathRequest.path data) w = (inr p, w) ->
  stored w !! token = Some c ->
  ((conf_expiry c <= t_load)%Z ->
   delete_path t_load t_now rnd data w = (inl invalid_token, w))
  /\ ((t_load < conf_expiry c)%Z -> (conf_expiry c < t_now)%Z ->
      delete_path t_load t_now rnd data w =
      (inl token_expired, saved (delete token (live t_load w)) w)).
Proof.
  intros Htoken Hne Hguard Hstored.
  rewrite (delete_path_second_phase _ _ _ _ _ _ _ Htoken Hne Hguard). split.
  - intros Hexpired.
    destruct (live t_load w !! token) as [c'|] eqn:Hlookup; [| reflexivity].
    apply live_lookup_Some in Hlookup as [Hc' Hlive].
    assert (c' = c) as -> by congruence. lia.
  - intros Hlive Hexpired.
    rewrite (proj2 (live_lookup_Some t_load w token c) (conj Hstored Hlive)).
    rewrite bool_decide_eq_true_2 by lia. reflexivity.
Qed.

(** C5, as amended.  In the first phase the token is the first five
    hexadecimal digits of the three random bytes drawn; it is not compared
    with the tokens that are pending.  The request records the new
    confirmation under that token, whatever was pending under it, and
    every other pending confirmation that has not expired stays as it
    was. *)
Theorem C5_new_token_is_recorded
    (t_load t_now : Z) (rnd : Byte.byte * Byte.byte * Byte.byte)
    (data : DeletePathRequest.t) (w : world) (p : path) :
  truthy (DeletePathRequest.confirmation_token data) = false ->
  normalize_path (DeletePathRequest.path data) w = (inr p, w) ->
  path_exists p (fs w) = true ->
  let record :=
    {| conf_path := DeletePathRequest.path data;
       conf_recursive := DeletePathRequest.recursive data;
       conf_expiry := (t_now + timedelta_seconds CONFIRMATION_TTL_SECONDS)%Z |} in
  exists (msg : string) (w' : world),
    delete_path t_load t_now rnd data w =
    (inr (ConfirmationRequiredResponse msg (new_token rnd) (conf_expiry record)), w')
    /\ fs w' = fs w
    /\ stored w' !! new_token rnd = Some record
    /\ forall k, k <> new_token rnd -> stored w' !! k = live t_load w !! k.
Proof.
  intros Hnone Hguard Hexists record.
  rewrite (delete_path_first_phase _ _ _ _ _ _ Hnone Hguard), Hexists.
  eexists. eexists. split; [reflexivity |]. split; [reflexivity |].
  rewrite stored_saved. split.
  - apply lookup_insert_eq.
  - intros k Hk. apply lookup_insert_ne. congruence.
Qed.

(** C10.  A request that passes the path guard with a token that is in the
    confirmation file and has not expired, but with a path or a recursive
    flag other than the recorded one, is answered with the parameter
    mismatch error, and the filesystem and the confirmation file stay as
    they were.  So a later request, before expiry, with the same token and
    the recorded path and flag is accepted as if nothing had happened: the
    token is consumed and the target removed, with success whenever the
    target is a file, an empty directory, or a directory and the recorded
    flag is set. *)
Theorem C10_parameter_mismatch_keeps_token
    (t_load t_now : Z) (rnd : Byte.byte * Byte.byte * Byte.byte)
    (data : DeletePathRequest.t) (w : world) (p : path) (token : string) (c : Confirmation) :
  DeletePathRequest.confirmation_token data = Some token -> token <> EmptyString ->
  normalize_path (DeletePathRequest.path data) w = (inr p, w) ->
  stored w !! token = Some c ->
  (t_load < conf_expiry c)%Z -> (t_now <= conf_expiry c)%Z ->
  conf_path c <> DeletePathRequest.path data
  \/ conf_recursive c <> DeletePathRequest.recursive data ->
  delete_path t_load t_now rnd data w = (inl parameter_mismatch, w)
  /\ forall (t_load' t_now' : Z) (rnd' : Byte.byte * Byte.byte * Byte.byte) (p' : path),
       let original :=
         {| DeletePathRequest.path := conf_path c;
            DeletePathRequest.recursive := conf_recursive c;
            DeletePathRequest.confirmation_token := Some token |} in
       (t_load' < conf_expiry c)%Z -> (t_now' <= conf_expiry c)%Z ->
       normalize_path (conf_path c) w = (inr p', w) ->
       exists (r : exn + response) (w' : world),
         delete_path t_load' t_now' rnd' original w = (r, w')
         /\ stored w' = delete token (live t_load' w)
         /\ (deletable p' (conf_recursive c) (fs w) = true ->
             (exists msg, r = inr (SuccessResponse msg)) /\ removed p' (fs w) (fs w')).
Proof.
  intros Htoken Hne Hguard Hstored Hlive Hnow Hdiff. split.
  - rewrite (delete_path_second_phase _ _ _ _ _ _ _ Htoken Hne Hguard).
    rewrite (proj2 (live_lookup_Some t_load w token c) (conj Hstored Hlive)).
    rewrite (not_expired _ _ Hnow).
    destruct (negb (String.eqb (conf_path c) (DeletePathRequest.path data))
              || negb (Bool.eqb (conf_recursive c) (DeletePathRequest.recursive data)))
      eqn:Hmatch; [reflexivity |].
    apply matching_parameters in Hmatch. tauto.
  - intros t_load' t_now' rnd' p' original Hlive' Hnow' Hguard'.
    destruct (accepted_token_outcome t_load' t_now' rnd' original w token c p'
                eq_refl Hne Hguard' Hstored Hlive' Hnow' eq_refl eq_refl)
      as (r & w' & Hrun & Hconf & Hok & _).
    exists r, w'. split; [exact Hrun | split; [exact Hconf | exact Hok]].
Qed.

(** *** [search_files] *)

Lemma in_matches_at (pattern : string) (root : path) (items : list string) (r : string) :
  In r (matches_at pattern root items) <->
  exists item,
    In item items
    /\ Text.contains (Text.lower pattern) (Text.lower item) = true
    /\ existsb (fun alt => Text.startswith (path_str (root ++ [item])) alt)
         ALLOWED_DIRECTORIES = true
    /\ r = path_str (root ++ [item]).
Proof.
  unfold matches_at. rewrite in_flat_map. split.
  - intros (item & Hin & Hr). exists item.
    destruct (Text.contains (Text.lower pattern) (Text.lower item)); [| destruct Hr].
    destruct (existsb _ ALLOWED_DIRECTORIES); [| destruct Hr].
    destruct Hr as [<- | []]. auto.
  - intros (item & Hin & Hsub & Hallowed & ->). exists item. split; [exact Hin |].
    rewrite Hsub, Hallowed. left. reflexivity.
Qed.

(** The inner loop says "not excluded" exactly when no pattern matches and
    none raises. *)
Lemma excluded_by_false (root : path) (patterns : list string) :
  excluded_by root patterns = inr false <->
  forall pattern, In pattern patterns -> path_match root pattern = inr false.
Proof.
  induction patterns as [|pattern patterns IH]; simpl.
  - split; [intros _ pattern [] | reflexivity].
  - destruct (path_match root pattern) as [e|[|]] eqn:Hmatch.
    + split; [discriminate | intros Hall].
      specialize (Hall pattern (or_introl eq_refl)). congruence.
    + split; [discriminate | intros Hall].
      specialize (Hall pattern (or_introl eq_refl)). congruence.
    + rewrite IH. split.
      * intros Hall pattern' [<- | Hin]; [exact Hmatch | now apply Hall].
      * intros Hall pattern' Hin. apply Hall. now right.
Qed.

Lemma excluded_by_runs (root : path) (patterns : list string) :
  (forall pattern, In pattern patterns -> exists b, path_match root pattern = inr b) ->
  exists b, excluded_by root patterns = inr b.
Proof.
  induction patterns as [|pattern patterns IH]; simpl; intros Hvalid; [eauto |].
  destruct (Hvalid pattern (or_introl eq_refl)) as [[|] ->]; [eauto |].
  apply IH. intros pattern' Hin. apply Hvalid. now right.
Qed.

Lemma search_loop_results (data : SearchFilesRequest.t) (patterns : list string)
    (walk : list (path * list string * list string)) (results : list string) :
  SearchFilesRequest.excludePatterns data = Some patterns ->
  (forall root pattern, In pattern patterns -> exists b, path_match root pattern = inr b) ->
  search_loop data walk results =
  inr (results ++ flat_map (level_matches data patterns) walk).
Proof.
  intros Hpats Hvalid. revert results.
  induction walk as [|[[root dirs] files] walk IH]; intros results; simpl.
  - now rewrite app_nil_r.
  - rewrite Hpats. destruct (excluded_by_runs root patterns (Hvalid root)) as [[|] ->].
    + apply IH.
    + rewrite IH. now rewrite <- List.app_assoc.
Qed.

(** C9, as amended.  With an exclude list whose patterns [match] accepts,
    the search visits the base directory and every directory at any depth
    below it, those beneath a directory that matches an exclude pattern
    included: a matching directory only has its own entries passed over.  A
    path is reported exactly when it names an entry of a visited directory
    that matches no exclude pattern, the lower-cased search pattern occurs
    in the entry's lower-cased name, and the path starts with an allowed
    directory as a string.  When nothing is reported the answer is the
    one-element list "No matches found".  On a base path that is a
    directory, an exclude list that is [None] makes the search raise
    [TypeError], and a pattern on which [match] raises for the base
    directory, before a pattern that matches it, makes the search raise
    that exception; no handler catches either. *)
Theorem C9_search_visits_every_directory
    (data : SearchFilesRequest.t) (w : world) (base : path) :
  normalize_path (SearchFilesRequest.path data) w = (inr base, w) ->
  (forall patterns : list string,
     SearchFilesRequest.excludePatterns data = Some patterns ->
     (forall root pattern, In pattern patterns -> exists b, path_match root pattern = inr b) ->
     exists results : list string,
       search_files data w =
       (inr (MatchesResponse
               match results with [] => ["No matches found"] | _ => results end), w)
       /\ forall r : string,
            In r results <->
            exists (top : node) (root : path) (es : entries_t) (item : string),
              fs_stat base (fs w) = inr top
              /\ reaches base top root es
              /\ (forall pattern, In pattern patterns -> path_match root pattern = inr false)
              /\ In item (map fst es)
              /\ Text.contains (Text.lower (SearchFilesRequest.pattern data))
                   (Text.lower item) = true
              /\ existsb (fun alt => Text.startswith (path_str (root ++ [item])) alt)
                   ALLOWED_DIRECTORIES = true
              /\ r = path_str (root ++ [item]))
  /\ (path_is_dir base (fs w) = true ->
      (SearchFilesRequest.excludePatterns data = None ->
       search_files data w = (inl TypeError, w))
      /\ forall (patterns : list string) (e : exn),
           SearchFilesRequest.excludePatterns data = Some patterns ->
           excluded_by base patterns = inl e ->
           search_files data w = (inl e, w)).
Proof.
  intros Hguard. split.
  - intros patterns Hpats Hvalid.
    exists (flat_map (level_matches data patterns) (walk_from base (fs w))). split.
    + unfold search_files. unfold bind at 1. rewrite Hguard.
      unfold bind, call. now rewrite (search_loop_results data patterns _ [] Hpats Hvalid).
    + intros r. rewrite in_flat_map. unfold walk_from. split.
      * intros ([[root dirs] files] & Hwalk & Hr).
        destruct (fs_stat base (fs w)) as [e|top]; [destruct Hwalk |].
        apply in_os_walk in Hwalk as (root' & es & Hreach & Heq).
        injection Heq as -> -> ->. simpl in Hr.
        destruct (excluded_by root' patterns) as [e|[|]] eqn:Hexcl;
          [destruct Hr | destruct Hr |].
        pose proof (proj1 (excluded_by_false _ _) Hexcl) as Hnone.
        apply in_matches_at in Hr as (item & Hitem & Hsub & Hallowed & ->).
        apply in_files_dirs in Hitem.
        exists top, root', es, item. auto 10.
      * intros (top & root & es & item & Hstat & Hreach & Hexcl & Hitem & Hsub & Hallowed & ->).
        rewrite Hstat. exists (root, dirnames es, filenames es). split.
        -- apply in_os_walk. eauto.
        -- simpl. rewrite (proj2 (excluded_by_false _ _) Hexcl). apply in_matches_at.
           exists item. split; [now apply in_files_dirs | auto].
  - intros Hdir. unfold path_is_dir in Hdir.
    destruct (fs_stat base (fs w)) as [e|[c|es]] eqn:Hstat; try discriminate.
    assert (Hwalk : exists rest, walk_from base (fs w) = (base, dirnames es, filenames es) :: rest).
    { unfold walk_from. rewrite Hstat, os_walk_Dir. eauto. }
    destruct Hwalk as [rest Hwalk]. split.
    + intros Hnone. unfold search_files. unfold bind at 1. rewrite Hguard.
      unfold bind, call. rewrite Hwalk. simpl. now rewrite Hnone.
    + intros patterns e Hpats Hraise. unfold search_files. unfold bind at 1. rewrite Hguard.
      unfold bind, call. rewrite Hwalk. simpl. now rewrite Hpats, Hraise.
Qed.

End Server.

(** ** The properties on concrete requests *)

Example replace_first_only_first :
  apply_edits [{| EditOperation.oldText := "ab"; EditOperation.newText := "X" |};
               {| EditOperation.oldText := "c"; EditOperation.newText := "ab" |}]
    "abcabc" = inr "Xababc".
Proof. reflexivity. Qed.

Lemma C1_witness :
  In "/etc/passwd" (request_paths (ReadFile {| ReadFileRequest.path := "/etc/passwd" |}))
  /\ existsb (allows (@resolve data_runtime "/etc/passwd"))
       (@ALLOWED_DIRECTORIES data_runtime) = false
  /\ @normalize_path data_runtime "/etc/passwd" example_world =
     (inl (HTTPException 403 (AccessDeniedDetail "/etc/passwd" ["/data"])), example_world).
Proof.
  split; [left; reflexivity |]. split; [vm_compute; reflexivity |].
  apply (@C1_path_guard_rejects data_runtime 0 0 example_bytes
           (ReadFile {| ReadFileRequest.path := "/etc/passwd" |}) example_world
           "/etc/passwd");
    [left; reflexivity | vm_compute; reflexivity].
Defined.

(** The path [/data/foobar/secret.txt] is not beneath the allowed directory
    [/data/foo], yet the guard lets it through and the file is read. *)
Lemma C1_counterexample :
  existsb (fun root => beneath root (@resolve foo_runtime "/data/foobar/secret.txt"))
    (@ALLOWED_DIRECTORIES foo_runtime) = false
  /\ @normalize_path foo_runtime "/data/foobar/secret.txt" example_world =
     (inr ["data"; "foobar"; "secret.txt"], example_world)
  /\ @read_file foo_runtime {| ReadFileRequest.path := "/data/foobar/secret.txt" |}
       example_world =
     (inr (ReadFileResponse "secret"), example_world).
Proof. repeat split; vm_compute; reflexivity. Defined.

Lemma C2_witness :
  stored file_pending_world !! "abcde" =
    Some {| conf_path := "/data/a.txt"; conf_recursive := false; conf_expiry := 60000000 |}
  /\ deletable ["data"; "a.txt"] false (fs file_pending_world) = true
  /\ exists (r : exn + response) (w' : world),
       @delete_path data_runtime 1 1 example_bytes
         (delete_request "/data/a.txt" false (Some "abcde")) file_pending_world = (r, w')
       /\ (exists msg, r = inr (SuccessResponse msg))
       /\ removed ["data"; "a.txt"] (fs file_pending_world) (fs w')
       /\ @delete_path data_runtime 2 2 example_bytes
            (delete_request "/data/a.txt" false (Some "abcde")) w' = (inl invalid_token, w').
Proof.
  split; [vm_compute; reflexivity |]. split; [vm_compute; reflexivity |].
  destruct (proj2 (@C2_two_phase_delete data_runtime 1 1 example_bytes
                     (delete_request "/data/a.txt" false (Some "abcde"))
                     file_pending_world)
              "abcde"
              {| conf_path := "/data/a.txt"; conf_recursive := false;
                 conf_expiry := 60000000 |}
              ["data"; "a.txt"])
    as (r & w' & Hrun & _ & Hok & _ & Hagain);
    [reflexivity | discriminate | vm_compute; reflexivity | vm_compute; reflexivity
    | simpl; lia | simpl; lia | reflexivity | reflexivity |].
  exists r, w'. split; [exact Hrun |].
  destruct (Hok ltac:(vm_compute; reflexivity)) as [Hmsg Hgone].
  split; [exact Hmsg | split; [exact Hgone | apply Hagain]].
Defined.

(** The token issued for [/data/dir] without [recursive] is presented in
    time with the same path and flag, yet nothing is removed: the directory
    is not empty, and the request fails with status 500. *)
Lemma C2_counterexample :
  stored dir_pending_world !! "abcde" =
    Some {| conf_path := "/data/dir"; conf_recursive := false; conf_expiry := 60000000 |}
  /\ (exists d,
        fst (@delete_path data_runtime 1 1 example_bytes
               (delete_request "/data/dir" false (Some "abcde")) dir_pending_world) =
        inl (HTTPException 500 d))
  /\ fs (snd (@delete_path data_runtime 1 1 example_bytes
                (delete_request "/data/dir" false (Some "abcde")) dir_pending_world)) =
     example_tree.
Proof.
  split; [vm_compute; reflexivity |]. split; [| vm_compute; reflexivity].
  eexists. vm_compute. reflexivity.
Defined.



Lemma C4_witness :
  stored file_pending_world !! "abcde" =
    Some {| conf_path := "/data/a.txt"; conf_recursive := false; conf_expiry := 60000000 |}
  /\ @delete_path data_runtime 60000000 60000000 example_bytes
       (delete_request "/data/a.txt" false (Some "abcde")) file_pending_world =
     (inl invalid_token, file_pending_world)
  /\ @delete_path data_runtime 59999999 60000001 example_bytes
       (delete_request "/data/a.txt" false (Some "abcde")) file_pending_world =
     (inl token_expired, saved (delete "abcde" (live 59999999 file_pending_world))
                           file_pending_world).
Proof.
  split; [vm_compute; reflexivity |].
  destruct (@C4_expired_token data_runtime 60000000 60000000 example_bytes
              (delete_request "/data/a.txt" false (Some "abcde")) file_pending_world
              ["data"; "a.txt"] "abcde"
              {| conf_path := "/data/a.txt"; conf_recursive := false;
                 conf_expiry := 60000000 |}
              eq_refl ltac:(discriminate) ltac:(vm_compute; reflexivity)
              ltac:(vm_compute; reflexivity)) as [Hinvalid _].
  destruct (@C4_expired_token data_runtime 59999999 60000001 example_bytes
              (delete_request "/data/a.txt" false (Some "abcde")) file_pending_world
              ["data"; "a.txt"] "abcde"
              {| conf_path := "/data/a.txt"; conf_recursive := false;
                 conf_expiry := 60000000 |}
              eq_refl ltac:(discriminate) ltac:(vm_compute; reflexivity)
              ltac:(vm_compute; reflexivity)) as [_ Hexpired].
  split; [apply Hinvalid; simpl; lia | apply Hexpired; simpl; lia].
Defined.

(** The token issued for [/data/a.txt] expires at 60000000.  Presented one
    second later with the same path and flag, it is answered like a token
    that never existed. *)
Lemma C4_counterexample :
  stored file_pending_world !! "abcde" =
    Some {| conf_path := "/data/a.txt"; conf_recursive := false; conf_expiry := 60000000 |}
  /\ @delete_path data_runtime 61000000 61000000 example_bytes
       (delete_request "/data/a.txt" false (Some "abcde")) file_pending_world =
     (inl (HTTPException 400 (Msg "Invalid or expired confirmation token.")),
      file_pending_world).
Proof. split; vm_compute; reflexivity. Defined.

Lemma C5_witness :
  exists (msg : string) (w' : world),
    @delete_path data_runtime 1 1 example_bytes (delete_request "/data/dir" true None)
      example_world =
    (inr (ConfirmationRequiredResponse msg "abcde" 60000001), w')
    /\ stored w' !! "abcde" =
       Some {| conf_path := "/data/dir"; conf_recursive := true; conf_expiry := 60000001 |}.
Proof.
  destruct (@C5_new_token_is_recorded data_runtime 1 1 example_bytes
              (delete_request "/data/dir" true None) example_world ["data"; "dir"]
              eq_refl ltac:(vm_compute; reflexivity) ltac:(vm_compute; reflexivity))
    as (msg & w' & Hrun & _ & Hnew & _).
  exists msg, w'. split; [exact Hrun | exact Hnew].
Defined.

(** The token [abcde] is pending for [/data/a.txt].  A first-phase request
    for [/data/dir] draws the same bytes: it is given the same token, and
    the pending confirmation is overwritten. *)
Lemma C5_counterexample :
  live 1 file_pending_world !! "abcde" =
    Some {| conf_path := "/data/a.txt"; conf_recursive := false; conf_expiry := 60000000 |}
  /\ fst (@delete_path data_runtime 1 1 example_bytes (delete_request "/data/dir" true None)
            file_pending_world) =
     inr (ConfirmationRequiredResponse
            "`Confirm deletion of file: /data/dir with token abcde`" "abcde" 60000001)
  /\ stored (snd (@delete_path data_runtime 1 1 example_bytes
                    (delete_request "/data/dir" true None) file_pending_world))
       !! "abcde" =
     Some {| conf_path := "/data/dir"; conf_recursive := true; conf_expiry := 60000001 |}.
Proof. repeat split; vm_compute; reflexivity. Defined.

(** The failing input of C6: the file holds [hello], the edit looks for
    [xyz]. *)
Lemma C6_witness :
  @edit_file data_runtime (edit_request "/data/a.txt" "xyz" "q" false) example_world =
  (inl (HTTPException 500
          (Msg "Failed to write edited file /data/a.txt: 400: Edit failed: oldText not found in content: 'xyz...'")),
   example_world).
Proof.
  apply (@C6_edit_not_found_surfaces_as_500 data_runtime
           (edit_request "/data/a.txt" "xyz" "q" false) example_world
           ["data"; "a.txt"] "hello" "hello" [] []
           {| EditOperation.oldText := "xyz"; EditOperation.newText := "q" |});
    [vm_compute; reflexivity | vm_compute; reflexivity | reflexivity | constructor
    | vm_compute; reflexivity].
Defined.

(** The file [/data/a.txt] holds [hello]; the edit turns it into [world]. *)
Lemma C8_witness :
  (exists a b : list string,
     @edit_file data_runtime (edit_request "/data/a.txt" "hello" "world" true) example_world =
     (inr (DiffResponse (Text.join (whole_file_diff a b "a//data/a.txt" "b//data/a.txt"))),
      example_world)
     /\ lines_keepends "hello" a /\ lines_keepends "world" b)
  /\ @edit_file data_runtime (edit_request "/data/a.txt" "hello" "world" true) example_world =
     (inr (DiffResponse
             (Text.join ["--- a//data/a.txt" +:+ LF; "+++ b//data/a.txt" +:+ LF;
                         "@@ -1 +1 @@" +:+ LF; "-hello"; "+world"])),
      example_world)
  /\ exists n',
       @edit_file data_runtime (edit_request "/data/a.txt" "hello" "world" false)
         example_world =
       (inr (SuccessResponse "Successfully edited file /data/a.txt"),
        {| fs := n'; confirmation_file := None |})
       /\ fs_stat ["data"; "a.txt"] n' = inr (File "world").
Proof.
  destruct (proj2 (@C8_dry_run_and_write data_runtime
                     (edit_request "/data/a.txt" "hello" "world" true) example_world)
              ["data"; "a.txt"] "hello" "world"
              ltac:(vm_compute; reflexivity) ltac:(vm_compute; reflexivity)
              ltac:(vm_compute; reflexivity))
    as ((a & b & Hdry & Ha & Hb & _) & n' & Hwet & Hread & _).
  split; [exists a, b; split; [exact Hdry | split; [exact Ha | exact Hb]] |].
  split; [vm_compute; reflexivity |].
  exists n'. split; [exact Hwet | exact Hread].
Defined.

(** The file [/data/w.txt] holds two lines, the first ending in a carriage
    return and a line feed.  With no edits the dry run returns an empty
    diff, which shows the file as it is; the same request without [dryRun]
    rewrites the file with a line feed alone. *)
Lemma C8_counterexample :
  fs_stat ["data"; "w.txt"] (fs crlf_world) = inr (File ("a" +:+ CR +:+ LF +:+ "b"))
  /\ @edit_file data_runtime
       {| EditFileRequest.path := "/data/w.txt"; EditFileRequest.edits := [];
          EditFileRequest.dryRun := true |} crlf_world =
     (inr (DiffResponse EmptyString), crlf_world)
  /\ fst (@edit_file data_runtime
            {| EditFileRequest.path := "/data/w.txt"; EditFileRequest.edits := [];
               EditFileRequest.dryRun := false |} crlf_world) =
     inr (SuccessResponse "Successfully edited file /data/w.txt")
  /\ fs_stat ["data"; "w.txt"]
       (fs (snd (@edit_file data_runtime
                   {| EditFileRequest.path := "/data/w.txt"; EditFileRequest.edits := [];
                      EditFileRequest.dryRun := false |} crlf_world))) =
     inr (File ("a" +:+ LF +:+ "b")).
Proof. repeat split; vm_compute; reflexivity. Defined.

Lemma C9_witness :
  exists results : list string,
    @search_files data_runtime search_request example_world =
    (inr (MatchesResponse
            match results with [] => ["No matches found"] | _ => results end),
     example_world)
    /\ In "/data/skip/sub/report.txt" results.
Proof.
  destruct (proj1 (@C9_search_visits_every_directory data_runtime search_request
                     example_world ["data"] ltac:(vm_compute; reflexivity))
              ["skip"] eq_refl)
    as (results & Hrun & Hin).
  { intros root pattern [<- | []]. eexists. reflexivity. }
  exists results. split; [exact Hrun |].
  apply Hin.
  exists (Dir [("foo", Dir [("ok.txt", File "fine")]);
               ("foobar", Dir [("secret.txt", File "secret")]);
               ("dir", Dir [("f.txt", File "hello")]);
               ("a.txt", File "hello");
               ("skip", Dir [("sub", Dir [("report.txt", File "x")])])]),
    ["data"; "skip"; "sub"], [("report.txt", File "x")], "report.txt".
  split; [reflexivity |]. split.
  - eapply (reaches_below _ _ "skip"); [do 4 right; left; reflexivity |].
    eapply (reaches_below _ _ "sub"); [left; reflexivity |].
    apply reaches_here.
  - split; [intros pattern [<- | []]; vm_compute; reflexivity |].
    repeat split; try (vm_compute; reflexivity). left. reflexivity.
Defined.

(** The directory [/data/skip] matches the exclude pattern [skip], yet the
    walk goes on into [/data/skip/sub] and reports the file it finds
    there. *)
Lemma C9_counterexample :
  @path_match data_runtime ["data"; "skip"] "skip" = inr true
  /\ is_prefix ["data"; "skip"] ["data"; "skip"; "sub"; "report.txt"] = true
  /\ @search_files data_runtime search_request example_world =
     (inr (MatchesResponse ["/data/skip/sub/report.txt"]), example_world).
Proof. repeat split; vm_compute; reflexivity. Defined.

Lemma C10_witness :
  @delete_path data_runtime 1 1 example_bytes
    (delete_request "/data/a.txt" true (Some "abcde")) file_pending_world =
  (inl parameter_mismatch, file_pending_world)
  /\ exists (r : exn + response) (w' : world),
       @delete_path data_runtime 2 2 example_bytes
         (delete_request "/data/a.txt" false (Some "abcde")) file_pending_world = (r, w')
       /\ (exists msg, r = inr (SuccessResponse msg))
       /\ removed ["data"; "a.txt"] (fs file_pending_world) (fs w').
Proof.
  destruct (@C10_parameter_mismatch_keeps_token data_runtime 1 1 example_bytes
              (delete_request "/data/a.txt" true (Some "abcde")) file_pending_world
              ["data"; "a.txt"] "abcde"
              {| conf_path := "/data/a.txt"; conf_recursive := false;
                 conf_expiry := 60000000 |}
              eq_refl ltac:(discriminate) ltac:(vm_compute; reflexivity)
              ltac:(vm_compute; reflexivity) ltac:(simpl; lia) ltac:(simpl; lia)
              ltac:(right; discriminate))
    as [Hmismatch Hlater].
  split; [exact Hmismatch |].
  destruct (Hlater 2%Z 2%Z example_bytes ["data"; "a.txt"]
              ltac:(simpl; lia) ltac:(simpl; lia) ltac:(vm_compute; reflexivity))
    as (r & w' & Hrun & _ & Hok).
  exists r, w'. split; [exact Hrun |].
  exact (Hok ltac:(vm_compute; reflexivity)).
Defined.

(** The token issued for the directory [/data/dir], which is not empty,
    without [recursive].  A request with [recursive] set is answered with
    the mismatch error and changes nothing; but the request with the
    recorded path and flag that follows does not succeed, it fails with
    status 500.  And a request with the token and a path outside the
    allowed directory is answered by the path guard, not with the mismatch
    error. *)
Lemma C10_counterexample :
  @delete_path data_runtime 1 1 example_bytes
    (delete_request "/data/dir" true (Some "abcde")) dir_pending_world =
  (inl parameter_mismatch, dir_pending_world)
  /\ (exists d,
        fst (@delete_path data_runtime 2 2 example_bytes
               (delete_request "/data/dir" false (Some "abcde")) dir_pending_world) =
        inl (HTTPException 500 d))
  /\ @delete_path data_runtime 1 1 example_bytes
       (delete_request "/etc/passwd" false (Some "abcde")) dir_pending_world =
     (inl (HTTPException 403 (AccessDeniedDetail "/etc/passwd" ["/data"])),
      dir_pending_world).
Proof.
  split; [vm_compute; reflexivity |]. split; [| vm_compute; reflexivity].
  eexists. vm_compute. reflexivity.
Defined.

(** * Further properties *)

(** ** Writing and reading files *)

Lemma at_parent_step (op : string -> entries_t -> exn + entries_t)
    (on_root : node -> exn + node) (s : string) (p : path) (es : entries_t) :
  p <> [] ->
  at_parent op on_root (s :: p) (Dir es) =
  match entry s es with
  | Some c =>
      match at_parent op on_root p c with
      | inr c' => inr (Dir (set_entry s c' es))
      | inl e => inl e
      end
  | None => inl FileNotFoundError
  end.
Proof. destruct p; [congruence | reflexivity]. Qed.

Lemma write_op_sets (content : string) (s : string) (es es' : entries_t) :
  write_op content s es = inr es' -> entry s es' = Some (File content).
Proof.
  unfold write_op. destruct (entry s es) as [[c|l]|]; try discriminate;
    intros [= <-]; apply entry_set_entry_eq.
Qed.

Lemma write_text_sets (p : path) (content : string) (n n' : node) :
  write_text p content n = inr n' -> fs_stat p n' = inr (File content).
Proof.
  destruct p as [|s p].
  - simpl. destruct n; [intros [= <-]; reflexivity | discriminate].
  - intros Hrun.
    apply (at_parent_sets (write_op content) (write_root content) (s :: p) n n');
      [apply write_op_sets | discriminate | exact Hrun].
Qed.

Lemma write_text_frame (p : path) (content : string) (n n' : node) :
  write_text p content n = inr n' ->
  forall q, is_prefix p q = false -> peek q n' = peek q n.
Proof.
  destruct p as [|s p]; [discriminate 2 |]. intros Hrun.
  apply (at_parent_frame (write_op content) (write_root content) (s :: p) n n');
    [apply write_op_local | discriminate | exact Hrun].
Qed.

(** A new file can be written into a directory that exists. *)
Lemma write_text_creates (parent : path) (name content : string) (n : node)
    (es : entries_t) :
  fs_stat parent n = inr (Dir es) -> entry name es = None ->
  exists n', write_text (parent ++ [name]) content n = inr n'.
Proof.
  revert n. induction parent as [|t parent IH]; intros n Hstat Hfree.
  - simpl in Hstat. injection Hstat as ->. unfold write_text. simpl. unfold write_op.
    rewrite Hfree. eauto.
  - simpl in Hstat. destruct n as [c|es0]; [discriminate |].
    destruct (entry t es0) as [ch|] eqn:Hentry; [| discriminate].
    destruct (IH ch Hstat Hfree) as [ch' Hrun].
    unfold write_text in *. simpl app.
    rewrite at_parent_step by (destruct parent; discriminate).
    rewrite Hentry, Hrun. eauto.
Qed.

Lemma contains_CR_cons (c : ascii) (s : string) :
  Text.contains CR (String c s) = Ascii.eqb "013" c || Text.contains CR s.
Proof.
  unfold Text.contains.
  change (Text.find (String c s) CR)
    with (if Ascii.eqb "013" c && true then Some 0 else S <$> Text.find s CR).
  rewrite andb_true_r. destruct (Ascii.eqb "013" c); [reflexivity |].
  destruct (Text.find s CR); reflexivity.
Qed.

(** A text without a carriage return is read as it is. *)
Lemma universal_newlines_plain (s : string) :
  Text.contains CR s = false -> Text.universal_newlines s = s.
Proof.
  induction s as [|c s IH]; [reflexivity |]. rewrite contains_CR_cons.
  intros Hno. apply orb_false_iff in Hno as [Hc Hs]. simpl.
  rewrite Ascii.eqb_sym, Hc. now rewrite IH.
Qed.

Section More.
Context `{Runtime}.

(** X1.  Writing a file and reading it back: when the path passes the
    guard and names a regular file, or a name that is free in a directory
    that exists, [write_file] succeeds, and [read_file] on the same path
    then returns the content written with every carriage return, alone or
    before a line feed, read as a line feed; so it returns exactly the
    content written when that has no carriage return. *)
Theorem X1_write_then_read (requested content : string) (w : world) (p : path) :
  normalize_path requested w = (inr p, w) ->
  (exists c, fs_stat p (fs w) = inr (File c))
  \/ (exists parent name es,
        p = parent ++ [name] /\ fs_stat parent (fs w) = inr (Dir es)
        /\ entry name es = None) ->
  exists w',
    write_file {| WriteFileRequest.path := requested; WriteFileRequest.content := content |} w =
    (inr (SuccessResponse ("Successfully wrote to " +:+ requested)), w')
    /\ read_file {| ReadFileRequest.path := requested |} w' =
       (inr (ReadFileResponse (Text.universal_newlines content)), w')
    /\ (Text.contains CR content = false ->
        read_file {| ReadFileRequest.path := requested |} w' =
        (inr (ReadFileResponse content), w')).
Proof.
  intros Hguard Htarget.
  assert (Hrun : exists n', write_text p content (fs w) = inr n').
  { destruct Htarget as [[c Hfile] | (parent & name & es & -> & Hdir & Hfree)].
    - destruct (write_text_file p (fs w) c content Hfile) as (n' & Hrun & _). eauto.
    - eapply write_text_creates; eauto. }
  destruct Hrun as [n' Hrun].
  exists {| fs := n'; confirmation_file := confirmation_file w |}.
  assert (Hread : read_file {| ReadFileRequest.path := requested |}
                    {| fs := n'; confirmation_file := confirmation_file w |} =
                  (inr (ReadFileResponse (Text.universal_newlines content)),
                   {| fs := n'; confirmation_file := confirmation_file w |})).
  { unfold read_file. unfold bind at 1. simpl ReadFileRequest.path.
    rewrite (normalize_path_any_world _ _ _ _ _ Hguard).
    unfold try_except, bind, call, read_text. simpl fs.
    now rewrite (write_text_sets _ _ _ _ Hrun). }
  split; [| split; [exact Hread |]].
  - unfold write_file. unfold bind at 1. simpl WriteFileRequest.path. rewrite Hguard.
    unfold try_except, bind, update. simpl WriteFileRequest.content. now rewrite Hrun.
  - intros Hplain. rewrite Hread. now rewrite (universal_newlines_plain _ Hplain).
Qed.

(** X2.  When [write_file] fails it leaves everything as it was; and
    whatever it does, every path that does not pass through its target
    shows what it showed before. *)
Theorem X2_write_file_touches_only_target (data : WriteFileRequest.t) (w : world) :
  (forall e, fst (write_file data w) = inl e -> snd (write_file data w) = w)
  /\ forall p q,
       normalize_path (WriteFileRequest.path data) w = (inr p, w) ->
       is_prefix p q = false ->
       peek q (fs (snd (write_file data w))) = peek q (fs w).
Proof.
  pose proof (normalize_path_world (WriteFileRequest.path data) w) as Hw.
  destruct (normalize_path (WriteFileRequest.path data) w) as [[e|p] w0] eqn:Hguard;
    simpl in Hw; subst w0.
  - assert (Hres : write_file data w = (inl e, w))
      by (unfold write_file, bind; now rewrite Hguard).
    rewrite Hres. repeat split; reflexivity.
  - destruct (write_text p (WriteFileRequest.content data) (fs w)) as [e|n'] eqn:Hrun.
    + assert (Hres : exists e', write_file data w = (inl e', w)).
      { unfold write_file, try_except, bind, update. rewrite Hguard. cbv beta iota.
        rewrite Hrun. destruct e; eauto. }
      destruct Hres as [e' Hres]. rewrite Hres. repeat split; reflexivity.
    + assert (Hres : exists r, write_file data w =
                               (inr r, {| fs := n'; confirmation_file := confirmation_file w |})).
      { unfold write_file, try_except, bind, update. rewrite Hguard. cbv beta iota.
        rewrite Hrun. eauto. }
      destruct Hres as [r Hres]. rewrite Hres. repeat split; try reflexivity.
      * discriminate.
      * intros p0 q [= <-] Hq. simpl. eapply write_text_frame; eauto.
Qed.

(** X3.  [edit_file] is all or nothing: either it reports success, or the
    filesystem and the confirmation file are exactly as before, whichever
    edit failed and whether or not the run was a dry run. *)
Theorem X3_edit_file_all_or_nothing (data : EditFileRequest.t) (w : world) :
  (exists msg, fst (edit_file data w) = inr (SuccessResponse msg))
  \/ snd (edit_file data w) = w.
Proof.
  pose proof (normalize_path_world (EditFileRequest.path data) w) as Hw.
  destruct (normalize_path (EditFileRequest.path data) w) as [[e|p] w0] eqn:Hguard;
    simpl in Hw; subst w0.
  { right. unfold edit_file, bind. now rewrite Hguard. }
  destruct (read_text p (fs w)) as [e|original] eqn:Hread.
  { right. unfold edit_file. unfold bind at 1. rewrite Hguard.
    unfold bind at 1. unfold try_except at 1. unfold call. rewrite Hread.
    destruct e; reflexivity. }
  rewrite (edit_file_reads data w p original Hguard Hread).
  unfold try_except, edit_body, bind, update.
  destruct (apply_edits (EditFileRequest.edits data) original) as [e|modified];
    [right; destruct e; reflexivity |].
  destruct (EditFileRequest.dryRun data); [right; reflexivity |].
  destruct (write_text p modified (fs w)) as [e|n'].
  - right. destruct e; reflexivity.
  - left. eexists. reflexivity.
Qed.

(** ** What the handlers leave alone *)

Lemma keeps_world_ret {A : Type} (a : A) : keeps_world (ret a).
Proof. intros w. reflexivity. Qed.

Lemma keeps_world_raise {A : Type} (e : exn) : keeps_world (@raise A e).
Proof. intros w. reflexivity. Qed.

Lemma keeps_world_gets {A : Type} (f : node -> A) : keeps_world (gets f).
Proof. intros w. reflexivity. Qed.

Lemma keeps_world_call {A : Type} (f : node -> exn + A) : keeps_world (call f).
Proof. intros w. reflexivity. Qed.

Lemma keeps_world_bind {A B : Type} (m : M A) (k : A -> M B) :
  keeps_world m -> (forall a, keeps_world (k a)) -> keeps_world (bind m k).
Proof.
  intros Hm Hk w. unfold bind. specialize (Hm w).
  destruct (m w) as [[e|a] w']; simpl in Hm; subst w'; [reflexivity | apply Hk].
Qed.

Lemma keeps_world_try {A : Type} (m : M A) (h : exn -> M A) :
  keeps_world m -> (forall e, keeps_world (h e)) -> keeps_world (try_except m h).
Proof.
  intros Hm Hh w. unfold try_except. specialize (Hm w).
  destruct (m w) as [[e|a] w']; simpl in Hm; subst w'; [apply Hh | reflexivity].
Qed.

Lemma keeps_world_normalize_path (requested : string) :
  keeps_world (normalize_path requested).
Proof. intros w. apply normalize_path_world. Qed.

Ltac keeps_world_steps :=
  repeat (intros;
          match goal with
          | |- keeps_world (bind _ _) => apply keeps_world_bind
          | |- keeps_world (try_except _ _) => apply keeps_world_try
          | |- keeps_world (ret _) => apply keeps_world_ret
          | |- keeps_world (raise _) => apply keeps_world_raise
          | |- keeps_world (gets _) => apply keeps_world_gets
          | |- keeps_world (call _) => apply keeps_world_call
          | |- keeps_world (normalize_path _) => apply keeps_world_normalize_path
          | |- keeps_world (if ?b then _ else _) => destruct b
          | |- keeps_world (match ?x with _ => _ end) => destruct x
          end).

(** X4.  The handlers that only look at the filesystem ([read_file],
    [list_directory], [directory_tree], [search_files], [get_metadata],
    [search_content], [list_allowed_directories]) leave the filesystem and
    the confirmation file exactly as they were, whatever they answer. *)
Theorem X4_read_only_handlers_keep_world
    (t_load t_now : Z) (rnd : Byte.byte * Byte.byte * Byte.byte) (r : request) (w : world) :
  read_only r = true -> snd (handle t_load t_now rnd r w) = w.
Proof.
  intros Hro. revert w. change (keeps_world (handle t_load t_now rnd r)).
  destruct r; try discriminate; simpl;
    unfold read_file, list_directory, directory_tree, search_files, get_metadata,
      search_content, list_allowed_directories;
    keeps_world_steps.
Qed.

(** ** [create_directory] *)

Lemma set_entry_same (s : string) (c : node) (es : entries_t) :
  entry s es = Some c -> set_entry s c es = es.
Proof.
  induction es as [|[t c0] es IH]; simpl; [discriminate |].
  destruct (String.eqb s t) eqn:Hst.
  - apply String.eqb_eq in Hst as ->. now intros [= ->].
  - intros Hentry. now rewrite IH.
Qed.

Lemma path_is_dir_cons (s : string) (q : path) (es : entries_t) :
  path_is_dir (s :: q) (Dir es) =
  match entry s es with Some c => path_is_dir q c | None => false end.
Proof. unfold path_is_dir. simpl. destruct (entry s es); reflexivity. Qed.

(** A directory that exists is left as it is ([exist_ok=True]). *)
Lemma mkdir_p_existing (p : path) (n : node) (es : entries_t) :
  fs_stat p n = inr (Dir es) -> mkdir_p p n = inr n.
Proof.
  revert n. induction p as [|s p IH]; intros n Hstat; simpl in *.
  - now injection Hstat as ->.
  - destruct n as [c|es0]; [discriminate |].
    destruct (entry s es0) as [ch|] eqn:Hentry; [| discriminate].
    rewrite (IH ch Hstat). now rewrite (set_entry_same _ _ _ Hentry).
Qed.

(** After [mkdir_p] the path and all its ancestors are directories. *)
Lemma mkdir_p_dirs (p : path) (n n' : node) :
  mkdir_p p n = inr n' -> forall q, is_prefix q p = true -> path_is_dir q n' = true.
Proof.
  revert n n'. induction p as [|s p IH]; intros n n' Hrun q Hq; simpl in Hrun.
  - destruct q; [| discriminate]. destruct n; [discriminate |].
    now injection Hrun as <-.
  - destruct n as [c|es]; [discriminate |].
    destruct (mkdir_p p match entry s es with Some c => c | None => Dir [] end)
      as [e|c'] eqn:Hsub; [discriminate |].
    injection Hrun as <-. destruct q as [|t q]; [reflexivity |].
    simpl in Hq. apply andb_true_iff in Hq as [Hts Hq].
    apply String.eqb_eq in Hts as ->.
    rewrite path_is_dir_cons, entry_set_entry_eq. eapply IH; eauto.
Qed.

(** What existed before [mkdir_p] is still there, unchanged. *)
Lemma mkdir_p_keeps (p : path) (n n' : node) :
  mkdir_p p n = inr n' ->
  forall q x, peek q n = inr x -> peek q n' = inr x.
Proof.
  revert n n'. induction p as [|s p IH]; intros n n' Hrun q x Hq; simpl in Hrun.
  - destruct n; [discriminate |]. now injection Hrun as <-.
  - destruct n as [c|es]; [discriminate |].
    destruct (mkdir_p p match entry s es with Some c => c | None => Dir [] end)
      as [e|c'] eqn:Hsub; [discriminate |].
    injection Hrun as <-. destruct q as [|t q]; [exact Hq |].
    rewrite peek_cons in *. destruct (String.eqb s t) eqn:Hst.
    + apply String.eqb_eq in Hst as <-. rewrite entry_set_entry_eq.
      destruct (entry s es) as [ch|]; [| discriminate]. eapply IH; eauto.
    + apply String.eqb_neq in Hst. rewrite entry_set_entry_ne by congruence. exact Hq.
Qed.

(** Nothing but a regular file on the path stops [mkdir_p]. *)
Lemma mkdir_p_runs (p : path) (n : node) :
  (forall q c, is_prefix q p = true -> fs_stat q n <> inr (File c)) ->
  exists n', mkdir_p p n = inr n'.
Proof.
  revert n. induction p as [|s p IH]; intros n Hfree; simpl.
  - destruct n as [c|es]; [| eauto]. now destruct (Hfree [] c eq_refl).
  - destruct n as [c|es]; [now destruct (Hfree [] c eq_refl) |].
    destruct (IH match entry s es with Some c => c | None => Dir [] end) as [c' ->];
      [| eauto].
    intros q c Hq Hfile. destruct (entry s es) as [ch|] eqn:Hentry.
    + apply (Hfree (s :: q) c); simpl; [now rewrite String.eqb_refl | now rewrite Hentry].
    + destruct q; simpl in Hfile; discriminate.
Qed.

Lemma mkdir_p_blocked (p q : path) (n : node) (c : string) :
  is_prefix q p = true -> fs_stat q n = inr (File c) ->
  mkdir_p p n = inl NotADirectoryError \/ mkdir_p p n = inl FileExistsError.
Proof.
  revert q n. induction p as [|s p IH]; intros q n Hq Hfile.
  - destruct q; [| discriminate]. simpl in Hfile. injection Hfile as ->. now right.
  - destruct q as [|t q].
    + simpl in Hfile. injection Hfile as ->. now left.
    + simpl in Hq. apply andb_true_iff in Hq as [Hts Hq].
      apply String.eqb_eq in Hts as ->. simpl in Hfile.
      destruct n as [c0|es]; [discriminate |].
      destruct (entry s es) as [ch|] eqn:Hentry; [| discriminate].
      simpl. rewrite Hentry.
      destruct (IH q ch Hq Hfile) as [-> | ->]; auto.
Qed.

(** X6.  When the path passes the guard and neither it nor any of its
    ancestors is a regular file, [create_directory] succeeds; afterwards
    the path and every ancestor of it are directories, every file and
    directory that existed before is still there with the same content,
    and the confirmation file is untouched.  If the path already is a
    directory, nothing changes at all. *)
Theorem X6_create_directory_makes_directories
    (data : CreateDirectoryRequest.t) (w : world) (p : path) :
  normalize_path (CreateDirectoryRequest.path data) w = (inr p, w) ->
  (forall q c, is_prefix q p = true -> fs_stat q (fs w) <> inr (File c)) ->
  exists n',
    create_directory data w =
    (inr (SuccessResponse
            ("Successfully created directory " +:+ CreateDirectoryRequest.path data)),
     {| fs := n'; confirmation_file := confirmation_file w |})
    /\ (forall q, is_prefix q p = true -> path_is_dir q n' = true)
    /\ (forall q x, peek q (fs w) = inr x -> peek q n' = inr x)
    /\ (path_is_dir p (fs w) = true -> n' = fs w).
Proof.
  intros Hguard Hfree. destruct (mkdir_p_runs p (fs w) Hfree) as [n' Hrun].
  exists n'. split; [| split; [| split]].
  - unfold create_directory, try_except, bind, update. rewrite Hguard. cbv beta iota.
    now rewrite Hrun.
  - eapply mkdir_p_dirs; eauto.
  - eapply mkdir_p_keeps; eauto.
  - unfold path_is_dir. destruct (fs_stat p (fs w)) as [e|[c|es]] eqn:Hstat; try discriminate.
    intros _. rewrite (mkdir_p_existing _ _ _ Hstat) in Hrun. congruence.
Qed.

(** X7.  When the path passes the guard but it, or one of its ancestors,
    is a regular file, [create_directory] fails with status 500 and
    changes nothing. *)
Theorem X7_create_directory_blocked_by_file
    (data : CreateDirectoryRequest.t) (w : world) (p q : path) (c : string) :
  normalize_path (CreateDirectoryRequest.path data) w = (inr p, w) ->
  is_prefix q p = true -> fs_stat q (fs w) = inr (File c) ->
  exists e,
    (e = NotADirectoryError \/ e = FileExistsError)
    /\ create_directory data w =
       (inl (HTTPException 500
               (Msg ("Failed to create directory " +:+ CreateDirectoryRequest.path data
                     +:+ ": " +:+ exn_str e))),
        w).
Proof.
  intros Hguard Hq Hfile.
  destruct (mkdir_p_blocked p q (fs w) c Hq Hfile) as [Hrun | Hrun];
    [exists NotADirectoryError | exists FileExistsError];
    (split; [auto |]);
    unfold create_directory, try_except, bind, update; rewrite Hguard; cbv beta iota;
    now rewrite Hrun.
Qed.

(** ** [list_directory] and [directory_tree] *)

Lemma tree_of_Dir (s : string) (l : entries_t) :
  tree_of s (Dir l) = TreeDir s (build_tree l).
Proof.
  simpl. f_equal. unfold build_tree.
  induction l as [|[t c] l IH]; [reflexivity |]. simpl. now rewrite IH.
Qed.

Lemma tree_name_tree_of (s : string) (n : node) : tree_name (tree_of s n) = s.
Proof. destruct n; reflexivity. Qed.

Lemma tree_type_tree_of (s : string) (n : node) : tree_type (tree_of s n) = entry_type n.
Proof. destruct n; reflexivity. Qed.

Lemma tree_find_build_tree (s : string) (es : entries_t) :
  tree_find s (build_tree es) = tree_of s <$> entry s es.
Proof.
  unfold build_tree. induction es as [|[t c] es IH]; [reflexivity |].
  simpl. rewrite tree_name_tree_of. destruct (String.eqb s t) eqn:Hst; [| exact IH].
  apply String.eqb_eq in Hst as ->. reflexivity.
Qed.

(** The tree of [directory_tree] holds, at every relative path, the entry
    of the node the filesystem has there. *)
Lemma tree_at_build_tree (q : path) (es : entries_t) :
  q <> [] ->
  tree_at q (build_tree es) =
  match fs_stat q (Dir es) with
  | inr n => Some (tree_of (List.last q EmptyString) n)
  | inl _ => None
  end.
Proof.
  revert es. induction q as [|s q IH]; intros es Hq; [congruence |].
  simpl tree_at. rewrite tree_find_build_tree. simpl fs_stat.
  destruct (entry s es) as [c|]; simpl; [| reflexivity].
  destruct q as [|t q]; [destruct c; reflexivity |].
  destruct c as [c|l].
  - reflexivity.
  - rewrite tree_of_Dir. rewrite IH by discriminate. reflexivity.
Qed.

Lemma fs_stat_app (p q : path) (n : node) :
  fs_stat (p ++ q) n =
  match fs_stat p n with inr m => fs_stat q m | inl e => inl e end.
Proof.
  revert n. induction p as [|s p IH]; intros n; [reflexivity |].
  simpl. destruct n as [c|es]; [reflexivity |].
  destruct (entry s es); [apply IH | reflexivity].
Qed.

Lemma directory_tree_run (data : DirectoryTreeRequest.t) (w : world) (base : path) :
  normalize_path (DirectoryTreeRequest.path data) w = (inr base, w) ->
  directory_tree data w =
  match fs_stat base (fs w) with
  | inr (Dir es) => (inr (TreeResponse (build_tree es)), w)
  | inr (File _) => (inl NotADirectoryError, w)
  | inl e => (inl e, w)
  end.
Proof.
  intros Hguard. unfold directory_tree, bind, call, iterdir. rewrite Hguard.
  cbv beta iota. destruct (fs_stat base (fs w)) as [e|[c|es]]; reflexivity.
Qed.

(** X8.  On a directory, [list_directory] returns one name and type per
    entry, in the order of the directory, and the top level of
    [directory_tree] carries the same names and types in the same order.
    On a path that is no directory the two differ: [list_directory]
    answers 400 "Provided path is not a directory", while
    [directory_tree] lets the [NotADirectoryError] or
    [FileNotFoundError] of [iterdir] escape unhandled.  Neither changes
    anything. *)
Theorem X8_listing_and_tree_agree
    (requested : string) (w : world) (base : path) :
  normalize_path requested w = (inr base, w) ->
  let listed := list_directory {| ListDirectoryRequest.path := requested |} w in
  let tree := directory_tree {| DirectoryTreeRequest.path := requested |} w in
  match fs_stat base (fs w) with
  | inr (Dir es) =>
      listed = (inr (ListingResponse (map (fun e => (fst e, entry_type (snd e))) es)), w)
      /\ exists t,
           tree = (inr (TreeResponse t), w)
           /\ map (fun x => (tree_name x, tree_type x)) t =
              map (fun e => (fst e, entry_type (snd e))) es
  | inr (File _) =>
      listed = (inl (HTTPException 400 (Msg "Provided path is not a directory")), w)
      /\ tree = (inl NotADirectoryError, w)
  | inl e =>
      listed = (inl (HTTPException 400 (Msg "Provided path is not a directory")), w)
      /\ tree = (inl e, w)
  end.
Proof.
  intros Hguard listed tree. subst listed tree.
  rewrite (directory_tree_run {| DirectoryTreeRequest.path := requested |} w base Hguard).
  unfold list_directory, bind, gets, call, iterdir, path_is_dir.
  simpl ListDirectoryRequest.path. rewrite Hguard. cbv beta iota.
  destruct (fs_stat base (fs w)) as [e|[c|es]] eqn:Hstat; cbn -[fs_stat build_tree];
    rewrite ?Hstat; try (split; reflexivity).
  split; [reflexivity |]. eexists. split; [reflexivity |].
  unfold build_tree. rewrite map_map. apply map_ext. intros [s c].
  simpl. now rewrite tree_name_tree_of, tree_type_tree_of.
Qed.

(** X9.  The tree [directory_tree] returns mirrors the filesystem below
    the base directory: following a relative path through the
    ["children"] fields leads to an entry exactly when the filesystem has
    a node at that path below the base, and the entry then carries the
    node's name and its type, ["directory"] or ["file"]. *)
Theorem X9_directory_tree_mirrors
    (data : DirectoryTreeRequest.t) (w : world) (base : path) (es : entries_t) :
  normalize_path (DirectoryTreeRequest.path data) w = (inr base, w) ->
  fs_stat base (fs w) = inr (Dir es) ->
  exists t,
    directory_tree data w = (inr (TreeResponse t), w)
    /\ forall q, q <> [] ->
         match fs_stat (base ++ q) (fs w) with
         | inr n =>
             exists x, tree_at q t = Some x
                       /\ tree_name x = List.last q EmptyString
                       /\ tree_type x = entry_type n
         | inl _ => tree_at q t = None
         end.
Proof.
  intros Hguard Hdir. exists (build_tree es). split.
  - now rewrite (directory_tree_run _ w base Hguard), Hdir.
  - intros q Hq. rewrite fs_stat_app, Hdir, (tree_at_build_tree q es Hq).
    destruct (fs_stat q (Dir es)) as [e|n]; [reflexivity |].
    eexists. split; [reflexivity |].
    now rewrite tree_name_tree_of, tree_type_tree_of.
Qed.

(** ** The searches *)

Lemma lower_char_idempotent (c : ascii) :
  Text.lower_char (Text.lower_char c) = Text.lower_char c.
Proof.
  destruct c as [[] [] [] [] [] [] [] []]; vm_compute; reflexivity.
Qed.

Lemma lower_idempotent (s : string) : Text.lower (Text.lower s) = Text.lower s.
Proof.
  induction s as [|c s IH]; [reflexivity |].
  unfold Text.lower in *. simpl. now rewrite lower_char_idempotent, IH.
Qed.

Lemma search_loop_same_lower (data data' : SearchFilesRequest.t)
    (walk : list (path * list string * list string)) (results : list string) :
  SearchFilesRequest.excludePatterns data = SearchFilesRequest.excludePatterns data' ->
  Text.lower (SearchFilesRequest.pattern data) =
  Text.lower (SearchFilesRequest.pattern data') ->
  search_loop data walk results = search_loop data' walk results.
Proof.
  intros Hexcl Hlower. revert results.
  induction walk as [|[[root dirs] files] walk IH]; intros results; [reflexivity |].
  simpl. rewrite <- Hexcl.
  destruct (SearchFilesRequest.excludePatterns data) as [patterns|]; [| reflexivity].
  unfold matches_at. rewrite <- Hlower.
  destruct (excluded_by root patterns) as [e|[|]]; [reflexivity | apply IH | apply IH].
Qed.

(** X10.  [search_files] is insensitive to the case of its pattern: two
    requests that differ only in a pattern with the same lower-casing get
    the same answer, so a pattern can be replaced by its lower-casing. *)
Theorem X10_search_pattern_case_insensitive
    (requested pattern pattern' : string) (exclude : option (list string)) (w : world) :
  Text.lower pattern = Text.lower pattern' ->
  let search p :=
    search_files {| SearchFilesRequest.path := requested;
                    SearchFilesRequest.pattern := p;
                    SearchFilesRequest.excludePatterns := exclude |} w in
  search pattern = search pattern' /\ search pattern = search (Text.lower pattern).
Proof.
  intros Hlower search.
  assert (Hsame : forall p p', Text.lower p = Text.lower p' -> search p = search p').
  { intros p p' Hpp. subst search. unfold search_files, bind, call. cbv beta.
    simpl SearchFilesRequest.path.
    destruct (normalize_path requested w) as [[e|base] w0]; [reflexivity |].
    now rewrite (search_loop_same_lower
                   {| SearchFilesRequest.path := requested;
                      SearchFilesRequest.pattern := p;
                      SearchFilesRequest.excludePatterns := exclude |}
                   {| SearchFilesRequest.path := requested;
                      SearchFilesRequest.pattern := p';
                      SearchFilesRequest.excludePatterns := exclude |}
                   _ [] eq_refl Hpp). }
  split; [apply Hsame, Hlower | apply Hsame; now rewrite lower_idempotent].
Qed.

Lemma in_matching_lines (item_path : path) (query : string) (first : nat)
    (lines : list string) (m : ContentMatch) :
  In m (matching_lines item_path query first lines) <->
  exists i line,
    nth_error lines i = Some line
    /\ Text.contains query (Text.lower line) = true
    /\ m = {| file_path := path_str item_path; line_number := first + i;
              line_content := strip line |}.
Proof.
  revert first. induction lines as [|l lines IH]; intros first; simpl.
  - split; [intros [] | intros ([|i] & line & Hnth & _); discriminate].
  - rewrite in_app_iff, IH. split.
    + intros [Hhere | (i & line & Hnth & Hsub & ->)].
      * destruct (Text.contains query (Text.lower l)) eqn:Hsub; [| destruct Hhere].
        destruct Hhere as [<- | []]. exists 0, l.
        rewrite Nat.add_0_r. auto.
      * exists (S i), line. rewrite Nat.add_succ_r. auto.
    + intros ([|i] & line & Hnth & Hsub & ->); simpl in Hnth.
      * injection Hnth as ->. left. rewrite Hsub, Nat.add_0_r. left. reflexivity.
      * right. exists i, line. rewrite Nat.add_succ_r. auto.
Qed.

(** X11.  On a directory that passes the guard, [search_content] hands
    its [file_pattern] to [glob], or to [rglob] when [recursive] is set.
    When that raises, as it does on a pattern the library does not accept,
    the exception leaves the handler uncaught.  Otherwise the handler
    reports exactly the lines that contain the lower-cased query in their
    lower-casing, in the paths the glob yields that are files and can be
    read: each with the file's path, the line's number counted from 1, and
    the line with the white space at both ends stripped; with no such line
    the answer is the no-match sentinel.  Nothing is changed. *)
Theorem X11_search_content_matches
    (data : SearchContentRequest.t) (w : world) (base : path) :
  normalize_path (SearchContentRequest.path data) w = (inr base, w) ->
  path_is_dir base (fs w) = true ->
  match path_glob (SearchContentRequest.recursive data) base
          (SearchContentRequest.file_pattern data) (fs w) with
  | inl e => search_content data w = (inl e, w)
  | inr items =>
      exists results : list ContentMatch,
        search_content data w =
        (inr match results with
             | [] => NoMatchesResponse
             | _ => ContentMatchesResponse results
             end, w)
        /\ forall m : ContentMatch,
             In m results <->
             exists (item : path) (text : string) (i : nat) (line : string),
               In item items
               /\ read_text item (fs w) = inr text
               /\ nth_error (file_lines_from EmptyString text) i = Some line
               /\ Text.contains (Text.lower (SearchContentRequest.search_query data))
                    (Text.lower line) = true
               /\ m = {| file_path := path_str item; line_number := S i;
                         line_content := strip line |}
  end.
Proof.
  intros Hguard Hdir.
  destruct (path_glob (SearchContentRequest.recursive data) base
              (SearchContentRequest.file_pattern data) (fs w)) as [e|items] eqn:Hglob.
  - unfold search_content, bind, gets, call. rewrite Hguard. cbv beta iota.
    rewrite Hdir. change (negb true) with false. cbv beta iota. now rewrite Hglob.
  - eexists. split.
    + unfold search_content, bind, gets, call. rewrite Hguard. cbv beta iota.
      rewrite Hdir. change (negb true) with false. cbv beta iota. rewrite Hglob. reflexivity.
    + intros m. rewrite in_flat_map. split.
      * intros (item & Hitem & Hm).
        destruct (read_text item (fs w)) as [e|text] eqn:Hread; [destruct Hm |].
        apply in_matching_lines in Hm as (i & line & Hnth & Hsub & ->).
        exists item, text, i, line. auto.
      * intros (item & text & i & line & Hitem & Hread & Hnth & Hsub & ->).
        exists item. split; [exact Hitem |]. rewrite Hread.
        apply in_matching_lines. exists i, line. auto.
Qed.

(** ** Errors raised inside a [try] block *)

(** X12.  When both paths pass the guard but the source does not exist,
    [move_path] raises its 404 "Source path not found" inside the [try]
    block, whose [except Exception] clause turns it into status 500
    "Failed to move"; nothing is moved. *)
Theorem X12_move_missing_source
    (data : MovePathRequest.t) (w : world) (source destination : path) :
  normalize_path (MovePathRequest.source_path data) w = (inr source, w) ->
  normalize_path (MovePathRequest.destination_path data) w = (inr destination, w) ->
  path_exists source (fs w) = false ->
  move_path data w =
  (inl (HTTPException 500
          (Msg ("Failed to move '" +:+ MovePathRequest.source_path data +:+ "' to '"
                +:+ MovePathRequest.destination_path data +:+ "': "
                +:+ exn_str
                      (HTTPException 404
                         (Msg ("Source path not found: "
                               +:+ MovePathRequest.source_path data)))))),
   w).
Proof.
  intros Hsource Hdestination Hmissing.
  unfold move_path. unfold bind at 1. rewrite Hsource.
  unfold bind at 1. rewrite Hdestination.
  unfold try_except, bind, gets. now rewrite Hmissing.
Qed.

(** X13.  [get_metadata] on a path that passes the guard: when nothing is
    there, the 404 "Path not found" raised inside the [try] block leaves as
    status 500; when a node is there, the answer carries the resolved
    path, the type ["file"] or ["directory"] of the node, the size and
    times of [stat], and as creation time the birth time when the platform
    has one and the metadata-change time otherwise.  Nothing is changed. *)
Theorem X13_get_metadata_answers
    (data : GetMetadataRequest.t) (w : world) (p : path) :
  normalize_path (GetMetadataRequest.path data) w = (inr p, w) ->
  get_metadata data w =
  match fs_stat p (fs w) with
  | inr n =>
      (inr (MetadataResponse
              {| md_path := path_str p;
                 md_type := entry_type n;
                 size_bytes := st_size (os_stat p (fs w));
                 modification_time_utc := st_mtime (os_stat p (fs w));
                 creation_time_utc :=
                   default (st_ctime (os_stat p (fs w))) (st_birthtime (os_stat p (fs w)));
                 last_metadata_change_time_utc := st_ctime (os_stat p (fs w)) |}), w)
  | inl _ =>
      (inl (HTTPException 500
              (Msg ("Failed to get metadata for " +:+ GetMetadataRequest.path data +:+ ": "
                    +:+ exn_str
                          (HTTPException 404
                             (Msg ("Path not found: " +:+ GetMetadataRequest.path data)))))),
       w)
  end.
Proof.
  intros Hguard. unfold get_metadata. unfold bind at 1. rewrite Hguard.
  unfold try_except, bind, gets, path_exists, path_is_file, path_is_dir, entry_type.
  cbv beta iota.
  destruct (fs_stat p (fs w)) as [e|[c|es]] eqn:Hstat;
    repeat (cbn -[os_stat fs_stat]; rewrite ?Hstat);
    destruct (st_birthtime (os_stat p (fs w))); reflexivity.
Qed.

(** X14.  A token accepted for a target that has vanished in the meantime
    is consumed all the same, and the 404 "Path not found" raised inside
    the [try] block leaves as status 500; the filesystem stays as it
    was. *)
Theorem X14_confirmed_delete_of_vanished_target
    (t_load t_now : Z) (rnd : Byte.byte * Byte.byte * Byte.byte)
    (data : DeletePathRequest.t) (w : world) (p : path) (token : string) (c : Confirmation) :
  DeletePathRequest.confirmation_token data = Some token -> token <> EmptyString ->
  normalize_path (DeletePathRequest.path data) w = (inr p, w) ->
  stored w !! token = Some c ->
  (t_load < conf_expiry c)%Z -> (t_now <= conf_expiry c)%Z ->
  conf_path c = DeletePathRequest.path data ->
  conf_recursive c = DeletePathRequest.recursive data ->
  path_exists p (fs w) = false ->
  delete_path t_load t_now rnd data w =
  (inl (HTTPException 500
          (Msg ("Failed to delete " +:+ DeletePathRequest.path data +:+ ": "
                +:+ exn_str
                      (HTTPException 404
                         (Msg ("Path not found: " +:+ DeletePathRequest.path data)))))),
   saved (delete token (live t_load w)) w).
Proof.
  intros Htoken Hne Hguard Hstored Hlive Hnow Hpath Hrec Hmissing.
  rewrite (delete_path_accepted _ _ rnd _ _ _ _ _ Htoken Hne Hguard Hstored Hlive Hnow
             Hpath Hrec).
  unfold delete_target, try_except, bind, gets. cbn -[path_exists]. now rewrite Hmissing.
Qed.

(** ** Confirmation tokens *)

Lemma hex_of_byte_digits (b : Byte.byte) :
  all_chars is_hex_digit (Text.hex_of_byte b) = true.
Proof. destruct b; vm_compute; reflexivity. Qed.

Lemma hex_of_byte_shape (b : Byte.byte) :
  Text.hex_of_byte b =
  String (Text.hex_digit (Byte.to_N b / 16))
    (String (Text.hex_digit (Byte.to_N b mod 16)) EmptyString).
Proof. reflexivity. Qed.

Lemma new_token_shape (b0 b1 b2 : Byte.byte) :
  new_token (b0, b1, b2) =
  Text.hex_of_byte b0 +:+ Text.hex_of_byte b1
  +:+ String (Text.hex_digit (Byte.to_N b2 / 16)) EmptyString.
Proof.
  unfold new_token, Text.hexlify, Text.join. simpl.
  rewrite !hex_of_byte_shape. reflexivity.
Qed.

Lemma new_token_not_empty (rnd : Byte.byte * Byte.byte * Byte.byte) :
  new_token rnd <> EmptyString.
Proof.
  destruct rnd as [[b0 b1] b2]. rewrite new_token_shape, hex_of_byte_shape.
  norm_append. discriminate.
Qed.

(** X16.  A new token is five lower-case hexadecimal digits, so it is
    never the empty text and a request that carries it always goes to the
    second phase; and it does not depend on the low four bits of the third
    random byte: twenty random bits name a token, not twenty-four. *)
Theorem X16_new_token_shape (b0 b1 b2 b2' : Byte.byte) :
  String.length (new_token (b0, b1, b2)) = 5
  /\ all_chars is_hex_digit (new_token (b0, b1, b2)) = true
  /\ truthy (Some (new_token (b0, b1, b2))) = true
  /\ ((Byte.to_N b2 / 16 = Byte.to_N b2' / 16)%N ->
      new_token (b0, b1, b2) = new_token (b0, b1, b2')).
Proof.
  pose proof (new_token_shape b0 b1) as Hshape.
  pose proof (hex_of_byte_digits b0) as H0.
  pose proof (hex_of_byte_digits b1) as H1.
  pose proof (hex_of_byte_digits b2) as H2.
  rewrite hex_of_byte_shape in H0, H1, H2. simpl in H0, H1, H2.
  apply andb_true_iff in H0 as [H00 H0]. apply andb_true_iff in H0 as [H01 _].
  apply andb_true_iff in H1 as [H10 H1]. apply andb_true_iff in H1 as [H11 _].
  apply andb_true_iff in H2 as [H20 _].
  rewrite Hshape, !hex_of_byte_shape. norm_append.
  split; [reflexivity |]. split; [| split; [reflexivity |]].
  - simpl. now rewrite H00, H01, H10, H11, H20.
  - intros Hhigh. rewrite Hshape, !hex_of_byte_shape. norm_append. now rewrite Hhigh.
Qed.

(** ** The two phases end to end *)

(** X17.  A first-phase request on a target that exists returns a token
    that expires [CONFIRMATION_TTL_SECONDS] after the handler's clock
    reading, and removes nothing.  Presented with the same path and flag
    while both clock readings of the second request are within that time,
    the token is accepted, and a target that is a file, an empty
    directory, or a directory with [recursive] set is removed.  Once the
    clock reading of the load has reached the expiry, the token is refused
    as an invalid one and nothing changes. *)
Theorem X17_token_honoured_until_expiry
    (t0 t0' : Z) (rnd : Byte.byte * Byte.byte * Byte.byte)
    (requested : string) (recursive : bool) (w : world) (p : path) :
  normalize_path requested w = (inr p, w) ->
  path_exists p (fs w) = true ->
  let expiry := (t0' + timedelta_seconds CONFIRMATION_TTL_SECONDS)%Z in
  let confirm := delete_request requested recursive (Some (new_token rnd)) in
  exists (msg : string) (w1 : world),
    delete_path t0 t0' rnd (delete_request requested recursive None) w =
    (inr (ConfirmationRequiredResponse msg (new_token rnd) expiry), w1)
    /\ fs w1 = fs w
    /\ (forall t1 t1' rnd',
          (t1 < expiry)%Z -> (t1' <= expiry)%Z ->
          deletable p recursive (fs w) = true ->
          exists (msg' : string) (w2 : world),
            delete_path t1 t1' rnd' confirm w1 = (inr (SuccessResponse msg'), w2)
            /\ removed p (fs w) (fs w2))
    /\ (forall t1 t1' rnd',
          (expiry <= t1)%Z ->
          delete_path t1 t1' rnd' confirm w1 = (inl invalid_token, w1)).
Proof.
  intros Hguard Hexists expiry confirm.
  set (record := {| conf_path := requested; conf_recursive := recursive;
                    conf_expiry := expiry |}).
  set (w1 := saved (<[new_token rnd := record]> (live t0 w)) w).
  exists ("`Confirm deletion of file: " +:+ requested +:+ " with token "
          +:+ new_token rnd +:+ "`"), w1.
  assert (Hstored : stored w1 !! new_token rnd = Some record)
    by (subst w1; rewrite stored_saved; apply lookup_insert_eq).
  assert (Hguard1 : normalize_path requested w1 = (inr p, w1))
    by (eapply normalize_path_any_world; eauto).
  split; [| split; [reflexivity | split]].
  - rewrite (delete_path_first_phase t0 t0' rnd
               (delete_request requested recursive None) w p eq_refl Hguard).
    now rewrite Hexists.
  - intros t1 t1' rnd' Hlive Hnow Hdel.
    destruct (accepted_token_outcome t1 t1' rnd' confirm w1 (new_token rnd) record p
                eq_refl (new_token_not_empty rnd) Hguard1 Hstored Hlive Hnow
                eq_refl eq_refl)
      as (r & w2 & Hrun & _ & Hok & _).
    destruct (Hok Hdel) as [[msg' ->] Hgone]. eauto.
  - intros t1 t1' rnd' Hlate.
    rewrite (delete_path_second_phase t1 t1' rnd' confirm w1 p (new_token rnd)
               eq_refl (new_token_not_empty rnd) Hguard1).
    destruct (live t1 w1 !! new_token rnd) as [c|] eqn:Hlookup; [| reflexivity].
    apply live_lookup_Some in Hlookup as [Hc Hlive].
    assert (c = record) as -> by congruence. simpl in Hlive. lia.
Qed.

(** X18.  Tokens do not survive a restart: once the start-up clean-up
    has removed the confirmation file, every request that carries a token and passes the guard is answered
    "Invalid or expired confirmation token", whatever was pending before,
    and changes nothing. *)
Theorem X18_restart_forgets_tokens
    (t_load t_now : Z) (rnd : Byte.byte * Byte.byte * Byte.byte)
    (data : DeletePathRequest.t) (w : world) (p : path) (token : string) :
  DeletePathRequest.confirmation_token data = Some token -> token <> EmptyString ->
  normalize_path (DeletePathRequest.path data) w = (inr p, w) ->
  delete_path t_load t_now rnd data (startup w) = (inl invalid_token, startup w).
Proof.
  intros Htoken Hne Hguard.
  rewrite (delete_path_second_phase _ _ _ _ _ _ _ Htoken Hne
             (normalize_path_any_world _ _ _ (startup w) _ Hguard)).
  destruct (live t_load (startup w) !! token) as [c|] eqn:Hlookup; [| reflexivity].
  apply live_lookup_Some in Hlookup as [Hc _]. unfold stored in Hc. simpl in Hc.
  rewrite lookup_empty in Hc. discriminate.
Qed.

(** ** The path guard *)

Lemma lower_append (a b : string) : Text.lower (a +:+ b) = Text.lower a +:+ Text.lower b.
Proof.
  unfold Text.lower. induction a as [|c a IH]; norm_append; [reflexivity |].
  simpl. norm_append. now rewrite IH.
Qed.

Lemma startswith_append_l (a b x : string) :
  Text.startswith a x = true -> Text.startswith (a +:+ b) x = true.
Proof.
  intros Hax. rewrite (startswith_split a x Hax), append_assoc.
  apply startswith_append.
Qed.

Lemma join_app (l1 l2 : list string) :
  Text.join (l1 ++ l2) = Text.join l1 +:+ Text.join l2.
Proof.
  unfold Text.join. induction l1 as [|x l1 IH]; simpl; [reflexivity |].
  now rewrite IH, append_assoc.
Qed.

(** The text of a path beneath [p] starts with the text of [p]. *)
Lemma path_str_extends (p q : path) :
  exists rest, path_str (p ++ q) = path_str p +:+ rest.
Proof.
  destruct p as [|s p].
  - destruct q as [|t q]; [exists EmptyString; reflexivity |].
    exists (t +:+ Text.join (map (String.append "/") q)). reflexivity.
  - exists (Text.join (map (String.append "/") q)).
    change (path_str ((s :: p) ++ q))
      with (Text.join (map (String.append "/") ((s :: p) ++ q))).
    now rewrite map_app, join_app.
Qed.

(** X19.  The guard accepts everything beneath what it accepts: when a
    requested path is accepted, so is every requested path that resolves
    to a path below it. *)
Theorem X19_guard_accepts_descendants
    (requested requested' : string) (w : world) (p q : path) :
  normalize_path requested w = (inr p, w) ->
  resolve requested' = p ++ q ->
  normalize_path requested' w = (inr (p ++ q), w).
Proof.
  intros Hguard Hbelow. apply normalize_path_inv in Hguard as (Hyes & -> & _).
  rewrite <- Hbelow. apply normalize_path_accepts. rewrite Hbelow.
  apply existsb_exists in Hyes as (allowed & Hin & Hallows).
  apply existsb_exists. exists allowed. split; [exact Hin |].
  unfold allows in *. destruct (path_str_extends (resolve requested) q) as [rest ->].
  rewrite lower_append. now apply startswith_append_l.
Qed.

(** ** Edge cases of the handlers *)


Lemma os_walk_not_empty (top : path) (es : entries_t) :
  exists t rest, os_walk top (Dir es) = t :: rest.
Proof. rewrite os_walk_Dir. eauto. Qed.

(** X23.  The two searches treat a base path that is no directory
    differently: [search_files] answers with the "No matches found"
    sentinel, whatever its patterns, because [os.walk] yields nothing,
    while [search_content] answers 400 "Provided path is not a directory".
    And on a directory, [search_files] with [excludePatterns] given as
    null raises a [TypeError] that no handler catches. *)
Theorem X23_search_base_not_a_directory
    (requested pattern query : string) (exclude : option (list string))
    (recursive : bool) (file_pattern : option string) (w : world) (base : path) :
  normalize_path requested w = (inr base, w) ->
  (path_is_dir base (fs w) = false ->
   search_files {| SearchFilesRequest.path := requested;
                   SearchFilesRequest.pattern := pattern;
                   SearchFilesRequest.excludePatterns := exclude |} w =
   (inr (MatchesResponse ["No matches found"]), w)
   /\ search_content {| SearchContentRequest.path := requested;
                        SearchContentRequest.search_query := query;
                        SearchContentRequest.recursive := recursive;
                        SearchContentRequest.file_pattern := file_pattern |} w =
      (inl (HTTPException 400 (Msg "Provided path is not a directory")), w))
  /\ (path_is_dir base (fs w) = true ->
      search_files {| SearchFilesRequest.path := requested;
                      SearchFilesRequest.pattern := pattern;
                      SearchFilesRequest.excludePatterns := None |} w =
      (inl TypeError, w)).
Proof.
  intros Hguard. unfold path_is_dir. split; intros Hdir.
  - split.
    + unfold search_files, bind, call, walk_from. simpl SearchFilesRequest.path.
      rewrite Hguard. cbv beta iota.
      destruct (fs_stat base (fs w)) as [e|[c|es]]; try discriminate; reflexivity.
    + unfold search_content, bind, gets, path_is_dir. simpl SearchContentRequest.path.
      rewrite Hguard. cbv beta iota.
      destruct (fs_stat base (fs w)) as [e|[c|es]]; try discriminate; reflexivity.
  - unfold search_files, bind, call, walk_from. simpl SearchFilesRequest.path.
    rewrite Hguard. cbv beta iota.
    destruct (fs_stat base (fs w)) as [e|[c|es]]; try discriminate.
    destruct (os_walk_not_empty base es) as ([[root dirs] files] & rest & ->).
    reflexivity.
Qed.

(** X24.  An edit request with no edits is not a no-op: when the file can
    be read, the request succeeds and rewrites the file with every
    carriage return, alone or before a line feed, turned into a line
    feed.  A file without a carriage return keeps its content. *)
Theorem X24_edit_without_edits_rewrites
    (requested : string) (w : world) (p : path) (c : string) :
  normalize_path requested w = (inr p, w) ->
  fs_stat p (fs w) = inr (File c) ->
  exists n',
    edit_file {| EditFileRequest.path := requested; EditFileRequest.edits := [];
                 EditFileRequest.dryRun := false |} w =
    (inr (SuccessResponse ("Successfully edited file " +:+ requested)),
     {| fs := n'; confirmation_file := confirmation_file w |})
    /\ fs_stat p n' = inr (File (Text.universal_newlines c))
    /\ (Text.contains CR c = false -> fs_stat p n' = inr (File c)).
Proof.
  intros Hguard Hfile.
  destruct (write_text_file p (fs w) c (Text.universal_newlines c) Hfile)
    as (n' & Hwrite & Hback & _).
  exists n'. split; [| split; [exact Hback |]].
  - rewrite (edit_file_reads
               {| EditFileRequest.path := requested; EditFileRequest.edits := [];
                  EditFileRequest.dryRun := false |} w p (Text.universal_newlines c) Hguard)
      by (unfold read_text; now rewrite Hfile).
    unfold try_except, edit_body, bind, update. simpl. now rewrite Hwrite.
  - intros Hplain. now rewrite Hback, (universal_newlines_plain _ Hplain).
Qed.

Lemma at_parent_no_parent (op : string -> entries_t -> exn + entries_t)
    (on_root : node -> exn + node) (parent : path) (name : string) (n : node) (e : exn) :
  fs_stat parent n = inl e -> at_parent op on_root (parent ++ [name]) n = inl e.
Proof.
  revert n. induction parent as [|t parent IH]; intros n Hstat; [discriminate |].
  simpl in Hstat. simpl app. destruct n as [c|es].
  - injection Hstat as <-. reflexivity.
  - rewrite at_parent_step by (destruct parent; discriminate).
    destruct (entry t es) as [ch|]; [| exact Hstat]. now rewrite (IH ch Hstat).
Qed.

Lemma at_parent_file_parent (op : string -> entries_t -> exn + entries_t)
    (on_root : node -> exn + node) (parent : path) (name : string) (n : node) (c : string) :
  fs_stat parent n = inr (File c) ->
  at_parent op on_root (parent ++ [name]) n = inl NotADirectoryError.
Proof.
  revert n. induction parent as [|t parent IH]; intros n Hstat.
  - simpl in Hstat. injection Hstat as ->. reflexivity.
  - simpl in Hstat. simpl app. destruct n as [c0|es]; [discriminate |].
    rewrite at_parent_step by (destruct parent; discriminate).
    destruct (entry t es) as [ch|]; [| discriminate]. now rewrite (IH ch Hstat).
Qed.

(** X25.  [write_file] creates no directories: when the path passes the
    guard but its parent is missing or is a regular file, the request
    fails with status 500 "Failed to write to" and changes nothing. *)
Theorem X25_write_file_needs_parent
    (data : WriteFileRequest.t) (w : world) (parent : path) (name : string) :
  normalize_path (WriteFileRequest.path data) w = (inr (parent ++ [name]), w) ->
  path_is_dir parent (fs w) = false ->
  exists e,
    (e = FileNotFoundError \/ e = NotADirectoryError)
    /\ write_file data w =
       (inl (HTTPException 500
               (Msg ("Failed to write to " +:+ WriteFileRequest.path data +:+ ": "
                     +:+ exn_str e))), w).
Proof.
  intros Hguard Hparent. unfold path_is_dir in Hparent.
  assert (Hrun : exists e, (e = FileNotFoundError \/ e = NotADirectoryError)
                           /\ write_text (parent ++ [name]) (WriteFileRequest.content data)
                                (fs w) = inl e).
  { unfold write_text.
    destruct (fs_stat parent (fs w)) as [e|[c|es]] eqn:Hstat; try discriminate.
    - exists e. split; [| now apply at_parent_no_parent].
      clear - Hstat. revert Hstat. generalize (fs w).
      induction parent as [|t parent IH]; intros n; simpl; [discriminate |].
      destruct n as [c|es]; [intros [= <-]; auto |].
      destruct (entry t es); [apply IH | intros [= <-]; auto].
    - exists NotADirectoryError. split; [auto | eapply at_parent_file_parent; eauto]. }
  destruct Hrun as (e & He & Hrun). exists e. split; [exact He |].
  unfold write_file, try_except, bind, update. rewrite Hguard. cbv beta iota.
  rewrite Hrun. destruct He as [-> | ->]; reflexivity.
Qed.


End More.

(** ** The company directory *)

Lemma insert_bulk_loop_spec (uuid4 : nat -> string) (companies : list Directory.Company)
    (drawn : nat) (inserted : list string) (db : list Directory.row) :
  Directory.insert_bulk_loop uuid4 drawn companies inserted db =
  (inserted ++ map uuid4 (seq drawn (length companies)),
   db ++ combine (map uuid4 (seq drawn (length companies))) companies).
Proof.
  revert drawn inserted db.
  induction companies as [|c companies IH]; intros drawn inserted db; simpl.
  - now rewrite !app_nil_r.
  - rewrite IH. now rewrite <- !List.app_assoc.
Qed.

Lemma map_fst_combine {A B : Type} (l : list A) (k : list B) :
  length l = length k -> map fst (combine l k) = l.
Proof.
  revert k. induction l as [|a l IH]; intros [|b k] Hlen; simpl in *; try discriminate.
  - reflexivity.
  - f_equal. apply IH. congruence.
Qed.

(** X20.  [insert_bulk_companies] does what one [insert_company] per
    company does, in order: it answers with one identifier per company,
    the draws of [uuid4] in order, whatever they are, appends the companies
    under those identifiers at the end of the database and leaves the rows
    that were there as they were; in particular, bulk-inserting a company
    and then the rest is inserting the one and bulk-inserting the rest.
    The identifiers are not compared with anything: the identifiers of the
    database stay distinct when the draws differ from each other and from
    the identifiers that are there. *)
Theorem X20_bulk_insert_is_repeated_insert
    (uuid4 : nat -> string) (companies : list Directory.Company) (db : list Directory.row) :
  let ids := map uuid4 (seq 0 (length companies)) in
  Directory.insert_bulk_companies uuid4 companies db = (ids, db ++ combine ids companies)
  /\ length ids = length companies
  /\ (forall company,
        Directory.insert_bulk_companies uuid4 (company :: companies) db =
        let '(company_id, db1) := Directory.insert_company (uuid4 0) company db in
        let '(rest, db2) :=
          Directory.insert_bulk_companies (fun i => uuid4 (S i)) companies db1 in
        (company_id :: rest, db2))
  /\ (NoDup (map fst db) -> NoDup ids ->
      (forall company_id, In company_id ids -> ~ In company_id (map fst db)) ->
      NoDup (map fst (snd (Directory.insert_bulk_companies uuid4 companies db)))).
Proof.
  intros ids.
  assert (Hlen : length ids = length companies)
    by (subst ids; now rewrite length_map, length_seq).
  unfold Directory.insert_bulk_companies. split; [| split; [| split]].
  - now rewrite insert_bulk_loop_spec.
  - exact Hlen.
  - intros company. simpl. rewrite !insert_bulk_loop_spec. simpl.
    rewrite <- seq_shift, map_map. now rewrite <- List.app_assoc.
  - intros Hdb Hids Hfresh. rewrite insert_bulk_loop_spec. simpl. fold ids.
    rewrite List.map_app. unfold Directory.row. rewrite (map_fst_combine _ _ Hlen).
    apply NoDup_app. split; [exact Hdb | split; [| exact Hids]].
    intros x Hx Hx'. apply list_elem_of_In in Hx, Hx'. exact (Hfresh x Hx' Hx).
Qed.

Lemma contains_empty (s : string) : Text.contains EmptyString s = true.
Proof. unfold Text.contains. destruct s; reflexivity. Qed.

(** X21.  [search_companies] looks at names without regard to case and
    keeps the order of the database: after [insert_company] a search
    returns what it returned before, followed by the new row, under the
    identifier the insertion answered with, exactly when the lower-cased
    term occurs in the lower-cased name of the new company; the empty term
    returns every row; and a term and its lower-casing return the same
    rows. *)
Theorem X21_search_finds_inserted
    (search_term company_id : string) (company : Directory.Company)
    (db : list Directory.row) :
  Directory.search_companies search_term
    (snd (Directory.insert_company company_id company db)) =
  Directory.search_companies search_term db
  ++ (if Text.contains (Text.lower search_term)
           (Text.lower (Directory.company_name company))
      then [(fst (Directory.insert_company company_id company db), company)]
      else [])
  /\ Directory.search_companies EmptyString db = db
  /\ Directory.search_companies (Text.lower search_term) db =
     Directory.search_companies search_term db.
Proof.
  unfold Directory.search_companies, Directory.insert_company. simpl. split; [| split].
  - rewrite List.filter_app. simpl.
    destruct (Text.contains (Text.lower search_term)
                (Text.lower (Directory.company_name company))); reflexivity.
  - induction db as [|r db IH]; [reflexivity |]. simpl.
    change (Text.lower EmptyString) with EmptyString in *.
    now rewrite contains_empty, IH.
  - now rewrite lower_idempotent.
Qed.

(** ** The further properties on concrete requests *)

Lemma X1_witness :
  exists w',
    @write_file data_runtime
      {| WriteFileRequest.path := "/data/new.txt"; WriteFileRequest.content := "a b" |}
      example_world =
    (inr (SuccessResponse "Successfully wrote to /data/new.txt"), w')
    /\ @read_file data_runtime {| ReadFileRequest.path := "/data/new.txt" |} w' =
       (inr (ReadFileResponse "a b"), w').
Proof.
  destruct (@X1_write_then_read data_runtime "/data/new.txt" "a b" example_world
              ["data"; "new.txt"]) as (w' & Hwrite & _ & Hread).
  - vm_compute; reflexivity.
  - right. exists ["data"], "new.txt". eexists.
    split; [reflexivity | split; [reflexivity | vm_compute; reflexivity]].
  - exists w'. split; [exact Hwrite | apply Hread; vm_compute; reflexivity].
Defined.

Lemma X4_witness :
  snd (@handle data_runtime 0 0 example_bytes
         (SearchFiles search_request) file_pending_world) = file_pending_world.
Proof.
  apply (@X4_read_only_handlers_keep_world data_runtime 0 0 example_bytes
           (SearchFiles search_request) file_pending_world).
  reflexivity.
Defined.

Lemma X6_witness :
  exists n',
    @create_directory data_runtime {| CreateDirectoryRequest.path := "/data/x/y" |}
      example_world =
    (inr (SuccessResponse "Successfully created directory /data/x/y"),
     {| fs := n'; confirmation_file := None |})
    /\ path_is_dir ["data"; "x"] n' = true
    /\ path_is_dir ["data"; "x"; "y"] n' = true
    /\ peek ["data"; "a.txt"] n' = inr (Some "hello").
Proof.
  destruct (@X6_create_directory_makes_directories data_runtime
              {| CreateDirectoryRequest.path := "/data/x/y" |} example_world
              ["data"; "x"; "y"]) as (n' & Hrun & Hdirs & Hkept & _).
  - vm_compute; reflexivity.
  - intros q c Hq.
    destruct q as [|a [|b [|d [|? ?]]]]; simpl in Hq;
      repeat match goal with
             | H : _ && _ = true |- _ => apply andb_true_iff in H as [? ?]
             | H : String.eqb _ _ = true |- _ => apply String.eqb_eq in H; subst
             end;
      try discriminate.
  - exists n'. split; [exact Hrun |].
    split; [apply Hdirs; reflexivity |]. split; [apply Hdirs; reflexivity |].
    apply Hkept. vm_compute; reflexivity.
Defined.

Lemma X7_witness :
  exists (e : exn) (msg : string),
    (e = NotADirectoryError \/ e = FileExistsError)
    /\ @create_directory data_runtime {| CreateDirectoryRequest.path := "/data/a.txt/sub" |}
         example_world =
       (inl (HTTPException 500
               (Msg ("Failed to create directory /data/a.txt/sub: " +:+ msg))),
        example_world).
Proof.
  destruct (@X7_create_directory_blocked_by_file data_runtime
              {| CreateDirectoryRequest.path := "/data/a.txt/sub" |} example_world
              ["data"; "a.txt"; "sub"] ["data"; "a.txt"] "hello"
              eq_refl eq_refl eq_refl) as (e & He & Hrun).
  exists e. eexists. split; [exact He | exact Hrun].
Defined.

Lemma X8_witness :
  @list_directory data_runtime {| ListDirectoryRequest.path := "/data/skip" |} example_world =
  (inr (ListingResponse [("sub", "directory")]), example_world)
  /\ exists t,
       @directory_tree data_runtime {| DirectoryTreeRequest.path := "/data/skip" |}
         example_world = (inr (TreeResponse t), example_world)
       /\ map (fun x => (tree_name x, tree_type x)) t = [("sub", "directory")].
Proof.
  exact (@X8_listing_and_tree_agree data_runtime "/data/skip" example_world
           ["data"; "skip"] eq_refl).
Defined.

Lemma X9_witness :
  exists t,
    @directory_tree data_runtime {| DirectoryTreeRequest.path := "/data" |} example_world =
    (inr (TreeResponse t), example_world)
    /\ (exists x, tree_at ["skip"; "sub"; "report.txt"] t = Some x
                  /\ tree_name x = "report.txt" /\ tree_type x = "file")
    /\ tree_at ["skip"; "nothing"] t = None.
Proof.
  destruct (@X9_directory_tree_mirrors data_runtime
              {| DirectoryTreeRequest.path := "/data" |} example_world ["data"]
              _ eq_refl eq_refl) as (t & Hrun & Hmirror).
  exists t. split; [exact Hrun |]. split.
  - exact (Hmirror ["skip"; "sub"; "report.txt"] ltac:(discriminate)).
  - exact (Hmirror ["skip"; "nothing"] ltac:(discriminate)).
Defined.

Lemma X10_witness :
  @search_files data_runtime
    {| SearchFilesRequest.path := "/data"; SearchFilesRequest.pattern := "REPORT";
       SearchFilesRequest.excludePatterns := Some [] |} example_world =
  @search_files data_runtime
    {| SearchFilesRequest.path := "/data"; SearchFilesRequest.pattern := "Report";
       SearchFilesRequest.excludePatterns := Some [] |} example_world.
Proof.
  exact (proj1 (@X10_search_pattern_case_insensitive data_runtime "/data" "REPORT" "Report"
                  (Some []) example_world eq_refl)).
Defined.

Lemma X11_witness :
  (exists results : list ContentMatch,
     @search_content data_runtime
       {| SearchContentRequest.path := "/data/dir";
          SearchContentRequest.search_query := "HELLO";
          SearchContentRequest.recursive := true;
          SearchContentRequest.file_pattern := Some "*.txt" |} example_world =
     (inr match results with
          | [] => NoMatchesResponse
          | _ => ContentMatchesResponse results
          end, example_world)
     /\ In {| file_path := "/data/dir/f.txt"; line_number := 1; line_content := "hello" |}
          results)
  /\ @search_content data_runtime
       {| SearchContentRequest.path := "/data/dir";
          SearchContentRequest.search_query := "HELLO";
          SearchContentRequest.recursive := false;
          SearchContentRequest.file_pattern := Some EmptyString |} example_world =
     (inl (ValueError "Unacceptable pattern: ''"), example_world).
Proof.
  split.
  - destruct (@X11_search_content_matches data_runtime
                {| SearchContentRequest.path := "/data/dir";
                   SearchContentRequest.search_query := "HELLO";
                   SearchContentRequest.recursive := true;
                   SearchContentRequest.file_pattern := Some "*.txt" |} example_world
                ["data"; "dir"] eq_refl eq_refl) as (results & Hrun & Hin).
    exists results. split; [exact Hrun |]. apply Hin.
    exists ["data"; "dir"; "f.txt"], "hello", 0, "hello".
    split; [left; reflexivity |]. repeat split; reflexivity.
  - exact (@X11_search_content_matches data_runtime
             {| SearchContentRequest.path := "/data/dir";
                SearchContentRequest.search_query := "HELLO";
                SearchContentRequest.recursive := false;
                SearchContentRequest.file_pattern := Some EmptyString |} example_world
             ["data"; "dir"] eq_refl eq_refl).
Defined.

Lemma X12_witness :
  @move_path data_runtime
    {| MovePathRequest.source_path := "/data/nothing";
       MovePathRequest.destination_path := "/data/b" |} example_world =
  (inl (HTTPException 500
          (Msg "Failed to move '/data/nothing' to '/data/b': 404: Source path not found: /data/nothing")),
   example_world).
Proof.
  exact (@X12_move_missing_source data_runtime
           {| MovePathRequest.source_path := "/data/nothing";
              MovePathRequest.destination_path := "/data/b" |} example_world
           ["data"; "nothing"] ["data"; "b"] eq_refl eq_refl eq_refl).
Defined.

Lemma X13_witness :
  @get_metadata data_runtime {| GetMetadataRequest.path := "/data/nothing" |} example_world =
  (inl (HTTPException 500
          (Msg "Failed to get metadata for /data/nothing: 404: Path not found: /data/nothing")),
   example_world)
  /\ exists md : Metadata,
       @get_metadata data_runtime {| GetMetadataRequest.path := "/data/a.txt" |}
         example_world = (inr (MetadataResponse md), example_world)
       /\ md_path md = "/data/a.txt" /\ md_type md = "file" /\ size_bytes md = 5%Z.
Proof.
  split.
  - exact (@X13_get_metadata_answers data_runtime
             {| GetMetadataRequest.path := "/data/nothing" |} example_world
             ["data"; "nothing"] eq_refl).
  - eexists. split.
    + exact (@X13_get_metadata_answers data_runtime
               {| GetMetadataRequest.path := "/data/a.txt" |} example_world
               ["data"; "a.txt"] eq_refl).
    + repeat split; reflexivity.
Defined.

Lemma X14_witness :
  stored vanished_world !! "abcde" =
    Some {| conf_path := "/data/a.txt"; conf_recursive := false; conf_expiry := 60000000 |}
  /\ @delete_path data_runtime 1 1 example_bytes
       (delete_request "/data/a.txt" false (Some "abcde")) vanished_world =
     (inl (HTTPException 500
             (Msg "Failed to delete /data/a.txt: 404: Path not found: /data/a.txt")),
      saved (delete "abcde" (live 1 vanished_world)) vanished_world).
Proof.
  split; [vm_compute; reflexivity |].
  apply (@X14_confirmed_delete_of_vanished_target data_runtime 1 1 example_bytes
           (delete_request "/data/a.txt" false (Some "abcde")) vanished_world
           ["data"; "a.txt"] "abcde"
           {| conf_path := "/data/a.txt"; conf_recursive := false;
              conf_expiry := 60000000 |});
    [reflexivity | discriminate | vm_compute; reflexivity | vm_compute; reflexivity
    | simpl; lia | simpl; lia | reflexivity | reflexivity | vm_compute; reflexivity].
Defined.

Lemma X17_witness :
  exists (msg : string) (w1 : world),
    @delete_path data_runtime 0 0 example_bytes (delete_request "/data/a.txt" false None)
      example_world =
    (inr (ConfirmationRequiredResponse msg "abcde" 60000000), w1)
    /\ fs w1 = example_tree
    /\ (exists (msg' : string) (w2 : world),
          @delete_path data_runtime 59999999 60000000 example_bytes
            (delete_request "/data/a.txt" false (Some "abcde")) w1 =
          (inr (SuccessResponse msg'), w2)
          /\ removed ["data"; "a.txt"] example_tree (fs w2))
    /\ @delete_path data_runtime 60000000 60000000 example_bytes
         (delete_request "/data/a.txt" false (Some "abcde")) w1 = (inl invalid_token, w1).
Proof.
  destruct (@X17_token_honoured_until_expiry data_runtime 0 0 example_bytes
              "/data/a.txt" false example_world ["data"; "a.txt"])
    as (msg & w1 & Hissue & Hfs & Hin_time & Hlate);
    [vm_compute; reflexivity | vm_compute; reflexivity |].
  exists msg, w1. split; [exact Hissue |]. split; [exact Hfs |]. split.
  - apply (Hin_time 59999999%Z 60000000%Z example_bytes);
      [vm_compute; reflexivity | vm_compute; discriminate | vm_compute; reflexivity].
  - apply (Hlate 60000000%Z 60000000%Z example_bytes). vm_compute; discriminate.
Defined.

Lemma X18_witness :
  stored file_pending_world !! "abcde" =
    Some {| conf_path := "/data/a.txt"; conf_recursive := false; conf_expiry := 60000000 |}
  /\ @delete_path data_runtime 5 5 example_bytes
       (delete_request "/data/a.txt" false (Some "abcde")) (startup file_pending_world) =
     (inl invalid_token, startup file_pending_world).
Proof.
  split; [vm_compute; reflexivity |].
  apply (@X18_restart_forgets_tokens data_runtime 5 5 example_bytes
           (delete_request "/data/a.txt" false (Some "abcde")) file_pending_world
           ["data"; "a.txt"] "abcde");
    [reflexivity | discriminate | vm_compute; reflexivity].
Defined.

Lemma X19_witness :
  @normalize_path data_runtime "/data/dir/../dir/f.txt" example_world =
  (inr ["data"; "dir"; "f.txt"], example_world).
Proof.
  exact (@X19_guard_accepts_descendants data_runtime "/data/dir" "/data/dir/../dir/f.txt"
           example_world ["data"; "dir"] ["f.txt"] eq_refl eq_refl).
Defined.


Lemma X23_witness :
  @search_files data_runtime
    {| SearchFilesRequest.path := "/data/a.txt"; SearchFilesRequest.pattern := "a";
       SearchFilesRequest.excludePatterns := None |} example_world =
  (inr (MatchesResponse ["No matches found"]), example_world)
  /\ @search_content data_runtime
       {| SearchContentRequest.path := "/data/a.txt";
          SearchContentRequest.search_query := "hello";
          SearchContentRequest.recursive := true;
          SearchContentRequest.file_pattern := Some "*" |} example_world =
     (inl (HTTPException 400 (Msg "Provided path is not a directory")), example_world).
Proof.
  exact (proj1 (@X23_search_base_not_a_directory data_runtime "/data/a.txt" "a" "hello" None
                  true (Some "*") example_world ["data"; "a.txt"] eq_refl) eq_refl).
Defined.

Lemma X24_witness :
  exists n',
    @edit_file data_runtime
      {| EditFileRequest.path := "/data/w.txt"; EditFileRequest.edits := [];
         EditFileRequest.dryRun := false |} crlf_world =
    (inr (SuccessResponse "Successfully edited file /data/w.txt"),
     {| fs := n'; confirmation_file := None |})
    /\ fs_stat ["data"; "w.txt"] n' = inr (File ("a" +:+ String "010" "b")).
Proof.
  destruct (@X24_edit_without_edits_rewrites data_runtime "/data/w.txt" crlf_world
              ["data"; "w.txt"] _ eq_refl eq_refl) as (n' & Hrun & Hfile & _).
  exists n'. split; [exact Hrun | exact Hfile].
Defined.

Lemma X25_witness :
  exists (e : exn) (msg : string),
    (e = FileNotFoundError \/ e = NotADirectoryError)
    /\ @write_file data_runtime
         {| WriteFileRequest.path := "/data/nothing/x.txt"; WriteFileRequest.content := "x" |}
         example_world =
       (inl (HTTPException 500 (Msg ("Failed to write to /data/nothing/x.txt: " +:+ msg))),
        example_world).
Proof.
  destruct (@X25_write_file_needs_parent data_runtime
              {| WriteFileRequest.path := "/data/nothing/x.txt";
                 WriteFileRequest.content := "x" |}
              example_world ["data"; "nothing"] "x.txt" eq_refl eq_refl) as (e & He & Hrun).
  exists e. eexists. split; [exact He | exact Hrun].
Defined.
